(** * Instagram data pipeline: scheduler, crawler, proxy pool, mutual
      computation and interest classification

    A shallow embedding of the Python sources
    [instagram_pipeline/scraper/proxy_manager.py],
    [instagram_pipeline/scraper/instagram_scraper.py],
    [instagram_pipeline/scheduler/job_scheduler.py] and
    [instagram_pipeline/analysis/interest_analyzer.py], followed by the
    properties of the specification that concern them.

    Conventions.  Python objects with mutable attributes become records that
    are passed in and returned.  A psycopg2 connection is a pair of database
    states: what has been committed and what the open transaction sees.
    Everything the program reads from outside (the clock, the random
    generator, Instagram, the language model) is an explicit argument. *)

From Stdlib Require Import ZArith QArith List Bool Arith Lia.
From stdpp Require Import gmap strings list fin_maps.
Import ListNotations.

Open Scope string_scope.
Open Scope nat_scope.

(** ** Python results *)

(** Outcome of a call that may raise.  [Raised msg] carries [str(e)]. *)
Inductive PyResult (A : Type) : Type :=
| Returned (a : A)
| Raised (msg : string).
Arguments Returned {A} a.
Arguments Raised {A} msg.

(** ** Clock values *)

Module Datetime.

(** A [datetime.datetime]: a civil date and the microseconds elapsed
    since midnight. *)
Record datetime : Type := {
  year : Z;
  month : Z;
  day : Z;
  microsecond_of_day : Z
}.

(** Number of days from 1970-01-01 to the civil date [y]-[m]-[d] in the
    proleptic Gregorian calendar, which is the calendar of Python's
    [datetime]. *)
Definition days_from_civil (y m d : Z) : Z :=
  (let y' := if m <=? 2 then y - 1 else y in
   let era := y' / 400 in
   let yoe := y' - era * 400 in
   let mp := if 2 <? m then m - 3 else m + 9 in
   let doy := (153 * mp + 2) / 5 + d - 1 in
   let doe := yoe * 365 + yoe / 4 - yoe / 100 + doy in
   era * 146097 + doe - 719468)%Z.

Definition to_microseconds (t : datetime) : Z :=
  (days_from_civil (year t) (month t) (day t) * 86400000000
   + microsecond_of_day t)%Z.

(** [timedelta(days=n)] in microseconds. *)
Definition timedelta_days (n : Z) : Z := (n * 86400000000)%Z.

(** [a > b - delta] on timestamps. *)
Definition later_than_minus (a b : datetime) (delta : Z) : bool :=
  (to_microseconds b - delta <? to_microseconds a)%Z.

(** Equality of the calendar dates of two clock values. *)
Definition same_date (a b : datetime) : bool :=
  ((year a =? year b) && (month a =? month b) && (day a =? day b))%Z.

End Datetime.

(** ** The relational store (database/setup.py) *)

Module Db.
Import Datetime.

(** ** Rows.  A column that may be NULL is an [option].  The surrogate
    keys and default timestamps of the edge tables are read by no
    statement of the program and are not represented.

    The store is modelled for the statements that the engine accepts: a
    statement is a function on the tables, and the only conflicts are those
    that the statements themselves handle with [ON CONFLICT].  The edge
    tables refer to [users] by foreign keys.  The row of a listed account
    is written just before its edge, but the row of the account that a
    listing is about is written by a profile crawl only: without it the
    engine refuses the edge and aborts the transaction, and the program
    has no rollback.  That path is not followed here.  The properties
    that would meet it say that the row is there ([target_stored],
    [crawls_accepted]).  A table is a list in the order of this model;
    SQL leaves the order of the rows of a query without [ORDER BY]
    open. *)

Record UserRow : Type := {
  user_id : string;
  username : string;
  full_name : option string;
  bio : option string;
  profile_pic_url : option string;
  follower_count : option nat;
  following_count : option nat;
  is_private : option bool;
  last_updated : option datetime
}.

(** A row of [followers], [following] or [mutuals]: the owning account
    and the other account. *)
Definition Edge : Type := (string * string)%type.

Definition Edge_eqb (a b : Edge) : bool :=
  String.eqb (fst a) (fst b) && String.eqb (snd a) (snd b).

Record ScrapeJob : Type := {
  job_id : nat;
  target_username : string;
  job_type : string;
  status : string;
  started_at : option datetime;
  completed_at : option datetime;
  last_cursor : option string;
  total_items : option nat;
  processed_items : nat;
  error_message : option string
}.

(** A value of a FLOAT column. *)
Inductive Float : Type :=
| Finite (q : Q)
| NaN
| Infinity (negative : bool).

Record InterestRow : Type := {
  confidence_score : option Float;
  created_at : datetime
}.

Record DB : Type := {
  users : list UserRow;
  followers : list Edge;
  following : list Edge;
  mutuals : list Edge;
  interest_categories : list (nat * string);
  interests : gmap (string * nat) InterestRow;
  scrape_jobs : list ScrapeJob;
  (** next value of the [job_id] sequence *)
  scrape_jobs_seq : nat
}.

Definition with_users (f : list UserRow -> list UserRow) (db : DB) : DB :=
  {| users := f (users db); followers := followers db;
     following := following db; mutuals := mutuals db;
     interest_categories := interest_categories db;
     interests := interests db;
     scrape_jobs := scrape_jobs db;
     scrape_jobs_seq := scrape_jobs_seq db |}.

Definition with_followers (f : list Edge -> list Edge) (db : DB) : DB :=
  {| users := users db; followers := f (followers db);
     following := following db; mutuals := mutuals db;
     interest_categories := interest_categories db;
     interests := interests db;
     scrape_jobs := scrape_jobs db;
     scrape_jobs_seq := scrape_jobs_seq db |}.

Definition with_following (f : list Edge -> list Edge) (db : DB) : DB :=
  {| users := users db; followers := followers db;
     following := f (following db); mutuals := mutuals db;
     interest_categories := interest_categories db;
     interests := interests db;
     scrape_jobs := scrape_jobs db;
     scrape_jobs_seq := scrape_jobs_seq db |}.

Definition with_mutuals (f : list Edge -> list Edge) (db : DB) : DB :=
  {| users := users db; followers := followers db;
     following := following db; mutuals := f (mutuals db);
     interest_categories := interest_categories db;
     interests := interests db;
     scrape_jobs := scrape_jobs db;
     scrape_jobs_seq := scrape_jobs_seq db |}.

Definition with_interests
    (f : gmap (string * nat) InterestRow -> gmap (string * nat) InterestRow)
    (db : DB) : DB :=
  {| users := users db; followers := followers db;
     following := following db; mutuals := mutuals db;
     interest_categories := interest_categories db;
     interests := f (interests db);
     scrape_jobs := scrape_jobs db;
     scrape_jobs_seq := scrape_jobs_seq db |}.

Definition with_scrape_jobs (f : list ScrapeJob -> list ScrapeJob) (db : DB)
  : DB :=
  {| users := users db; followers := followers db;
     following := following db; mutuals := mutuals db;
     interest_categories := interest_categories db;
     interests := interests db;
     scrape_jobs := f (scrape_jobs db);
     scrape_jobs_seq := scrape_jobs_seq db |}.

(** ** Statements *)

(** [INSERT INTO <edge table> ... ON CONFLICT (user_id, other) DO NOTHING] *)
Definition insert_edge (e : Edge) (t : list Edge) : list Edge :=
  if List.existsb (Edge_eqb e) t then t else t ++ [e].

(** [INSERT INTO users ... ON CONFLICT (user_id) DO NOTHING] *)
Definition insert_user_do_nothing (u : UserRow) (t : list UserRow)
  : list UserRow :=
  if List.existsb (fun r => String.eqb (user_id r) (user_id u)) t
  then t else t ++ [u].

(** [INSERT INTO users ... ON CONFLICT (user_id) DO UPDATE SET] every
    column of the new row. *)
Definition upsert_user (u : UserRow) (t : list UserRow) : list UserRow :=
  if List.existsb (fun r => String.eqb (user_id r) (user_id u)) t
  then List.map
         (fun r => if String.eqb (user_id r) (user_id u) then u else r) t
  else t ++ [u].

(** [INSERT INTO scrape_jobs (target_username, job_type, status, started_at)]:
    the row takes the next value of the sequence; the other columns take
    their defaults. *)
Definition insert_job (target type st : string) (started : option datetime)
    (db : DB) : DB :=
  {| users := users db; followers := followers db;
     following := following db; mutuals := mutuals db;
     interest_categories := interest_categories db;
     interests := interests db;
     scrape_jobs :=
       scrape_jobs db ++
       [ {| job_id := scrape_jobs_seq db;
            target_username := target;
            job_type := type;
            status := st;
            started_at := started;
            completed_at := None;
            last_cursor := None;
            total_items := None;
            processed_items := 0;
            error_message := None |} ];
     scrape_jobs_seq := S (scrape_jobs_seq db) |}.

(** [UPDATE scrape_jobs SET ... WHERE job_id = id] *)
Definition update_job (id : nat) (f : ScrapeJob -> ScrapeJob) (db : DB)
  : DB :=
  with_scrape_jobs
    (List.map (fun j => if job_id j =? id then f j else j)) db.

Definition set_processed (n : nat) (j : ScrapeJob) : ScrapeJob :=
  {| job_id := job_id j; target_username := target_username j;
     job_type := job_type j; status := status j;
     started_at := started_at j; completed_at := completed_at j;
     last_cursor := last_cursor j; total_items := total_items j;
     processed_items := n; error_message := error_message j |}.

Definition set_completed (at_ : datetime) (n : nat) (j : ScrapeJob)
  : ScrapeJob :=
  {| job_id := job_id j; target_username := target_username j;
     job_type := job_type j; status := "completed";
     started_at := started_at j; completed_at := Some at_;
     last_cursor := last_cursor j; total_items := Some n;
     processed_items := n; error_message := error_message j |}.

Definition set_failed (msg : string) (j : ScrapeJob) : ScrapeJob :=
  {| job_id := job_id j; target_username := target_username j;
     job_type := job_type j; status := "failed";
     started_at := started_at j; completed_at := completed_at j;
     last_cursor := last_cursor j; total_items := total_items j;
     processed_items := processed_items j; error_message := Some msg |}.

(** [ORDER BY job_id] *)
Fixpoint insert_by_job_id (j : ScrapeJob) (l : list ScrapeJob)
  : list ScrapeJob :=
  match l with
  | [] => [j]
  | k :: l' =>
      if job_id j <=? job_id k then j :: k :: l'
      else k :: insert_by_job_id j l'
  end.

Fixpoint order_by_job_id (l : list ScrapeJob) : list ScrapeJob :=
  match l with
  | [] => []
  | j :: l' => insert_by_job_id j (order_by_job_id l')
  end.

(** ** Reading the table of jobs *)

(** The row with a given [job_id], the primary key. *)
Definition job_row (id : nat) (db : DB) : option ScrapeJob :=
  List.find (fun j => job_id j =? id) (scrape_jobs db).

(** What the schema guarantees on [scrape_jobs]: [job_id] is a key, and
    the sequence is ahead of every key in the table. *)
Definition jobs_wf (db : DB) : Prop :=
  List.NoDup (List.map job_id (scrape_jobs db)) /\
  (forall j, In j (scrape_jobs db) -> job_id j < scrape_jobs_seq db).

(** From [db] to [db'] the sequence did not go back, the rows with a key
    below [b] are the same, and the schema's guarantee is kept. *)
Definition jobs_frame (b : nat) (db db' : DB) : Prop :=
  scrape_jobs_seq db <= scrape_jobs_seq db' /\
  (forall x, x < b -> job_row x db' = job_row x db) /\
  (jobs_wf db -> jobs_wf db').

(** ** Reading the table of accounts *)

(** The row with a given [user_id], the primary key. *)
Definition user_row (id : string) (db : DB) : option UserRow :=
  List.find (fun u => String.eqb (user_id u) id) (users db).

(** ** What the tables are expected to satisfy *)

(** Keys are unique in every table, every mutual edge is also a follower
    edge and a following edge, and the account at the far end of an edge
    has a row. *)
Definition store_inv (db : DB) : Prop :=
  List.NoDup (List.map user_id (users db)) /\
  List.NoDup (followers db) /\
  List.NoDup (following db) /\
  List.NoDup (mutuals db) /\
  jobs_wf db /\
  (forall e, In e (mutuals db) ->
             In e (followers db) /\ In e (following db)) /\
  (forall e, In e (followers db) \/ In e (following db) ->
             In (snd e) (List.map user_id (users db))).

(** Every account, edge and job of [db] is still in [db']. *)
Definition store_grows (db db' : DB) : Prop :=
  incl (List.map user_id (users db)) (List.map user_id (users db')) /\
  incl (followers db) (followers db') /\
  incl (following db) (following db') /\
  incl (mutuals db) (mutuals db') /\
  incl (List.map job_id (scrape_jobs db)) (List.map job_id (scrape_jobs db')).

(** Both at once, from [db] to [db']. *)
Definition store_step (db db' : DB) : Prop :=
  store_grows db db' /\ (store_inv db -> store_inv db').

(** The rows of [l] are in the order of their keys. *)
Fixpoint by_job_id (l : list ScrapeJob) : Prop :=
  match l with
  | [] => True
  | j :: l' => (forall k, In k l' -> job_id j <= job_id k) /\ by_job_id l'
  end.

(** No row with a key from [b] on is [pending]. *)
Definition late_settled (b : nat) (db : DB) : Prop :=
  forall j, In j (scrape_jobs db) -> b <= job_id j -> status j <> "pending".

(** From [db] to [db'] no table but [interests] has changed, and no key
    of [interests] was removed. *)
Definition only_interests (db db' : DB) : Prop :=
  db' = with_interests (fun _ => interests db') db /\
  forall k, is_Some (interests db !! k) -> is_Some (interests db' !! k).

(** ** Connections.  psycopg2 opens a transaction at the first statement;
    [commit] makes its effects durable.  If the process stops, what
    remains is [committed]. *)

Record Conn : Type := { committed : DB; working : DB }.

Definition execute (f : DB -> DB) (c : Conn) : Conn :=
  {| committed := committed c; working := f (working c) |}.

Definition commit (c : Conn) : Conn :=
  {| committed := working c; working := working c |}.

End Db.

(** ** proxy_manager.py *)

Module ProxyManager.

(** A proxy is the dict [{"http": ..., "https": ...}]; dicts compare by
    value. *)
Record Proxy : Type := { http : string; https : string }.

Definition Proxy_eqb (a b : Proxy) : bool :=
  String.eqb (http a) (http b) && String.eqb (https a) (https b).

Record t : Type := {
  proxies : list Proxy;
  current_index : nat;
  api_key : option string
}.

(** What one call of [_load_proxies] draws from outside: whether the
    guarded body raises, and the numbers [random.shuffle] obtains from the
    generator. *)
Record LoadEnv : Type := {
  load_exception : option string;
  shuffle_draws : list nat
}.

Definition placeholder_proxies : list Proxy :=
  [ {| http := "http://proxy1:port"; https := "https://proxy1:port" |};
    {| http := "http://proxy2:port"; https := "https://proxy2:port" |};
    {| http := "http://proxy3:port"; https := "https://proxy3:port" |} ].

(** [x[i], x[j] = x[j], x[i]] *)
Definition swap {A : Type} (x : list A) (i j : nat) : list A :=
  match x !! i, x !! j with
  | Some a, Some b => <[j := a]> (<[i := b]> x)
  | _, _ => x
  end.

(** [random.shuffle]: for [i] from [len(x) - 1] down to [1], swap [x[i]]
    with [x[randbelow(i + 1)]].  The generator is the list of draws, each
    reduced below its bound; an exhausted list yields [0]. *)
Fixpoint shuffle_from {A : Type} (i : nat) (draws : list nat) (x : list A)
  : list A :=
  match i with
  | 0 => x
  | S i' =>
      let j := List.hd 0 draws mod (S i) in
      shuffle_from i' (List.tl draws) (swap x i j)
  end.

Definition shuffle {A : Type} (draws : list nat) (x : list A) : list A :=
  shuffle_from (length x - 1) draws x.

Definition _load_proxies (env : LoadEnv) (pm : t) : t :=
  match load_exception env with
  | None =>
      {| proxies := shuffle (shuffle_draws env) placeholder_proxies;
         current_index := current_index pm;
         api_key := api_key pm |}
  | Some _ =>
      {| proxies := [];
         current_index := current_index pm;
         api_key := api_key pm |}
  end.

(** [ProxyManager()] *)
Definition init (key : option string) (env : LoadEnv) : t :=
  _load_proxies env {| proxies := []; current_index := 0; api_key := key |}.

(** [get_proxy].  Indexing past the end of a Python list raises
    [IndexError]. *)
Definition get_proxy (pm : t) : PyResult (option Proxy * t) :=
  match proxies pm with
  | [] => Returned (None, pm)
  | _ :: _ =>
      match proxies pm !! current_index pm with
      | Some proxy =>
          Returned
            (Some proxy,
             {| proxies := proxies pm;
                current_index :=
                  (current_index pm + 1) mod length (proxies pm);
                api_key := api_key pm |})
      | None => Raised "list index out of range"
      end
  end.

(** [list.remove]: drops the first element equal to [p]. *)
Fixpoint remove_first (p : Proxy) (l : list Proxy) : list Proxy :=
  match l with
  | [] => []
  | q :: l' => if Proxy_eqb p q then l' else q :: remove_first p l'
  end.

Definition mark_proxy_failed (env : LoadEnv) (proxy : Proxy) (pm : t) : t :=
  if List.existsb (Proxy_eqb proxy) (proxies pm) then
    let pm1 := {| proxies := remove_first proxy (proxies pm);
                  current_index := current_index pm;
                  api_key := api_key pm |} in
    if length (proxies pm1) <? 3 then _load_proxies env pm1 else pm1
  else pm.

(** A client's calls, each with what it draws from outside. *)
Inductive call : Type :=
| GetProxy
| MarkProxyFailed (proxy : Proxy) (env : LoadEnv).

(** Runs the calls in order; collects what each [get_proxy] returned and
    stops at the first exception. *)
Fixpoint run (cs : list call) (pm : t)
  : PyResult (list (option Proxy) * t) :=
  match cs with
  | [] => Returned ([], pm)
  | GetProxy :: cs' =>
      match get_proxy pm with
      | Returned (r, pm') =>
          match run cs' pm' with
          | Returned (rs, pm'') => Returned (r :: rs, pm'')
          | Raised e => Raised e
          end
      | Raised e => Raised e
      end
  | MarkProxyFailed p env :: cs' => run cs' (mark_proxy_failed env p pm)
  end.

(** The pool holds three proxies or none, and the rotation index stays
    below three. *)
Definition pool_inv (pm : t) : Prop :=
  current_index pm < 3 /\
  (length (proxies pm) = 3 \/ proxies pm = []).

(** [n] calls of [get_proxy] in a row. *)
Definition get_proxies (n : nat) (pm : t) : PyResult (list (option Proxy) * t) :=
  run (List.repeat GetProxy n) pm.

(** The pool is the three placeholders in some order, or it is empty. *)
Definition pool_known (pm : t) : Prop :=
  Permutation (proxies pm) placeholder_proxies \/ proxies pm = [].

End ProxyManager.

(** ** What the crawler obtains from Instagram (instaloader) *)

Module Instaloader.
Import Datetime.

(** An [instaloader.Profile], with the attributes the program reads. *)
Record Profile : Type := {
  userid : string;
  username : string;
  full_name : string;
  biography : string;
  profile_pic_url : string;
  followers : nat;
  followees : nat;
  is_private : bool
}.

(** Everything one crawler operation receives from outside. *)
Record Response : Type := {
  (** [Instaloader.login] raises with this message *)
  login_error : option string;
  (** [Profile.from_username] *)
  from_username : PyResult Profile;
  (** the items that [get_followers()] / [get_followees()] yields, in
      order *)
  listing : list Profile;
  (** the iterator raises with this message instead of stopping after
      the last item *)
  listing_error : option string;
  (** the clock when the operation starts, and when it completes *)
  clock_start : datetime;
  clock_end : datetime
}.

End Instaloader.

(** ** instagram_scraper.py *)

Module InstagramScraper.
Import Datetime Db Instaloader.

(** The attribute of the scraper that its operations change:
    [insta_loader is not None]. *)
Record t : Type := { insta_loader : bool }.

Definition init : t := {| insta_loader := false |}.

(** [_initialize_instaloader]: the loader is stored before the login, so
    a failed login is not attempted again. *)
Definition _initialize_instaloader (r : Response) (s : t)
  : t * PyResult unit :=
  if insta_loader s then (s, Returned tt)
  else match login_error r with
       | None => ({| insta_loader := true |}, Returned tt)
       | Some e => ({| insta_loader := true |}, Raised e)
       end.

Definition full_row (at_ : datetime) (p : Profile) : UserRow :=
  {| user_id := userid p;
     Db.username := username p;
     Db.full_name := Some (full_name p);
     bio := Some (biography p);
     Db.profile_pic_url := Some (profile_pic_url p);
     follower_count := Some (followers p);
     following_count := Some (followees p);
     Db.is_private := Some (is_private p);
     last_updated := Some at_ |}.

Definition minimal_row (at_ : datetime) (p : Profile) : UserRow :=
  {| user_id := userid p;
     Db.username := username p;
     Db.full_name := Some (full_name p);
     bio := None;
     Db.profile_pic_url := Some (profile_pic_url p);
     follower_count := None;
     following_count := None;
     Db.is_private := Some (is_private p);
     last_updated := Some at_ |}.

(** [get_user_profile] *)
Definition get_user_profile (r : Response) (name : string) (s : t)
    (conn : Conn) : t * Conn * PyResult Profile :=
  match _initialize_instaloader r s with
  | (s1, Raised e) => (s1, conn, Raised e)
  | (s1, Returned _) =>
      match from_username r with
      | Raised e => (s1, conn, Raised e)
      | Returned profile =>
          let conn1 :=
            execute (with_users (upsert_user (full_row (clock_start r) profile)))
                    conn in
          (s1, commit conn1, Returned profile)
      end
  end.

(** The two listings differ in the job type and in the table. *)
Inductive Direction : Type := Followers | Following.

Definition direction_name (d : Direction) : string :=
  match d with Followers => "followers" | Following => "following" end.

(** The [INSERT] of an edge between two accounts that have their rows;
    see [target_stored] below for the other case. *)
Definition insert_follow (d : Direction) (e : Edge) (db : DB) : DB :=
  match d with
  | Followers => with_followers (insert_edge e) db
  | Following => with_following (insert_edge e) db
  end.

(** [max_count and count >= max_count] *)
Definition limit_reached (max_count : option nat) (count : nat) : bool :=
  match max_count with
  | None => false
  | Some m => negb (m =? 0) && (m <=? count)
  end.

(** One pass of the body of the [for] loop on the listed account [f];
    [count] is the counter before the pass.  Returns the connection and
    the counter after it. *)
Definition follow_item (d : Direction) (at_ : datetime) (user_id : string)
    (job : nat) (f : Profile) (count : nat) (conn : Conn) : Conn * nat :=
  let conn1 :=
    execute (with_users (insert_user_do_nothing (minimal_row at_ f))) conn in
  let conn2 := execute (insert_follow d (user_id, userid f)) conn1 in
  let count' := count + 1 in
  let conn3 :=
    if count' mod 10 =? 0
    then commit (execute (update_job job (set_processed count')) conn2)
    else conn2 in
  (conn3, count').

(** The [for] loop over the listing; the flag tells whether it was left
    by [break]. *)
Fixpoint follow_loop (d : Direction) (at_ : datetime) (user_id : string)
    (job : nat) (max_count : option nat) (items : list Profile)
    (count : nat) (conn : Conn) : Conn * nat * bool :=
  match items with
  | [] => (conn, count, false)
  | f :: rest =>
      let '(conn', count') := follow_item d at_ user_id job f count conn in
      if limit_reached max_count count' then (conn', count', true)
      else follow_loop d at_ user_id job max_count rest count' conn'
  end.

(** The loop body applied to each of [items] in turn, as the loop does
    as long as it is not left. *)
Fixpoint follow_items (d : Direction) (at_ : datetime) (user_id : string)
    (job : nat) (items : list Profile) (count : nat) (conn : Conn)
  : Conn * nat :=
  match items with
  | [] => (conn, count)
  | f :: rest =>
      let '(conn', count') := follow_item d at_ user_id job f count conn in
      follow_items d at_ user_id job rest count' conn'
  end.

(** The table that a listing in direction [d] fills. *)
Definition edge_table (d : Direction) (db : DB) : list Edge :=
  match d with
  | Followers => Db.followers db
  | Following => Db.following db
  end.

(** The edges of [user_id] to the listed accounts, inserted in order. *)
Definition insert_edges (user_id : string) (items : list Profile)
    (t : list Edge) : list Edge :=
  List.fold_left (fun t f => insert_edge (user_id, userid f) t) items t.

(** The number of items that a fetch with a bound of at least one, or
    with none, handles out of [available]. *)
Definition handled (max_count : option nat) (available : nat) : nat :=
  match max_count with
  | Some N => Nat.min N available
  | None => available
  end.

(** What a checkpoint of the loop does to the table of jobs: it sets
    [processed_items] on the rows of the job. *)
Definition checkpoint (job k : nat) (jobs : list ScrapeJob) : list ScrapeJob :=
  List.map (fun j => if job_id j =? job then set_processed k j else j) jobs.

(** The rows [added] are minimal rows of accounts among [items] that had
    no row in [before]. *)
Definition added_by (at_ : datetime) (items : list Profile)
    (before : list UserRow) (added : list UserRow) : Prop :=
  forall u, In u added ->
    exists f, In f items /\ u = minimal_row at_ f /\
              ~ In (userid f) (List.map user_id before).

(** The account that the listing resolves has a row in [users], so that
    the engine accepts the edges of the listing: each refers to that row
    and to the row of the listed account, which the loop writes first. *)
Definition target_stored (r : Response) (db : DB) : Prop :=
  forall p, from_username r = Returned p ->
            In (userid p) (List.map user_id (users db)).

(** The [except] branch: record the failure on the job of this
    operation.  The exception is one of the crawl; after one of the engine
    the [UPDATE] would raise in its turn, in the aborted transaction. *)
Definition fail_job (job : nat) (msg : string) (conn : Conn) : Conn :=
  commit (execute (update_job job (set_failed msg)) conn).

(** [get_followers] and [get_following], which are the same text up to
    [Direction]. *)
Definition get_follow_list (d : Direction) (r : Response) (name : string)
    (max_count : option nat) (s : t) (conn : Conn)
  : t * Conn * PyResult unit :=
  match _initialize_instaloader r s with
  | (s1, Raised e) => (s1, conn, Raised e)
  | (s1, Returned _) =>
      let job := scrape_jobs_seq (working conn) in
      let conn1 :=
        commit
          (execute
             (insert_job name (direction_name d) "in_progress"
                         (Some (clock_start r)))
             conn) in
      match from_username r with
      | Raised e => (s1, fail_job job e conn1, Raised e)
      | Returned profile =>
          let '(conn2, count, broke) :=
            follow_loop d (clock_start r) (userid profile) job max_count
                        (listing r) 0 conn1 in
          match (if broke then None else listing_error r) with
          | Some e => (s1, fail_job job e conn2, Raised e)
          | None =>
              (s1,
               commit
                 (execute (update_job job (set_completed (clock_end r) count))
                          conn2),
               Returned tt)
          end
      end
  end.

Definition get_followers := get_follow_list Followers.
Definition get_following := get_follow_list Following.

(** The rows of [SELECT f1.user_id, f1.follower_id FROM followers f1
    JOIN following f2 ON f1.user_id = f2.user_id AND f1.follower_id =
    f2.following_id WHERE f1.user_id = uid]. *)
Definition mutual_candidates (uid : string) (db : DB) : list Edge :=
  List.flat_map
    (fun f1 =>
       List.map (fun _ => f1)
                (List.filter (fun f2 => Edge_eqb f1 f2) (Db.following db)))
    (List.filter (fun f1 => String.eqb (fst f1) uid) (Db.followers db)).

(** [INSERT INTO mutuals ... ON CONFLICT (user_id, mutual_id) DO NOTHING]
    over the selected rows; the number is [cursor.rowcount]. *)
Fixpoint insert_mutuals (rows : list Edge) (t : list Edge)
  : list Edge * nat :=
  match rows with
  | [] => (t, 0)
  | e :: rows' =>
      if List.existsb (Edge_eqb e) t then insert_mutuals rows' t
      else let '(t', n) := insert_mutuals rows' (t ++ [e]) in (t', S n)
  end.

(** What [calculate_mutual_followers] writes to the log. *)
Inductive MutualLog : Type :=
| UserNotFound (name : string)
| Calculated (mutual_count : nat) (name : string).

(** [calculate_mutual_followers].  The third component is the value the
    Python function returns: it has no [return] with a value, so the
    caller receives [None]. *)
Definition calculate_mutual_followers (name : string) (conn : Conn)
  : Conn * MutualLog * option nat :=
  match List.find (fun u => String.eqb (Db.username u) name)
                  (users (working conn)) with
  | None => (conn, UserNotFound name, None)
  | Some u =>
      let db := working conn in
      let '(t', mutual_count) :=
        insert_mutuals (mutual_candidates (user_id u) db) (mutuals db) in
      (commit (execute (with_mutuals (fun _ => t')) conn),
       Calculated mutual_count name, None)
  end.

End InstagramScraper.

(** ** job_scheduler.py *)

Module JobScheduler.
Import Datetime Db Instaloader.

(** The scheduler and its scraper share one connection, held here. *)
Record t : Type := {
  db_conn : Conn;
  scraper : InstagramScraper.t;
  daily_quota : nat;
  current_day_processed : nat;
  last_day : Z
}.

(** [JobScheduler()] at clock value [now] *)
Definition init (now : datetime) (conn : Conn) : t :=
  {| db_conn := conn;
     scraper := InstagramScraper.init;
     daily_quota := 200;
     current_day_processed := 0;
     last_day := day now |}.

Definition with_conn (conn : Conn) (s : t) : t :=
  {| db_conn := conn; scraper := scraper s;
     daily_quota := daily_quota s;
     current_day_processed := current_day_processed s;
     last_day := last_day s |}.

(** [_reset_daily_counter]; [datetime.now().day] is the day of the
    month. *)
Definition _reset_daily_counter (now : datetime) (s : t) : t :=
  let current_day := day now in
  if negb (current_day =? last_day s)%Z then
    {| db_conn := db_conn s; scraper := scraper s;
       daily_quota := daily_quota s;
       current_day_processed := 0;
       last_day := current_day |}
  else s.

Definition is_crawl_type (type : string) : bool :=
  String.eqb type "profile" || String.eqb type "followers"
  || String.eqb type "following".

(** The rows of the first [SELECT] of [schedule_user_scraping].  A
    comparison with a NULL [started_at] is not true, so such a row is not
    selected. *)
Definition recent_jobs (now : datetime) (name : string) (db : DB)
  : list ScrapeJob :=
  List.filter
    (fun j =>
       String.eqb (target_username j) name
       && is_crawl_type (job_type j)
       && match started_at j with
          | Some started => later_than_minus started now (timedelta_days 7)
          | None => false
          end)
    (scrape_jobs db).

(** [schedule_user_scraping] *)
Definition schedule_user_scraping (now : datetime) (name : string) (s : t)
  : t :=
  match recent_jobs now name (working (db_conn s)) with
  | [] =>
      let c1 := execute (insert_job name "profile" "pending" None) (db_conn s) in
      let c2 := execute (insert_job name "followers" "pending" None) c1 in
      let c3 := execute (insert_job name "following" "pending" None) c2 in
      with_conn (commit c3) s
  | _ :: _ => s
  end.

(** A row of the batch: [(job_id, target_username, job_type)]. *)
Definition Job : Type := (nat * string * string)%type.

(** [SELECT job_id, target_username, job_type FROM scrape_jobs WHERE
    status = 'pending' ORDER BY job_id LIMIT batch_size] *)
Definition select_pending (batch_size : nat) (db : DB) : list Job :=
  List.map
    (fun j => (job_id j, target_username j, job_type j))
    (List.firstn batch_size
       (order_by_job_id
          (List.filter (fun j => String.eqb (status j) "pending")
                       (scrape_jobs db)))).

(** [SELECT COUNT( * ) FROM scrape_jobs WHERE target_username = name AND
    job_type IN ('followers', 'following') AND status = 'completed'] *)
Definition completed_count (name : string) (db : DB) : nat :=
  length
    (List.filter
       (fun j =>
          String.eqb (target_username j) name
          && (String.eqb (job_type j) "followers"
              || String.eqb (job_type j) "following")
          && String.eqb (status j) "completed")
       (scrape_jobs db)).

(** The crawler operation that matches the job type. *)
Definition crawl (r : Response) (job : Job) (s : t)
  : InstagramScraper.t * Conn * PyResult unit :=
  let '(_, name, type) := job in
  if String.eqb type "profile" then
    match InstagramScraper.get_user_profile r name (scraper s) (db_conn s) with
    | (sc, conn, Returned _) => (sc, conn, Returned tt)
    | (sc, conn, Raised e) => (sc, conn, Raised e)
    end
  else if String.eqb type "followers" then
    InstagramScraper.get_followers r name None (scraper s) (db_conn s)
  else if String.eqb type "following" then
    InstagramScraper.get_following r name None (scraper s) (db_conn s)
  else (scraper s, db_conn s, Returned tt).

(** The body of the inner [try] for one job. *)
Definition run_job (r : Response) (job : Job) (s : t) : t * PyResult unit :=
  let '(_, name, type) := job in
  match crawl r job s with
  | (sc, conn, Raised e) =>
      ({| db_conn := conn; scraper := sc;
          daily_quota := daily_quota s;
          current_day_processed := current_day_processed s;
          last_day := last_day s |},
       Raised e)
  | (sc, conn, Returned _) =>
      let conn' :=
        if String.eqb type "followers" || String.eqb type "following" then
          if completed_count name (working conn) =? 2
          then fst (fst (InstagramScraper.calculate_mutual_followers name conn))
          else conn
        else conn in
      ({| db_conn := conn'; scraper := sc;
          daily_quota := daily_quota s;
          current_day_processed := current_day_processed s + 1;
          last_day := last_day s |},
       Returned tt)
  end.

(** One job with the inner [except] branch.  Its [UPDATE] is accepted,
    as the transaction is one that the engine has not aborted (see
    [crawls_accepted] below); otherwise it raises, and the outer [except]
    ends the loop. *)
Definition process_job (r : Response) (job : Job) (s : t)
  : t * PyResult unit :=
  match run_job r job s with
  | (s', Returned _) => (s', Returned tt)
  | (s', Raised e) =>
      (with_conn
         (commit (execute (update_job (fst (fst job)) (set_failed e))
                          (db_conn s')))
         s',
       Raised e)
  end.

(** The [for] loop over the batch.  [world] gives what the crawler
    receives while it works on the job with a given id.  The second
    component records, for each job in order, whether its [try] body
    completed or raised. *)
Fixpoint process_jobs (world : nat -> Response) (jobs : list Job) (s : t)
  : t * list (Job * PyResult unit) :=
  match jobs with
  | [] => (s, [])
  | job :: rest =>
      let '(s1, res) := process_job (world (fst (fst job))) job s in
      let '(s2, trace) := process_jobs world rest s1 in
      (s2, (job, res) :: trace)
  end.

(** The batch that [process_pending_jobs] fetches in state [s] (after
    the counter was brought up to date). *)
Definition batch (s : t) : list Job :=
  let remaining_quota := daily_quota s - current_day_processed s in
  let batch_size := Nat.min remaining_quota 10 in
  select_pending batch_size (working (db_conn s)).

(** [process_pending_jobs] with the record of what happened to each
    job. *)
Definition process_pending_jobs_trace (now : datetime)
    (world : nat -> Response) (s : t) : t * list (Job * PyResult unit) :=
  let s1 := _reset_daily_counter now s in
  if daily_quota s1 <=? current_day_processed s1 then (s1, [])
  else process_jobs world (batch s1) s1.

(** [process_pending_jobs] *)
Definition process_pending_jobs (now : datetime) (world : nat -> Response)
    (s : t) : t :=
  fst (process_pending_jobs_trace now world s).

(** The next value of the job sequence, as the scheduler sees it. *)
Definition seq_of (s : t) : nat := scrape_jobs_seq (working (db_conn s)).

(** Nothing of the open transaction is left to commit. *)
Definition synced (c : Conn) : Prop := committed c = working c.

(** The [job_id] of a row of the batch. *)
Definition id_of (job : Job) : nat := fst (fst job).

(** The number of jobs of a batch whose [try] body completed. *)
Definition count_returned (trace : list (Job * PyResult unit)) : nat :=
  length
    (List.filter
       (fun x => match snd x with Returned _ => true | Raised _ => false end)
       trace).

(** The keys of [l] go up strictly. *)
Fixpoint increasing (l : list nat) : Prop :=
  match l with
  | [] => True
  | a :: l' => (forall b, In b l' -> a < b) /\ increasing l'
  end.

(** Some job with the key [x] raised in the batch recorded by [trace]. *)
Definition raised_in (trace : list (Job * PyResult unit)) (x : nat) : bool :=
  List.existsb
    (fun t => match snd t with
              | Raised _ => id_of (fst t) =? x
              | Returned _ => false
              end)
    trace.

(** The engine accepts the statements of the crawl of [job] in state
    [s]: a listing job finds the row of its account. *)
Definition crawl_accepted (r : Response) (job : Job) (s : t) : Prop :=
  String.eqb (snd job) "followers" || String.eqb (snd job) "following"
  = true ->
  InstagramScraper.target_stored r (working (db_conn s)).

(** The same of every job of a batch, each in the state in which its
    crawl starts. *)
Fixpoint crawls_accepted (world : nat -> Response) (jobs : list Job) (s : t)
  : Prop :=
  match jobs with
  | [] => True
  | job :: rest =>
      crawl_accepted (world (fst (fst job))) job s /\
      crawls_accepted world rest
        (fst (process_job (world (fst (fst job))) job s))
  end.

(** What is done with a scheduler: a target is enrolled, or the timer
    fires. *)
Inductive op : Type :=
| Enroll (now : datetime) (name : string)
| Tick (now : datetime) (world : nat -> Response).

Definition step (o : op) (s : t) : t :=
  match o with
  | Enroll now name => schedule_user_scraping now name s
  | Tick now world => process_pending_jobs now world s
  end.

Definition run (ops : list op) (s : t) : t :=
  List.fold_left (fun s o => step o s) ops s.

(** The engine accepts the statements of the crawls of every tick of a
    run. *)
Fixpoint run_accepted (ops : list op) (s : t) : Prop :=
  match ops with
  | [] => True
  | o :: rest =>
      match o with
      | Enroll _ _ => True
      | Tick now world =>
          crawls_accepted world (batch (_reset_daily_counter now s))
                          (_reset_daily_counter now s)
      end /\
      run_accepted rest (step o s)
  end.

End JobScheduler.

(** ** interest_analyzer.py *)

Module InterestAnalyzer.
Import Datetime Db.

(** A value of the classifier's answer, as far as the program tells
    values apart: an array or an object cannot be hashed, a text may be a
    key of a dict of texts, the other values are hashable and never such a
    key. *)
Inductive Json : Type :=
| JNull
| JBool (b : bool)
| JNumber (q : Q)
| JString (s : string)
| JArray
| JObject.

(** What the key "confidence" of a result is to the [INSERT]: the key is
    absent; the value is [null]; it is a number, or a text that the engine
    reads as a number, stored as [x]; or it is a value that the statement
    raises on, either in the driver, which cannot adapt an object, or in
    the engine, which takes no boolean, no array and no other text for a
    FLOAT column. *)
Inductive Confidence : Type :=
| ConfidenceAbsent
| ConfidenceNull
| ConfidenceNumber (x : Float)
| ConfidenceRefused (by_engine : bool).

(** An object among ["results"]; for the first two keys, a key that is
    absent is [None], as [dict.get] has it. *)
Record Result : Type := {
  username : option Json;
  category : option Json;
  confidence : Confidence
}.

(** An element of ["results"]: an object, or a value with no [get] (a
    text, a number, [null], an array). *)
Inductive Item : Type :=
| Object (r : Result)
| NotObject.

(** [get_category_mapping]: a dict from category name to id. *)
Definition get_category_mapping (conn : Conn) : gmap string nat :=
  List.fold_left (fun (m : gmap string nat) row => <[snd row := fst row]> m)
                 (interest_categories (working conn)) ∅.

(** [INSERT INTO interests ... ON CONFLICT (user_id, category_id) DO
    UPDATE SET confidence_score = EXCLUDED.confidence_score, created_at =
    CURRENT_TIMESTAMP] *)
Definition upsert_interest (now : datetime) (user_id : string)
    (category_id : nat) (score : option Float) (db : DB) : DB :=
  with_interests
    (fun t => <[(user_id, category_id) :=
                 {| confidence_score := score; created_at := now |}]> t)
    db.

(** The third parameter of the [INSERT], from
    [result.get("confidence", 0.5)], when the statement accepts it: the
    default for an absent key, and NULL for [null]. *)
Definition score (c : Confidence) : option (option Float) :=
  match c with
  | ConfidenceAbsent => Some (Some (Finite (1 # 2)))
  | ConfidenceNull => Some None
  | ConfidenceNumber x => Some (Some x)
  | ConfidenceRefused _ => None
  end.

(** The engine, and not the driver, raises on the value. *)
Definition engine_refuses (c : Confidence) : bool :=
  match c with
  | ConfidenceRefused by_engine => by_engine
  | _ => false
  end.

(** [hash] accepts the value; [None] is hashable. *)
Definition hashable (v : option Json) : bool :=
  match v with
  | Some JArray | Some JObject => false
  | _ => true
  end.

(** The category id of a result, when its category is a key of the
    mapping. *)
Definition known_category (category_mapping : gmap string nat) (r : Result)
  : option nat :=
  match category r with
  | Some (JString c) => category_mapping !! c
  | _ => None
  end.

(** [category in category_mapping], for a category that can be hashed *)
Definition is_known (category_mapping : gmap string nat) (r : Result) : bool :=
  match known_category category_mapping r with
  | Some _ => true
  | None => false
  end.

(** What one pass of a loop comes to: the loop goes on, or an exception
    leaves it; [by_engine] tells that the engine raised it, which aborts
    the transaction. *)
Inductive Pass : Type :=
| Continues (conn : Conn)
| Raises (msg : string) (by_engine : bool).

(** One pass of the loop of [_store_interest_results]: [get] raises on
    an element that is no object, the membership test on a category that
    cannot be hashed, and the [INSERT] on a confidence that it does not
    accept.  Only the class of an exception is kept; the program logs its
    message and reads it nowhere. *)
Definition store_result (now : datetime) (user_id : string)
    (category_mapping : gmap string nat) (conn : Conn) (item : Item)
  : Pass :=
  match item with
  | NotObject => Raises "AttributeError" false
  | Object r =>
      if hashable (category r) then
        match known_category category_mapping r with
        | None => Continues conn
        | Some category_id =>
            match score (confidence r) with
            | Some v =>
                Continues
                  (execute (upsert_interest now user_id category_id v) conn)
            | None => Raises "psycopg2.Error" (engine_refuses (confidence r))
            end
        end
      else Raises "TypeError" false
  end.

(** The connection of the analyzer between two calls.  Nothing in the
    program rolls back, so that in a transaction that the engine has
    aborted every later statement raises. *)
Record Session : Type := {
  connection : Conn;
  aborted : bool
}.

Definition usable (conn : Conn) : Session :=
  {| connection := conn; aborted := false |}.

(** The loop of [_store_interest_results]; an exception leaves it with
    the statements made so far in the open transaction. *)
Fixpoint store_results (now : datetime) (user_id : string)
    (category_mapping : gmap string nat) (results : list Item) (conn : Conn)
  : Session * PyResult unit :=
  match results with
  | [] => (usable conn, Returned tt)
  | item :: rest =>
      match store_result now user_id category_mapping conn item with
      | Continues conn' =>
          store_results now user_id category_mapping rest conn'
      | Raises e by_engine =>
          ({| connection := conn; aborted := by_engine |}, Raised e)
      end
  end.

(** [_store_interest_results]: the commit comes after the loop, so an
    exception in the loop leaves the function before it. *)
Definition _store_interest_results (now : datetime) (user_id : string)
    (results : list Item) (category_mapping : gmap string nat)
    (conn : Conn) : Session * PyResult unit :=
  match store_results now user_id category_mapping results conn with
  | (s, Returned _) => (usable (commit (connection s)), Returned tt)
  | (s, Raised e) => (s, Raised e)
  end.

(** An element that the loop passes without an exception. *)
Definition passes (category_mapping : gmap string nat) (item : Item) : bool :=
  match item with
  | NotObject => false
  | Object r =>
      hashable (category r)
      && match known_category category_mapping r, score (confidence r) with
         | Some _, None => false
         | _, _ => true
         end
  end.

(** An element that the loop stores. *)
Definition stores (category_mapping : gmap string nat) (item : Item) : bool :=
  match item with
  | NotObject => false
  | Object r => is_known category_mapping r
  end.

(** ** The subjects of a classification *)

(** One element of the list that [get_following_data_for_user] returns:
    the dict with the keys "username", "full_name" and "bio". *)
Record Subject : Type := {
  subject_username : string;
  subject_full_name : option string;
  subject_bio : string
}.

(** [row[2] if row[2] else <empty string>] *)
Definition bio_or_empty (b : option string) : string :=
  match b with Some s => s | None => EmptyString end.

(** [get_following_data_for_user]: the join of the following edges of the
    account with the rows of the accounts it follows.  The statement has
    no [ORDER BY]; the rows are taken here in the order of [following]. *)
Definition get_following_data_for_user (user_id : string) (conn : Conn)
  : list Subject :=
  List.flat_map
    (fun f =>
       List.map
         (fun u => {| subject_username := Db.username u;
                      subject_full_name := full_name u;
                      subject_bio := bio_or_empty (bio u) |})
         (List.filter (fun u => String.eqb (Db.user_id u) (snd f))
                      (users (working conn))))
    (List.filter (fun f => String.eqb (fst f) user_id)
                 (following (working conn))).

(** The keys of a Python dict built from [l], in the order of their first
    insertion. *)
Fixpoint first_occurrences (l : list string) : list string :=
  match l with
  | [] => []
  | x :: l' =>
      x :: List.filter (fun y => negb (String.eqb y x)) (first_occurrences l')
  end.

(** [list(category_mapping.keys())] *)
Definition categories_list (conn : Conn) : list string :=
  first_occurrences (List.map snd (interest_categories (working conn))).

(** [self.batch_size] *)
Definition batch_size : nat := 20.

(** [range(0, stop, step)] for a positive [step]. *)
Definition range_step (stop step : nat) : list nat :=
  List.map (fun k => k * step) (List.seq 0 ((stop + step - 1) / step)).

(** [[l[i:i + batch_size] for i in range(0, len(l), batch_size)]] *)
Definition batches {A : Type} (l : list A) : list (list A) :=
  List.map (fun i => List.firstn batch_size (List.skipn i l))
           (range_step (length l) batch_size).

(** ** The prompt *)

Definition nl : string := String (Ascii.ascii_of_nat 10) EmptyString.
Definition dq : string := String (Ascii.ascii_of_nat 34) EmptyString.

(** The prompt up to the list of categories. *)
Definition prompt_intro : string :=
  String.concat EmptyString
    [ nl;
      "        I need you to analyze the following Instagram accounts and determine which interest categories they fall into.";
      nl;
      "        ";
      nl;
      "        The available categories are: " ].

(** The prompt from the list of categories to the accounts. *)
Definition prompt_task : string :=
  String.concat EmptyString
    [ nl;
      "        ";
      nl;
      "        For each account, return:";
      nl;
      "        1. The account username";
      nl;
      "        2. The most likely interest category (must be one from the list provided)";
      nl;
      "        3. A confidence score (0.0-1.0) of how confident you are in this categorization";
      nl;
      "        ";
      nl;
      "        Here are the accounts to analyze:";
      nl;
      "        " ].

(** The end of the prompt. *)
Definition prompt_format : string :=
  String.concat EmptyString
    [ nl;
      "        Return your analysis in a valid JSON format as follows:";
      nl;
      "        {";
      nl;
      "          ";
      dq;
      "results";
      dq;
      ": [";
      nl;
      "            {";
      nl;
      "              ";
      dq;
      "username";
      dq;
      ": ";
      dq;
      "username1";
      dq;
      ",";
      nl;
      "              ";
      dq;
      "category";
      dq;
      ": ";
      dq;
      "Category";
      dq;
      ",";
      nl;
      "              ";
      dq;
      "confidence";
      dq;
      ": 0.9";
      nl;
      "            },";
      nl;
      "            ...";
      nl;
      "          ]";
      nl;
      "        }";
      nl;
      "        ";
      nl;
      "        Remember, use ONLY the categories provided in the list.";
      nl;
      "        " ].

(** [str(x)] of a value that may be [None]. *)
Definition str_or_None (x : option string) : string :=
  match x with Some s => s | None => "None" end.

(** What the loop of [_create_batch_prompt] appends for one account. *)
Definition prompt_account (account : Subject) : string :=
  String.concat EmptyString
    [ nl; "---"; nl; "Username: "; subject_username account; nl;
      "Name: "; str_or_None (subject_full_name account); nl;
      "Bio: "; subject_bio account; nl ].

(** [_create_batch_prompt] *)
Definition _create_batch_prompt (batch : list Subject)
    (categories : list string) : string :=
  let categories_str := String.concat ", " categories in
  let prompt := (prompt_intro ++ categories_str ++ prompt_task)%string in
  let prompt :=
    List.fold_left (fun p account => (p ++ prompt_account account)%string)
                   batch prompt in
  (prompt ++ prompt_format)%string.

(** [s in t] on strings, as the test of the prompt has it. *)
Fixpoint occurs (s t : string) : bool :=
  if String.prefix s t then true
  else match t with
       | EmptyString => false
       | String _ t' => occurs s t'
       end.

(** ** The analysis of one account *)

(** What a request to the model comes to: the call, the parsing of its
    answer or the reading of its results raises, or the answer is parsed,
    with or without the key "results"; [extend] takes the elements of a
    list, the keys of an object and the characters of a text, and raises
    on any other value. *)
Inductive Completion : Type :=
| CompletionRaises (msg : string)
| Completed (results : option (list Item)).

(** One pass of the loop over the batches: [batch_results] after the
    batch number [batch_idx]. *)
Definition analyze_batch (model : nat -> string -> Completion)
    (categories : list string) (batch_results : list Item)
    (indexed : nat * list Subject) : list Item :=
  let '(batch_idx, batch) := indexed in
  let prompt := _create_batch_prompt batch categories in
  match model batch_idx prompt with
  | Completed (Some results) => (batch_results ++ results)%list
  | Completed None => batch_results
  | CompletionRaises _ => batch_results
  end.

(** [enumerate(batches)] *)
Definition enumerate {A : Type} (l : list A) : list (nat * A) :=
  List.combine (List.seq 0 (length l)) l.

(** [analyze_user_interests].  [model] answers the request for the batch
    with a given index and prompt.  [username] is no key of [users]; of
    several rows with the handle, [fetchone] gets the first here.  The
    outer [except] catches and logs an exception of
    [_store_interest_results], and that of the first [SELECT] in an
    aborted transaction. *)
Definition analyze_user_interests (now : datetime)
    (model : nat -> string -> Completion) (name : string) (s : Session)
  : Session :=
  if aborted s then s
  else
    let conn := connection s in
    match List.find (fun u => String.eqb (Db.username u) name)
                    (users (working conn)) with
    | None => s
    | Some u =>
        let user_id := Db.user_id u in
        match get_following_data_for_user user_id conn with
        | [] => s
        | following_data =>
            let category_mapping := get_category_mapping conn in
            let categories := categories_list conn in
            let batch_results :=
              List.fold_left (analyze_batch model categories)
                             (enumerate (batches following_data)) [] in
            match batch_results with
            | [] => s
            | _ :: _ =>
                fst (_store_interest_results now user_id batch_results
                                             category_mapping conn)
            end
        end
    end.

(** ** The accounts that wait for an analysis *)

(** Some row of [interests] belongs to the account. *)
Definition has_interest (user_id : string) (db : DB) : bool :=
  List.existsb (fun kv => String.eqb (fst (fst kv)) user_id)
               (map_to_list (interests db)).

(** The rows of the [SELECT] of [process_pending_users] without its
    [LIMIT]: the handle of an account, once for each completed following
    job on that handle, if no row of [interests] belongs to the account.
    The statement has no [ORDER BY]; the rows are taken here in the order
    of [users], then of [scrape_jobs]. *)
Definition pending_rows (db : DB) : list string :=
  List.flat_map
    (fun u =>
       List.flat_map
         (fun sj =>
            if String.eqb (Db.username u) (target_username sj)
               && String.eqb (job_type sj) "following"
               && String.eqb (status sj) "completed"
               && negb (has_interest (Db.user_id u) db)
            then [Db.username u] else [])
         (scrape_jobs db))
    (users db).

(** [LIMIT 5] *)
Definition pending_users (db : DB) : list string :=
  List.firstn 5 (pending_rows db).

(** One pass of the loop of [process_pending_users], on the selected
    account number [fst indexed].  [model] answers the requests made for
    the selected account with a given number. *)
Definition process_user (now : datetime)
    (model : nat -> nat -> string -> Completion) (s : Session)
    (indexed : nat * string) : Session :=
  analyze_user_interests now (model (fst indexed)) (snd indexed) s.

(** [process_pending_users]; its [except] catches and logs the exception
    of the [SELECT] in an aborted transaction. *)
Definition process_pending_users (now : datetime)
    (model : nat -> nat -> string -> Completion) (s : Session) : Session :=
  if aborted s then s
  else
    List.fold_left (process_user now model)
                   (enumerate (pending_users (working (connection s)))) s.

End InterestAnalyzer.

(** ** Concrete inputs used below *)

Section Fixtures.
Import Datetime Db Instaloader.

Definition date (y m d : Z) : datetime :=
  {| year := y; month := m; day := d; microsecond_of_day := 0 |}.

Definition empty_db : DB :=
  {| users := []; Db.followers := []; following := []; mutuals := [];
     interest_categories := []; interests := ∅;
     scrape_jobs := []; scrape_jobs_seq := 1 |}.

Definition empty_conn : Conn :=
  {| committed := empty_db; working := empty_db |}.

Definition account (id : string) : Profile :=
  {| userid := id; Instaloader.username := id;
     Instaloader.full_name := id; biography := "";
     Instaloader.profile_pic_url := ""; Instaloader.followers := 0;
     followees := 0; Instaloader.is_private := false |}.

(** A crawl on [when] that succeeds and lists the accounts [l]. *)
Definition answer (when : datetime) (target : string) (l : list string)
  : Response :=
  {| login_error := None;
     from_username := Returned (account target);
     listing := List.map account l;
     listing_error := None;
     clock_start := when;
     clock_end := when |}.

(** A crawl on [when] in which the profile lookup raises. *)
Definition refusal (when : datetime) (msg : string) : Response :=
  {| login_error := None;
     from_username := Raised msg;
     listing := [];
     listing_error := None;
     clock_start := when;
     clock_end := when |}.

(** The row of an account that was seen as an entry of a listing. *)
Definition listed_user (id : string) : UserRow :=
  InstagramScraper.minimal_row (date 2024 3 1) (account id).

(** A store in which "acct1" is followed by [followed_by] and follows
    [follows], every account involved having its row in [users]. *)
Definition graph_conn (followed_by follows : list string) : Conn :=
  let db :=
    {| users :=
         List.fold_left (fun t x => insert_user_do_nothing (listed_user x) t)
                        ("acct1" :: followed_by ++ follows)%list [];
       Db.followers := List.map (fun x => ("acct1", x)) followed_by;
       following := List.map (fun x => ("acct1", x)) follows;
       mutuals := [];
       interest_categories := []; interests := ∅;
       scrape_jobs := []; scrape_jobs_seq := 1 |} in
  {| committed := db; working := db |}.

(** A store with the account "12345" and a taxonomy of two categories. *)
Definition taxonomy_conn : Conn :=
  let db :=
    {| users := [listed_user "12345"];
       Db.followers := []; following := []; mutuals := [];
       interest_categories := [(1, "Fashion"); (2, "Food")];
       interests := ∅;
       scrape_jobs := []; scrape_jobs_seq := 1 |} in
  {| committed := db; working := db |}.

(** A store in which "acct1" follows "a" and "b", with a taxonomy of two
    categories and a completed following job on "acct1". *)
Definition analysis_conn : Conn :=
  let graph := working (graph_conn [] ["a"; "b"]) in
  let db :=
    {| users := users graph;
       Db.followers := []; following := following graph; mutuals := [];
       interest_categories := [(1, "Fashion"); (2, "Food")];
       interests := ∅;
       scrape_jobs :=
         [ {| job_id := 1; target_username := "acct1";
              job_type := "following"; status := "completed";
              started_at := Some (date 2024 3 1);
              completed_at := Some (date 2024 3 1);
              last_cursor := None; total_items := Some 2;
              processed_items := 2; error_message := None |} ];
       scrape_jobs_seq := 2 |} in
  {| committed := db; working := db |}.


(** The world in which the crawl for job 2 is refused and every other
    crawl of "acct1" succeeds and lists [l]. *)
Definition second_refused (when : datetime) (l : list string) (job : nat)
  : Response :=
  if job =? 2 then refusal when "login_required" else answer when "acct1" l.

End Fixtures.

(** * Properties *)

(** ** The proxy pool *)

Section ProxyPool.
Import ProxyManager.

Lemma swap_length {A : Type} (x : list A) (i j : nat) :
  length (swap x i j) = length x.
Proof.
  unfold swap.
  destruct (x !! i), (x !! j); try reflexivity.
  now rewrite !length_insert.
Qed.

Lemma shuffle_from_length {A : Type} (i : nat) :
  forall (draws : list nat) (x : list A),
    length (shuffle_from i draws x) = length x.
Proof.
  induction i as [|i IH]; intros draws x; simpl; [reflexivity|].
  rewrite IH. apply swap_length.
Qed.

Lemma shuffle_length {A : Type} (draws : list nat) (x : list A) :
  length (shuffle draws x) = length x.
Proof. apply shuffle_from_length. Qed.

Lemma remove_first_length (p : Proxy) (l : list Proxy) :
  List.existsb (Proxy_eqb p) l = true ->
  S (length (remove_first p l)) = length l.
Proof.
  induction l as [|q l IH]; simpl; [discriminate|].
  destruct (Proxy_eqb p q); simpl; [reflexivity|].
  intros H. now rewrite IH.
Qed.

Lemma load_proxies_inv (env : LoadEnv) (pm : t) :
  current_index pm < 3 -> pool_inv (_load_proxies env pm).
Proof.
  intros Hi. unfold pool_inv, _load_proxies.
  destruct (load_exception env); simpl; split; auto.
  left. now rewrite shuffle_length.
Qed.

Lemma init_inv (key : option string) (env : LoadEnv) : pool_inv (init key env).
Proof. apply load_proxies_inv. simpl. lia. Qed.

Lemma mark_proxy_failed_inv (env : LoadEnv) (p : Proxy) (pm : t) :
  pool_inv pm -> pool_inv (mark_proxy_failed env p pm).
Proof.
  intros [Hi Hl]. unfold mark_proxy_failed.
  destruct (List.existsb (Proxy_eqb p) (proxies pm)) eqn:Hin;
    [|split; assumption].
  cbn [proxies].
  destruct Hl as [Hl|Hl]; [|rewrite Hl in Hin; discriminate].
  pose proof (remove_first_length p (proxies pm) Hin) as Hr.
  replace (length (remove_first p (proxies pm)) <? 3) with true
    by (symmetry; apply Nat.ltb_lt; lia).
  apply load_proxies_inv. exact Hi.
Qed.

Lemma get_proxy_ok (pm : t) :
  pool_inv pm ->
  (proxies pm = [] /\ get_proxy pm = Returned (None, pm)) \/
  (exists p pm',
      get_proxy pm = Returned (Some p, pm') /\
      In p (proxies pm) /\
      proxies pm' = proxies pm /\
      pool_inv pm').
Proof.
  intros [Hi Hl]. unfold get_proxy.
  destruct Hl as [Hl|Hl].
  - right.
    destruct (proxies pm) as [|q l] eqn:Hp; [discriminate Hl|].
    destruct ((q :: l) !! current_index pm) as [p|] eqn:Hlk.
    + exists p. eexists. split; [reflexivity|].
      split; [|split; [reflexivity|]].
      * apply list_elem_of_In. eapply list_elem_of_lookup_2. exact Hlk.
      * split; cbn [current_index proxies].
        -- rewrite Hl. apply Nat.mod_upper_bound. lia.
        -- left. exact Hl.
    + apply lookup_ge_None in Hlk. lia.
  - left. rewrite Hl. split; reflexivity.
Qed.

Lemma run_ok (cs : list call) :
  forall pm, pool_inv pm ->
  exists outs pm', run cs pm = Returned (outs, pm') /\ pool_inv pm'.
Proof.
  induction cs as [|c cs IH]; intros pm Hinv; simpl.
  - eauto.
  - destruct c as [|p env].
    + destruct (get_proxy_ok pm Hinv)
        as [[_ Hg]|(p & pm1 & Hg & _ & _ & Hinv1)]; rewrite Hg.
      * destruct (IH pm Hinv) as (outs & pm' & Hr & Hinv').
        rewrite Hr. eauto.
      * destruct (IH pm1 Hinv1) as (outs & pm' & Hr & Hinv').
        rewrite Hr. eauto.
    + apply IH. now apply mark_proxy_failed_inv.
Qed.

(** C10.  Whatever calls of [get_proxy] and [mark_proxy_failed] have been
    made on a freshly constructed [ProxyManager], none of them raised, the
    rotation index is within the bounds of the pool unless the pool is
    empty, and the next [get_proxy] returns [None] on an empty pool and
    otherwise a proxy that is in the pool. *)
Theorem C10_get_proxy_never_fails :
  forall (key : option string) (env0 : LoadEnv) (cs : list call),
  exists outs pm,
    run cs (init key env0) = Returned (outs, pm) /\
    (proxies pm = [] \/ current_index pm < length (proxies pm)) /\
    ((proxies pm = [] /\ get_proxy pm = Returned (None, pm)) \/
     (exists p pm',
         get_proxy pm = Returned (Some p, pm') /\
         In p (proxies pm) /\
         proxies pm' = proxies pm)).
Proof.
  intros key env0 cs.
  destruct (run_ok cs (init key env0) (init_inv key env0))
    as (outs & pm & Hr & Hinv).
  exists outs, pm. split; [exact Hr|]. split.
  - destruct Hinv as [Hi [Hl|Hl]]; [right; lia|left; exact Hl].
  - destruct (get_proxy_ok pm Hinv) as [H|(p & pm' & Hg & Hin & Hp & _)].
    + left. exact H.
    + right. exists p, pm'. auto.
Qed.

End ProxyPool.

(** ** The daily counter *)

Section DailyCounter.
Import Datetime Db JobScheduler.

Lemma reset_daily_counter_spec (now : datetime) (s : t) :
  current_day_processed (_reset_daily_counter now s) =
    (if (day now =? last_day s)%Z then current_day_processed s else 0) /\
  last_day (_reset_daily_counter now s) = day now /\
  daily_quota (_reset_daily_counter now s) = daily_quota s /\
  db_conn (_reset_daily_counter now s) = db_conn s /\
  scraper (_reset_daily_counter now s) = scraper s.
Proof.
  unfold _reset_daily_counter.
  destruct (day now =? last_day s)%Z eqn:E; simpl; repeat split; try reflexivity.
  apply Z.eqb_eq in E. now symmetry.
Qed.

(** C6.  A scheduler created on 2024-01-15 enrols a target and processes
    its three jobs that day.  One month later, on 2024-02-15, the date
    differs from the recorded one, yet [_reset_daily_counter] leaves the
    counter at 3: it compares days of the month. *)
Theorem C6_counter_not_reset_on_same_day_of_month :
  let jan15 := date 2024 1 15 in
  let feb15 := date 2024 2 15 in
  let s :=
    run [Enroll jan15 "acct1"; Tick jan15 (fun _ => answer jan15 "acct1" [])]
        (init jan15 empty_conn) in
  same_date jan15 feb15 = false /\
  current_day_processed s = 3 /\
  current_day_processed (_reset_daily_counter feb15 s) = 3.
Proof. vm_compute. repeat split; reflexivity. Qed.

End DailyCounter.

(** ** Enrolment *)

Section Enrolment.
Import Datetime Db JobScheduler.

Lemma recent_jobs_app (now : datetime) (name : string) (db : DB)
    (target type : string) :
  recent_jobs now name (insert_job target type "pending" None db) =
  recent_jobs now name db.
Proof.
  unfold recent_jobs, insert_job. cbn [scrape_jobs].
  rewrite List.filter_app. cbn [List.filter started_at].
  rewrite !andb_false_r. apply app_nil_r.
Qed.

(** The jobs that enrolment creates have no start time, so a later
    enrolment does not see them. *)
Lemma enrolment_invisible (now now' : datetime) (name : string) (s : t) :
  recent_jobs now name (working (db_conn s)) = [] ->
  recent_jobs now' name (working (db_conn (schedule_user_scraping now name s)))
  = recent_jobs now' name (working (db_conn s)).
Proof.
  intros H. unfold schedule_user_scraping. rewrite H.
  cbn [with_conn db_conn commit execute working].
  now rewrite !recent_jobs_app.
Qed.

(** Once a listing of the target has been started, enrolling the target
    again adds nothing for seven days, and adds three jobs from then on. *)
Example enrolment_skipped_within_window :
  let t0 := date 2024 3 1 in
  let s :=
    run [Enroll t0 "acct1"; Tick t0 (fun _ => answer t0 "acct1" ["a"])]
        (init t0 empty_conn) in
  let jobs_after when :=
    length (scrape_jobs (working (db_conn
                                    (schedule_user_scraping when "acct1" s)))) in
  length (scrape_jobs (working (db_conn s))) = 5 /\
  jobs_after (date 2024 3 7) = 5 /\
  jobs_after (date 2024 3 8) = 8 /\
  jobs_after (date 2024 3 9) = 8.
Proof. vm_compute. repeat split; reflexivity. Qed.

(** C4.  Enrolling "acct1" in an empty store creates the three pending
    jobs, one per type; enrolling it again one hour later creates three
    more, because the look-back compares [started_at], which is NULL on
    pending jobs. *)
Theorem C4_reenrolment_duplicates_pending_jobs :
  let t0 := date 2024 3 1 in
  let t1 := {| year := 2024; month := 3; day := 1;
               microsecond_of_day := 3600000000 |} in
  let s1 := schedule_user_scraping t0 "acct1" (init t0 empty_conn) in
  let s2 := schedule_user_scraping t1 "acct1" s1 in
  List.map (fun j => (job_id j, target_username j, job_type j, status j,
                      started_at j))
           (scrape_jobs (committed (db_conn s1)))
  = [ (1, "acct1", "profile", "pending", None);
      (2, "acct1", "followers", "pending", None);
      (3, "acct1", "following", "pending", None) ] /\
  List.map (fun j => (job_id j, target_username j, job_type j, status j))
           (scrape_jobs (committed (db_conn s2)))
  = [ (1, "acct1", "profile", "pending");
      (2, "acct1", "followers", "pending");
      (3, "acct1", "following", "pending");
      (4, "acct1", "profile", "pending");
      (5, "acct1", "followers", "pending");
      (6, "acct1", "following", "pending") ].
Proof. vm_compute. split; reflexivity. Qed.

End Enrolment.

(** ** Storing classification results *)

Section Classification.
Import Datetime Db InterestAnalyzer.

Variables (now : datetime) (user_id : string)
          (category_mapping : gmap string nat).

Lemma store_result_continues (conn conn' : Conn) (item : Item) :
  store_result now user_id category_mapping conn item = Continues conn' ->
  exists r,
    item = Object r /\ hashable (category r) = true /\
    match known_category category_mapping r with
    | None => conn' = conn
    | Some cid =>
        exists v,
          score (confidence r) = Some v /\
          conn' = execute (upsert_interest now user_id cid v) conn
    end.
Proof.
  destruct item as [r|]; [|discriminate]. cbn [store_result].
  destruct (hashable (category r)) eqn:Eh; [|discriminate].
  intros H. exists r. split; [reflexivity|]. split; [exact Eh|].
  destruct (known_category category_mapping r) as [cid|].
  - destruct (score (confidence r)) as [v|]; [|discriminate].
    injection H as <-. now exists v.
  - now injection H as <-.
Qed.

Lemma store_result_passes (conn : Conn) (item : Item) :
  passes category_mapping item = true
  <-> exists conn',
        store_result now user_id category_mapping conn item = Continues conn'.
Proof.
  destruct item as [r|]; cbn [store_result passes].
  - destruct (hashable (category r)); cbn [andb].
    + destruct (known_category category_mapping r) as [cid|].
      * destruct (score (confidence r)) as [v|].
        -- split; [eauto | reflexivity].
        -- split; [discriminate | intros [c H]; discriminate].
      * split; [eauto | reflexivity].
    + split; [discriminate | intros [c H]; discriminate].
  - split; [discriminate | intros [c H]; discriminate].
Qed.

Lemma store_result_committed (conn conn' : Conn) (item : Item) :
  store_result now user_id category_mapping conn item = Continues conn' ->
  committed conn' = committed conn.
Proof.
  intros H. apply store_result_continues in H as (r & _ & _ & H).
  destruct (known_category category_mapping r);
    [destruct H as (v & _ & ->) | subst]; reflexivity.
Qed.

Lemma store_results_committed (results : list Item) :
  forall conn,
    committed
      (connection
         (fst (store_results now user_id category_mapping results conn)))
    = committed conn.
Proof.
  induction results as [|item l IH]; intros conn; [reflexivity|].
  cbn [store_results].
  destruct (store_result now user_id category_mapping conn item)
    as [conn'|e b] eqn:E; [|reflexivity].
  rewrite IH. exact (store_result_committed conn conn' item E).
Qed.

(** The loop returns exactly if every element passes. *)
Lemma store_results_returned (results : list Item) :
  forall conn,
    List.forallb (passes category_mapping) results = true ->
    exists conn',
      store_results now user_id category_mapping results conn
      = (usable conn', Returned tt).
Proof.
  induction results as [|item l IH]; intros conn; [now exists conn|].
  cbn [List.forallb store_results]. intros H.
  apply andb_prop in H as [Hitem Hl].
  apply (store_result_passes conn) in Hitem as [conn' ->]. now apply IH.
Qed.

Lemma store_results_raised (results : list Item) :
  forall conn,
    (exists s,
        store_results now user_id category_mapping results conn
        = (s, Returned tt)) \/
    exists item,
      In item results /\ passes category_mapping item = false.
Proof.
  induction results as [|item l IH]; intros conn; [left; now eexists|].
  cbn [store_results].
  destruct (store_result now user_id category_mapping conn item)
    as [conn'|e b] eqn:E.
  - destruct (IH conn') as [H|(item' & Hin & H)]; [now left|].
    right. exists item'. split; [now right | exact H].
  - right. exists item. split; [now left|].
    destruct (passes category_mapping item) eqn:Hp; [|reflexivity].
    apply (store_result_passes conn) in Hp as [c Hc]. congruence.
Qed.

Lemma store_results_untouched (results : list Item) (k : string * nat) :
  (forall r cid, In (Object r) results ->
                 known_category category_mapping r = Some cid ->
                 k <> (user_id, cid)) ->
  forall conn,
    interests
      (working
         (connection
            (fst (store_results now user_id category_mapping results conn))))
    !! k
    = interests (working conn) !! k.
Proof.
  induction results as [|item l IH]; intros Hk conn; [reflexivity|].
  cbn [store_results].
  destruct (store_result now user_id category_mapping conn item)
    as [conn'|e b] eqn:E; [|reflexivity].
  rewrite IH by (intros r cid Hin; apply Hk; now right).
  apply store_result_continues in E as (r & -> & _ & H).
  destruct (known_category category_mapping r) as [cid|] eqn:Ek.
  - destruct H as (v & _ & ->).
    cbn [execute working upsert_interest with_interests interests].
    apply lookup_insert_ne. intros Heq. symmetry in Heq. revert Heq.
    apply (Hk r cid); [now left | exact Ek].
  - now subst.
Qed.

Lemma store_results_app (l1 l2 : list Item) :
  forall conn,
    List.forallb (passes category_mapping) l1 = true ->
    store_results now user_id category_mapping (l1 ++ l2)%list conn
    = store_results now user_id category_mapping l2
        (connection
           (fst (store_results now user_id category_mapping l1 conn))).
Proof.
  induction l1 as [|item l IH]; intros conn; [reflexivity|].
  cbn [List.forallb List.app store_results]. intros H.
  apply andb_prop in H as [Hitem Hl].
  apply (store_result_passes conn) in Hitem as [conn' ->]. now apply IH.
Qed.

Lemma store_results_filter (results : list Item) :
  forall conn,
    List.forallb (passes category_mapping) results = true ->
    store_results now user_id category_mapping results conn
    = store_results now user_id category_mapping
        (List.filter (stores category_mapping) results) conn.
Proof.
  induction results as [|item l IH]; intros conn; [reflexivity|].
  cbn [List.forallb List.filter]. intros H.
  apply andb_prop in H as [Hitem Hl].
  apply (store_result_passes conn) in Hitem as [conn' E].
  pose proof (store_result_continues conn conn' item E) as (r & -> & _ & H).
  cbn [stores]. unfold is_known.
  destruct (known_category category_mapping r) as [cid|].
  - cbn [store_results]. rewrite E. now apply IH.
  - subst conn'. cbn [store_results]. rewrite E. now apply IH.
Qed.

(** The last result of a batch that names a category decides its row. *)
Lemma store_results_last (l1 l2 : list Item) (r : Result) (cid : nat)
    (conn : Conn) :
  List.forallb (passes category_mapping) (l1 ++ Object r :: l2)%list = true ->
  known_category category_mapping r = Some cid ->
  (forall r', In (Object r') l2 ->
              known_category category_mapping r' <> Some cid) ->
  exists v,
    score (confidence r) = Some v /\
    interests
      (working
         (connection
            (fst (store_results now user_id category_mapping
                                (l1 ++ Object r :: l2)%list conn))))
    !! (user_id, cid)
    = Some {| confidence_score := v; created_at := now |}.
Proof.
  intros Hpass Hr Hl2.
  rewrite List.forallb_app in Hpass. apply andb_prop in Hpass as [H1 H2].
  cbn [List.forallb] in H2. apply andb_prop in H2 as [Hitem _].
  rewrite (store_results_app l1 (Object r :: l2) conn H1).
  cbn [store_results].
  set (c1 := connection
               (fst (store_results now user_id category_mapping l1 conn))).
  apply (store_result_passes c1) in Hitem as [conn' E]. rewrite E.
  apply store_result_continues in E as (r0 & [= <-] & _ & H).
  rewrite Hr in H. destruct H as (v & Hv & ->). exists v.
  split; [exact Hv|].
  rewrite store_results_untouched.
  - cbn [execute working upsert_interest with_interests interests].
    apply lookup_insert_eq.
  - intros r' cid' Hin Hk Heq. injection Heq as <-. exact (Hl2 r' Hin Hk).
Qed.

(** X29.  When every element of a batch of results passes the loop,
    [_store_interest_results] returns and leaves the store as if the
    results whose category is not a key of the taxonomy had not been in
    the batch; it commits; for each category id, the last result of the
    batch that names it decides the stored score and timestamp; a pair
    that no valid result names is left as it was.  Membership is
    case-sensitive. *)
Theorem X29_unknown_categories_are_skipped
    (results : list Item) (conn : Conn) :
  List.forallb (passes category_mapping) results = true ->
  let out :=
    _store_interest_results now user_id results category_mapping conn in
  let conn' := connection (fst out) in
  snd out = Returned tt /\
  aborted (fst out) = false /\
  out = _store_interest_results now user_id
          (List.filter (stores category_mapping) results)
          category_mapping conn /\
  committed conn' = working conn' /\
  (forall (l1 : list Item) r (l2 : list Item) cid,
      results = (l1 ++ Object r :: l2)%list ->
      known_category category_mapping r = Some cid ->
      (forall r', In (Object r') l2 ->
                  known_category category_mapping r' <> Some cid) ->
      exists v,
        score (confidence r) = Some v /\
        interests (committed conn') !! (user_id, cid)
        = Some {| confidence_score := v; created_at := now |}) /\
  (forall k,
      (forall r cid, In (Object r) results ->
                     known_category category_mapping r = Some cid ->
                     k <> (user_id, cid)) ->
      interests (committed conn') !! k = interests (working conn) !! k) /\
  (forall u c,
      known_category {[ "Fashion" := 1 ]}
        {| username := u; category := Some (JString "fashion");
           confidence := c |}
      = None /\
      known_category {[ "Fashion" := 1 ]}
        {| username := u; category := Some (JString "Fashion");
           confidence := c |}
      = Some 1).
Proof.
  intros Hpass. cbv zeta. unfold _store_interest_results.
  rewrite <- (store_results_filter results conn Hpass).
  destruct (store_results_returned results conn Hpass) as [c Hc].
  pose proof (store_results_last) as Hlast.
  pose proof (store_results_untouched results) as Hkeep.
  rewrite Hc. cbn [fst snd usable connection aborted commit committed working].
  split; [reflexivity|]. split; [reflexivity|]. split; [reflexivity|].
  split; [reflexivity|]. split; [|split].
  - intros l1 r l2 cid -> Hr Hl2.
    destruct (Hlast l1 l2 r cid conn Hpass Hr Hl2) as (v & Hv & Hrow).
    exists v. split; [exact Hv|]. rewrite Hc in Hrow. exact Hrow.
  - intros k Hk. specialize (Hkeep k Hk conn). rewrite Hc in Hkeep.
    exact Hkeep.
  - intros u c'. split; reflexivity.
Qed.

End Classification.

(** ** Mutual followers *)

Section Mutuals.
Import Datetime Db InstagramScraper.

Lemma Edge_eqb_eq (a b : Edge) : Edge_eqb a b = true <-> a = b.
Proof.
  destruct a as [a1 a2], b as [b1 b2]. unfold Edge_eqb. cbn [fst snd].
  rewrite andb_true_iff, !String.eqb_eq.
  split; [intros [-> ->]; reflexivity | intros [= -> ->]; auto].
Qed.

Lemma existsb_Edge (e : Edge) (t : list Edge) :
  List.existsb (Edge_eqb e) t = true <-> In e t.
Proof.
  rewrite List.existsb_exists. split.
  - intros (x & Hin & Heq). apply Edge_eqb_eq in Heq. now subst.
  - intros Hin. exists e. split; [exact Hin | now apply Edge_eqb_eq].
Qed.

Lemma existsb_Edge_false (e : Edge) (t : list Edge) :
  List.existsb (Edge_eqb e) t = false <-> ~ In e t.
Proof.
  rewrite <- existsb_Edge. destruct (List.existsb (Edge_eqb e) t); split;
    congruence.
Qed.

Lemma mutual_candidates_In (uid : string) (db : DB) (e : Edge) :
  In e (mutual_candidates uid db) <->
  fst e = uid /\ In e (followers db) /\ In e (following db).
Proof.
  unfold mutual_candidates. rewrite List.in_flat_map. split.
  - intros (f1 & Hf1 & He).
    apply List.filter_In in Hf1 as [Hin Huid]. apply String.eqb_eq in Huid.
    apply List.in_map_iff in He as (f2 & <- & Hf2).
    apply List.filter_In in Hf2 as [Hin2 Heq]. apply Edge_eqb_eq in Heq.
    subst f2. auto.
  - intros (Huid & Hin & Hin2). exists e. split.
    + apply List.filter_In. split; [exact Hin | now apply String.eqb_eq].
    + apply List.in_map_iff. exists e. split; [reflexivity|].
      apply List.filter_In. split; [exact Hin2 | now apply Edge_eqb_eq].
Qed.

Lemma insert_mutuals_spec (rows : list Edge) :
  forall t, exists new,
    insert_mutuals rows t = ((t ++ new)%list, length new) /\
    List.NoDup new /\
    (forall e, In e new <-> In e rows /\ ~ In e t).
Proof.
  induction rows as [|e rows IH]; intros t; cbn [insert_mutuals].
  - exists []. rewrite app_nil_r.
    split; [reflexivity|]. split; [constructor|].
    intros e. cbn [In]. tauto.
  - destruct (List.existsb (Edge_eqb e) t) eqn:E.
    + apply existsb_Edge in E.
      destruct (IH t) as (new & Hq & Hnd & Hin). exists new.
      split; [exact Hq|]. split; [exact Hnd|].
      intros x. rewrite Hin. cbn [In]. split; [tauto|].
      intros [[<-|Hx] Hn]; [contradiction | auto].
    + apply existsb_Edge_false in E.
      destruct (IH (t ++ [e])%list) as (new & Hq & Hnd & Hin).
      exists (e :: new). rewrite Hq, <- app_assoc. cbn [app length].
      split; [reflexivity|]. split.
      * constructor; [|exact Hnd].
        rewrite Hin, List.in_app_iff. cbn [In]. tauto.
      * intros x. cbn [In]. rewrite Hin, List.in_app_iff. cbn [In].
        split.
        -- intros [<-|[Hx Hn]]; [tauto|]. split; [tauto|]. tauto.
        -- intros [[<-|Hx] Hn]; [tauto|].
           destruct (List.existsb (Edge_eqb e) [x]) eqn:Ex.
           ++ apply existsb_Edge in Ex as [->|[]]. tauto.
           ++ apply existsb_Edge_false in Ex. cbn [In] in Ex.
              right. split; [exact Hx|]. intros [H|[H|[]]]; [tauto|].
              apply Ex. left. now symmetry.
Qed.

Lemma insert_mutuals_present (rows : list Edge) (t : list Edge) :
  (forall e, In e rows -> In e t) -> insert_mutuals rows t = (t, 0).
Proof.
  induction rows as [|e rows IH]; intros H; cbn [insert_mutuals];
    [reflexivity|].
  replace (List.existsb (Edge_eqb e) t) with true
    by (symmetry; apply existsb_Edge; apply H; now left).
  apply IH. intros x Hx. apply H. now right.
Qed.

(** C2.  [calculate_mutual_followers] resolves the handle to the first
    account row that bears it and does nothing when there is none.
    Otherwise it appends to [mutuals], without repetition, exactly the
    edges of the account that are in both [followers] and [following] and
    not yet in [mutuals]; it commits; it logs their number and returns
    nothing; a second call appends nothing and logs 0; and when the
    account has no follower edge, or no following edge, nothing is
    appended. *)
Theorem C2_mutuals_are_the_new_intersection (name : string) (conn : Conn) :
  match List.find (fun u => String.eqb (Db.username u) name)
                  (users (working conn)) with
  | None =>
      calculate_mutual_followers name conn = (conn, UserNotFound name, None)
  | Some u =>
      exists new,
        let conn' :=
          commit (execute (with_mutuals (fun t => (t ++ new)%list)) conn) in
        calculate_mutual_followers name conn
        = (conn', Calculated (length new) name, None) /\
        List.NoDup new /\
        (forall e,
            In e new <->
            (fst e = user_id u /\ In e (followers (working conn)) /\
             In e (following (working conn))) /\
            ~ In e (mutuals (working conn))) /\
        calculate_mutual_followers name conn'
        = (conn', Calculated 0 name, None) /\
        ((forall e, In e (followers (working conn)) -> fst e <> user_id u) \/
         (forall e, In e (following (working conn)) -> fst e <> user_id u) ->
         new = [])
  end.
Proof.
  destruct (List.find _ (users (working conn))) as [u|] eqn:Hfind.
  - destruct (insert_mutuals_spec
                (mutual_candidates (user_id u) (working conn))
                (mutuals (working conn))) as (new & Hq & Hnd & Hin).
    exists new. cbv zeta.
    split; [|split; [exact Hnd|split; [|split]]].
    + unfold calculate_mutual_followers. rewrite Hfind, Hq. reflexivity.
    + intros e. rewrite Hin, mutual_candidates_In. reflexivity.
    + unfold calculate_mutual_followers.
      cbn [commit execute working with_mutuals users followers following
           mutuals].
      rewrite Hfind.
      set (db' := with_mutuals _ (working conn)).
      assert (Hc : mutual_candidates (user_id u) db'
                   = mutual_candidates (user_id u) (working conn))
        by reflexivity.
      rewrite Hc. change (mutuals db') with (mutuals (working conn) ++ new)%list.
      rewrite insert_mutuals_present.
      * subst db'. destruct conn as [c w]. now destruct w.
      * intros e He. apply List.in_app_iff.
        destruct (List.existsb (Edge_eqb e) (mutuals (working conn))) eqn:E.
        -- left. now apply existsb_Edge.
        -- right. apply Hin. split; [exact He|].
           now apply existsb_Edge_false.
    + intros Hempty. destruct new as [|e new']; [reflexivity|]. exfalso.
      assert (He : In e (e :: new')) by now left.
      apply Hin in He as [He _]. apply mutual_candidates_In in He.
      destruct He as (Hu & Hf1 & Hf2).
      destruct Hempty as [H|H]; [exact (H e Hf1 Hu) | exact (H e Hf2 Hu)].
  - unfold calculate_mutual_followers. now rewrite Hfind.
Qed.

End Mutuals.

(** ** Paginated fetch *)

(** Quotient and remainder by ten, for [lia]. *)
Ltac div_mod_10 x :=
  pose proof (Nat.div_mod_eq x 10);
  pose proof (Nat.mod_upper_bound x 10 ltac:(lia)).

Section Fetch.
Import Datetime Db Instaloader InstagramScraper.

Variables (d : Direction) (at_ : datetime) (user_id : string) (job : nat).

Lemma follow_item_count (f : Profile) (count : nat) (conn : Conn) :
  snd (follow_item d at_ user_id job f count conn) = count + 1.
Proof. reflexivity. Qed.

Lemma follow_items_count (items : list Profile) :
  forall count conn,
    snd (follow_items d at_ user_id job items count conn)
    = count + length items.
Proof.
  induction items as [|f rest IH]; intros count conn;
    cbn [follow_items length snd].
  - lia.
  - unfold follow_item. rewrite IH. lia.
Qed.

Lemma follow_items_app (l1 l2 : list Profile) :
  forall count conn,
    follow_items d at_ user_id job (l1 ++ l2)%list count conn
    = follow_items d at_ user_id job l2
        (snd (follow_items d at_ user_id job l1 count conn))
        (fst (follow_items d at_ user_id job l1 count conn)).
Proof.
  induction l1 as [|f l1 IH]; intros count conn; [reflexivity|].
  cbn [app follow_items]. unfold follow_item. apply IH.
Qed.

(** Without a bound, or with the bound 0, the loop is never left. *)
Lemma follow_loop_unbounded (max_count : option nat) (items : list Profile) :
  max_count = None \/ max_count = Some 0 ->
  forall count conn,
    follow_loop d at_ user_id job max_count items count conn
    = (follow_items d at_ user_id job items count conn, false).
Proof.
  intros Hm. induction items as [|f rest IH]; intros count conn;
    [reflexivity|].
  cbn [follow_loop follow_items]. unfold follow_item.
  replace (limit_reached max_count (count + 1)) with false
    by (destruct Hm as [-> | ->]; reflexivity).
  apply IH.
Qed.

(** With a bound [N >= 1] not yet reached, the loop handles the next
    [N - count] items, or all of them if there are fewer. *)
Lemma follow_loop_bounded (N : nat) (items : list Profile) :
  forall count conn,
    count < N ->
    follow_loop d at_ user_id job (Some N) items count conn
    = (follow_items d at_ user_id job (List.firstn (N - count) items)
                    count conn,
       N - count <=? length items).
Proof.
  induction items as [|f rest IH]; intros count conn Hlt.
  - rewrite List.firstn_nil. cbn [follow_loop follow_items length].
    replace (N - count <=? 0) with false
      by (symmetry; apply Nat.leb_gt; lia).
    reflexivity.
  - destruct (N - count) as [|k] eqn:Hk; [lia|].
    cbn [List.firstn follow_loop follow_items length]. unfold follow_item.
    unfold limit_reached.
    replace (negb (N =? 0)) with true
      by (symmetry; apply negb_true_iff, Nat.eqb_neq; lia).
    cbn [andb].
    destruct (N <=? count + 1) eqn:Hle.
    + apply Nat.leb_le in Hle. assert (k = 0) as -> by lia.
      reflexivity.
    + apply Nat.leb_gt in Hle. rewrite IH by lia.
      replace (N - (count + 1)) with k by lia.
      reflexivity.
Qed.

Lemma follow_item_working (f : Profile) (count : nat) (conn : Conn) :
  working (fst (follow_item d at_ user_id job f count conn))
  = let db1 :=
      insert_follow d (user_id, userid f)
        (with_users (insert_user_do_nothing (minimal_row at_ f))
                    (working conn)) in
    if (count + 1) mod 10 =? 0
    then update_job job (set_processed (count + 1)) db1
    else db1.
Proof.
  unfold follow_item. cbn [fst].
  now destruct ((count + 1) mod 10 =? 0).
Qed.


Lemma edge_table_insert_follow (e : Edge) (db : DB) :
  edge_table d (insert_follow d e db) = insert_edge e (edge_table d db).
Proof. now destruct d. Qed.

Lemma follow_item_edges (f : Profile) (count : nat) (conn : Conn) :
  edge_table d (working (fst (follow_item d at_ user_id job f count conn)))
  = insert_edge (user_id, userid f) (edge_table d (working conn)).
Proof.
  rewrite follow_item_working. cbv zeta.
  destruct ((count + 1) mod 10 =? 0);
    [change (edge_table d (update_job ?i ?g ?db)) with (edge_table d db)|];
    now rewrite edge_table_insert_follow; destruct d.
Qed.

Lemma follow_items_edges (items : list Profile) :
  forall count conn,
    edge_table d
      (working (fst (follow_items d at_ user_id job items count conn)))
    = insert_edges user_id items (edge_table d (working conn)).
Proof.
  induction items as [|f rest IH]; intros count conn; [reflexivity|].
  cbn [follow_items]. unfold insert_edges. cbn [List.fold_left].
  rewrite <- follow_item_edges with (count := count).
  destruct (follow_item d at_ user_id job f count conn) as [c1 n1].
  apply IH.
Qed.

Lemma checkpoint_checkpoint (k k' : nat) (jobs : list ScrapeJob) :
  checkpoint job k' (checkpoint job k jobs) = checkpoint job k' jobs.
Proof.
  unfold checkpoint. rewrite List.map_map. apply List.map_ext.
  intros j. destruct (job_id j =? job) eqn:E; cbn [set_processed job_id].
  - now rewrite E.
  - now rewrite E.
Qed.

Lemma follow_item_jobs (f : Profile) (count : nat) (conn : Conn) :
  scrape_jobs_seq (working (fst (follow_item d at_ user_id job f count conn)))
  = scrape_jobs_seq (working conn) /\
  (scrape_jobs (working (fst (follow_item d at_ user_id job f count conn)))
   = scrape_jobs (working conn) \/
   exists k,
     scrape_jobs (working (fst (follow_item d at_ user_id job f count conn)))
     = checkpoint job k (scrape_jobs (working conn))).
Proof.
  rewrite follow_item_working. cbv zeta.
  destruct ((count + 1) mod 10 =? 0).
  - split; [now destruct d|]. right. exists (count + 1). now destruct d.
  - split; [now destruct d|]. left. now destruct d.
Qed.

Lemma follow_items_jobs (items : list Profile) :
  forall count conn,
    scrape_jobs_seq
      (working (fst (follow_items d at_ user_id job items count conn)))
    = scrape_jobs_seq (working conn) /\
    (scrape_jobs
       (working (fst (follow_items d at_ user_id job items count conn)))
     = scrape_jobs (working conn) \/
     exists k,
       scrape_jobs
         (working (fst (follow_items d at_ user_id job items count conn)))
       = checkpoint job k (scrape_jobs (working conn))).
Proof.
  induction items as [|f rest IH]; intros count conn.
  - cbn [follow_items fst]. auto.
  - cbn [follow_items].
    destruct (follow_item_jobs f count conn) as [Hs Hj].
    destruct (follow_item d at_ user_id job f count conn) as [c1 n1].
    cbn [fst] in Hs, Hj.
    destruct (IH n1 c1) as [Hs' Hj']. rewrite Hs', Hs. split; [reflexivity|].
    destruct Hj' as [-> | [k' ->]]; [exact Hj|].
    right. exists k'. destruct Hj as [-> | [k ->]]; [reflexivity|].
    apply checkpoint_checkpoint.
Qed.


End Fetch.

Section FetchResult.
Import Datetime Db Instaloader InstagramScraper.

Lemma insert_edge_length (e : Edge) (t : list Edge) :
  length (insert_edge e t) <= S (length t).
Proof.
  unfold insert_edge. destruct (List.existsb (Edge_eqb e) t); [lia|].
  rewrite length_app. cbn [length]. lia.
Qed.

Lemma insert_edges_length_le (uid : string) (items : list Profile) :
  forall t : list Edge, length (insert_edges uid items t) <= length t + length items.
Proof.
  induction items as [|f rest IH]; intros t; unfold insert_edges;
    cbn [List.fold_left length]; [lia|].
  fold (insert_edges uid rest (insert_edge (uid, userid f) t)).
  pose proof (IH (insert_edge (uid, userid f) t)).
  pose proof (insert_edge_length (uid, userid f) t). lia.
Qed.

Lemma insert_edge_In (e x : Edge) (t : list Edge) :
  In x (insert_edge e t) <-> In x t \/ x = e.
Proof.
  unfold insert_edge. destruct (List.existsb (Edge_eqb e) t) eqn:E.
  - apply existsb_Edge in E. split; [auto|]. intros [H| ->]; assumption.
  - rewrite List.in_app_iff. cbn [In]. intuition congruence.
Qed.

Lemma insert_edges_length_fresh (uid : string) (items : list Profile) :
  forall t : list Edge,
    List.NoDup (List.map userid items) ->
    (forall f, In f items -> ~ In (uid, userid f) t) ->
    length (insert_edges uid items t) = length t + length items.
Proof.
  induction items as [|f rest IH]; intros t Hnd Hfresh; unfold insert_edges;
    cbn [List.fold_left length]; [lia|].
  fold (insert_edges uid rest (insert_edge (uid, userid f) t)).
  cbn [List.map] in Hnd. apply List.NoDup_cons_iff in Hnd as [Hf Hnd].
  rewrite IH.
  - unfold insert_edge.
    replace (List.existsb (Edge_eqb (uid, userid f)) t) with false.
    + rewrite length_app. cbn [length]. lia.
    + symmetry. apply existsb_Edge_false. apply Hfresh. now left.
  - exact Hnd.
  - intros g Hg Hin. apply insert_edge_In in Hin as [Hin|Heq].
    + revert Hin. apply Hfresh. now right.
    + apply Hf. injection Heq as <-. now apply List.in_map.
Qed.

Lemma initialize_instaloader_ok (r : Response) (s : t) :
  insta_loader s = true \/ login_error r = None ->
  _initialize_instaloader r s = ({| insta_loader := true |}, Returned tt).
Proof.
  unfold _initialize_instaloader. destruct s as [[|]]; cbn [insta_loader].
  - reflexivity.
  - intros [H|H]; [discriminate|]. now rewrite H.
Qed.

(** C5.  A fetch with no bound or with a bound [N >= 1], whose login,
    profile lookup and listing do not raise, on a store that holds the row
    of the account it is about, returns normally and handles
    [min(N, available)] items (all of them without a bound).  Its job row
    is then [completed] with [total_items = processed_items] equal to that
    number, and this is durable.  The edge table is the former one with the
    edges to the handled accounts inserted where absent: it grows by at
    most the number of handled items, and by exactly that number when the
    handled accounts are distinct and none had an edge before. *)
Theorem C5_bounded_fetch_completes
    (d : Direction) (r : Response) (name : string) (max_count : option nat)
    (s : t) (conn : Conn) (p : Profile) :
  insta_loader s = true \/ login_error r = None ->
  from_username r = Returned p ->
  In (userid p) (List.map user_id (users (working conn))) ->
  max_count <> Some 0 ->
  listing_error r = None \/
    (exists N, max_count = Some N /\ N <= length (listing r)) ->
  let m := handled max_count (length (listing r)) in
  exists conn',
    get_follow_list d r name max_count s conn
    = ({| insta_loader := true |}, conn', Returned tt) /\
    committed conn' = working conn' /\
    In {| job_id := scrape_jobs_seq (working conn);
          target_username := name;
          job_type := direction_name d;
          status := "completed";
          started_at := Some (clock_start r);
          completed_at := Some (clock_end r);
          last_cursor := None;
          total_items := Some m;
          processed_items := m;
          error_message := None |}
       (scrape_jobs (working conn')) /\
    edge_table d (working conn')
    = insert_edges (userid p) (List.firstn m (listing r))
                   (edge_table d (working conn)) /\
    length (edge_table d (working conn'))
    <= length (edge_table d (working conn)) + m /\
    (List.NoDup (List.map userid (List.firstn m (listing r))) ->
     (forall f, In f (List.firstn m (listing r)) ->
                ~ In (userid p, userid f) (edge_table d (working conn))) ->
     length (edge_table d (working conn'))
     = length (edge_table d (working conn)) + m).
Proof.
  intros Hlogin Hprof _ Hmax Herr m.
  unfold get_follow_list.
  rewrite (initialize_instaloader_ok r s Hlogin), Hprof.
  set (job := scrape_jobs_seq (working conn)).
  set (conn1 := commit (execute (insert_job name (direction_name d)
                                   "in_progress" (Some (clock_start r))) conn)).
  assert (Hloop :
    follow_loop d (clock_start r) (userid p) job max_count (listing r) 0 conn1
    = (follow_items d (clock_start r) (userid p) job
         (List.firstn m (listing r)) 0 conn1,
       match max_count with
       | Some N => N <=? length (listing r)
       | None => false
       end)).
  { subst m. destruct max_count as [N|]; cbn [handled].
    - rewrite follow_loop_bounded
        by (destruct N; [congruence | lia]).
      rewrite Nat.sub_0_r.
      destruct (Nat.le_ge_cases N (length (listing r))) as [Hle|Hge].
      + now rewrite Nat.min_l by exact Hle.
      + rewrite Nat.min_r by exact Hge.
        now rewrite !List.firstn_all2 by lia.
    - rewrite follow_loop_unbounded by (now left).
      now rewrite List.firstn_all. }
  rewrite Hloop.
  pose proof (follow_items_count d (clock_start r) (userid p) job
                (List.firstn m (listing r)) 0 conn1) as Hcount.
  pose proof (follow_items_edges d (clock_start r) (userid p) job
                (List.firstn m (listing r)) 0 conn1) as Hedges.
  pose proof (follow_items_jobs d (clock_start r) (userid p) job
                (List.firstn m (listing r)) 0 conn1) as [_ Hjobs].
  destruct (follow_items d (clock_start r) (userid p) job
              (List.firstn m (listing r)) 0 conn1) as [conn2 count].
  cbn [fst snd] in Hcount, Hedges, Hjobs.
  assert (Hm : count = m).
  { rewrite Hcount, List.length_firstn. subst m.
    destruct max_count as [N|]; cbn [handled]; lia. }
  clear Hcount.
  assert (Hnoerr :
    (if match max_count with
        | Some N => N <=? length (listing r)
        | None => false
        end then None else listing_error r) = None).
  { destruct Herr as [H|(N & -> & HN)].
    - rewrite H. now destruct (match max_count with Some _ => _ | None => _ end).
    - now replace (N <=? length (listing r)) with true
        by (symmetry; now apply Nat.leb_le). }
  rewrite Hnoerr. eexists. split; [reflexivity|].
  cbn [commit execute committed working].
  split; [reflexivity|].
  assert (He : edge_table d (update_job job (set_completed (clock_end r) count)
                                        (working conn2))
               = insert_edges (userid p) (List.firstn m (listing r))
                              (edge_table d (working conn))).
  { replace (edge_table d (working conn))
      with (edge_table d (working conn1))
      by (subst conn1; now destruct d).
    rewrite <- Hedges. now destruct d. }
  split; [|split; [exact He|split]].
  - cbn [update_job with_scrape_jobs scrape_jobs].
    assert (Hin0 :
      In {| job_id := job; target_username := name;
            job_type := direction_name d; status := "in_progress";
            started_at := Some (clock_start r); completed_at := None;
            last_cursor := None; total_items := None; processed_items := 0;
            error_message := None |}
         (scrape_jobs (working conn1))).
    { subst conn1. cbn [commit execute working insert_job scrape_jobs].
      apply List.in_app_iff. right. now left. }
    subst count.
    destruct Hjobs as [-> | [k ->]].
    + apply List.in_map_iff. eexists. split; [|exact Hin0].
      cbn [job_id]. now rewrite Nat.eqb_refl.
    + unfold checkpoint. rewrite List.map_map.
      apply List.in_map_iff. eexists. split; [|exact Hin0].
      cbn [job_id]. rewrite Nat.eqb_refl. cbn [set_processed job_id].
      now rewrite Nat.eqb_refl.
  - rewrite He.
    pose proof (insert_edges_length_le (userid p) (List.firstn m (listing r))
                  (edge_table d (working conn))) as Hle.
    rewrite List.length_firstn in Hle. lia.
  - intros Hnd Hfresh. rewrite He.
    rewrite insert_edges_length_fresh by assumption.
    rewrite List.length_firstn. subst m.
    destruct max_count as [N|]; cbn [handled]; lia.
Qed.

End FetchResult.

(** ** Durability of a fetch *)

Section Durability.
Import Datetime Db Instaloader InstagramScraper.

Lemma firstn_within {A : Type} (a : nat) (l : list A) :
  exists j, j <= a /\ j <= length l /\ List.firstn a l = List.firstn j l.
Proof.
  destruct (Nat.le_ge_cases a (length l)) as [H|H].
  - exists a. auto.
  - exists (length l). split; [exact H|]. split; [lia|].
    now rewrite List.firstn_all, List.firstn_all2.
Qed.

(** Whatever the bound, the loop run on the first [k] items has applied
    its body to a prefix of the listing. *)
Lemma follow_loop_prefix (d : Direction) (at_ : datetime) (uid : string)
    (job : nat) (max_count : option nat) (items : list Profile) (k : nat)
    (conn : Conn) :
  exists j b,
    j <= k /\ j <= length items /\
    follow_loop d at_ uid job max_count (List.firstn k items) 0 conn
    = (follow_items d at_ uid job (List.firstn j items) 0 conn, b).
Proof.
  destruct max_count as [[|N]|].
  - rewrite follow_loop_unbounded by (now right).
    destruct (firstn_within k items) as (j & H1 & H2 & ->). eauto.
  - rewrite follow_loop_bounded by lia. rewrite Nat.sub_0_r.
    rewrite List.firstn_firstn.
    destruct (firstn_within (Nat.min (S N) k) items) as (j & H1 & H2 & ->).
    exists j. eexists. split; [lia|]. split; [exact H2|reflexivity].
  - rewrite follow_loop_unbounded by (now left).
    destruct (firstn_within k items) as (j & H1 & H2 & ->). eauto.
Qed.



End Durability.

(** ** The daily quota *)

Section Quota.
Import Datetime Db Instaloader JobScheduler.

Lemma run_job_fields (r : Response) (job : Job) (s : t) :
  daily_quota (fst (run_job r job s)) = daily_quota s /\
  last_day (fst (run_job r job s)) = last_day s /\
  current_day_processed (fst (run_job r job s))
  = match snd (run_job r job s) with
    | Returned _ => current_day_processed s + 1
    | Raised _ => current_day_processed s
    end.
Proof.
  unfold run_job. destruct job as [[id name] type].
  destruct (crawl r (id, name, type) s) as [[sc conn] [u|e]]; cbn; auto.
Qed.

Lemma process_job_fields (r : Response) (job : Job) (s : t) :
  daily_quota (fst (process_job r job s)) = daily_quota s /\
  last_day (fst (process_job r job s)) = last_day s /\
  current_day_processed (fst (process_job r job s))
  = match snd (process_job r job s) with
    | Returned _ => current_day_processed s + 1
    | Raised _ => current_day_processed s
    end.
Proof.
  pose proof (run_job_fields r job s) as H. unfold process_job.
  destruct (run_job r job s) as [s' [u|e]]; cbn in *; exact H.
Qed.

(** The loop handles every job of the batch, in order, and the counter
    grows by the number of jobs that completed. *)
Lemma process_jobs_fields (world : nat -> Response) (jobs : list Job) :
  forall s,
    List.map fst (snd (process_jobs world jobs s)) = jobs /\
    daily_quota (fst (process_jobs world jobs s)) = daily_quota s /\
    last_day (fst (process_jobs world jobs s)) = last_day s /\
    current_day_processed (fst (process_jobs world jobs s))
    = current_day_processed s
      + count_returned (snd (process_jobs world jobs s)).
Proof.
  induction jobs as [|job rest IH]; intros s; cbn [process_jobs].
  - cbn. auto.
  - pose proof (process_job_fields (world (fst (fst job))) job s)
      as (Hq & Hd & Hc).
    destruct (process_job (world (fst (fst job))) job s) as [s1 res].
    cbn [fst snd] in Hq, Hd, Hc.
    destruct (IH s1) as (Hm & Hq' & Hd' & Hc').
    destruct (process_jobs world rest s1) as [s2 trace].
    cbn [fst snd List.map] in *. rewrite Hm, Hq', Hd', Hc', Hq, Hd, Hc.
    repeat split; try reflexivity.
    unfold count_returned. cbn [List.filter snd].
    destruct res; cbn [length]; lia.
Qed.



Lemma insert_by_job_id_In (j x : ScrapeJob) (l : list ScrapeJob) :
  In x (insert_by_job_id j l) <-> x = j \/ In x l.
Proof.
  induction l as [|k l IH]; cbn [insert_by_job_id In].
  - intuition congruence.
  - destruct (job_id j <=? job_id k); cbn [In]; [intuition congruence|].
    rewrite IH. intuition congruence.
Qed.

Lemma order_by_job_id_In (x : ScrapeJob) (l : list ScrapeJob) :
  In x (order_by_job_id l) <-> In x l.
Proof.
  induction l as [|j l IH]; cbn [order_by_job_id In]; [tauto|].
  rewrite insert_by_job_id_In, IH. intuition congruence.
Qed.

Lemma In_firstn {A : Type} (n : nat) (x : A) :
  forall l, In x (List.firstn n l) -> In x l.
Proof.
  induction n as [|n IH]; intros [|y l]; cbn [List.firstn In]; try tauto.
  intros [H|H]; [now left | right; now apply IH].
Qed.

(** Every job of a batch is a row of the table that is [pending]. *)
Lemma select_pending_In (n : nat) (db : DB) (job : Job) :
  In job (select_pending n db) ->
  exists row,
    In row (scrape_jobs db) /\ status row = "pending" /\
    job = (job_id row, target_username row, job_type row).
Proof.
  unfold select_pending. intros H.
  apply List.in_map_iff in H as (row & <- & Hin).
  apply In_firstn, order_by_job_id_In, List.filter_In in Hin
    as [Hin Hst].
  apply String.eqb_eq in Hst. eauto.
Qed.

Lemma schedule_user_scraping_fields (now : datetime) (name : string) (s : t) :
  daily_quota (schedule_user_scraping now name s) = daily_quota s /\
  last_day (schedule_user_scraping now name s) = last_day s /\
  current_day_processed (schedule_user_scraping now name s)
  = current_day_processed s.
Proof.
  unfold schedule_user_scraping.
  destruct (recent_jobs now name (working (db_conn s))); cbn; auto.
Qed.




End Quota.

(** ** Rows of the job table across operations *)

Section JobRows.
Import Datetime Db Instaloader InstagramScraper.

Lemma jobs_frame_refl (b : nat) (db : DB) : jobs_frame b db db.
Proof. unfold jobs_frame. auto. Qed.

Lemma jobs_frame_trans (b : nat) (db1 db2 db3 : DB) :
  jobs_frame b db1 db2 -> jobs_frame b db2 db3 -> jobs_frame b db1 db3.
Proof.
  intros (Hs & Hr & Hw) (Hs' & Hr' & Hw'). split; [lia|]. split.
  - intros x Hx. now rewrite Hr', Hr.
  - auto.
Qed.

(** The three notions read only the table of jobs and its sequence. *)
Lemma jobs_frame_ext (b : nat) (db db1 db2 : DB) :
  scrape_jobs db2 = scrape_jobs db1 ->
  scrape_jobs_seq db2 = scrape_jobs_seq db1 ->
  jobs_frame b db db1 -> jobs_frame b db db2.
Proof.
  intros Hj Hs (H1 & H2 & H3). unfold jobs_frame, job_row, jobs_wf in *.
  rewrite Hj, Hs. auto.
Qed.

Lemma jobs_frame_same (b : nat) (db db' : DB) :
  scrape_jobs db' = scrape_jobs db ->
  scrape_jobs_seq db' = scrape_jobs_seq db ->
  jobs_frame b db db'.
Proof. intros Hj Hs. eapply jobs_frame_ext; eauto using jobs_frame_refl. Qed.

Lemma find_app_miss {A : Type} (f : A -> bool) (l : list A) (a : A) :
  f a = false -> List.find f (l ++ [a])%list = List.find f l.
Proof.
  intros Ha. induction l as [|x l IH]; cbn [app List.find].
  - now rewrite Ha.
  - destruct (f x); [reflexivity | exact IH].
Qed.

Lemma jobs_frame_insert_job (b : nat) (target type st : string)
    (started : option datetime) (db : DB) :
  b <= scrape_jobs_seq db ->
  jobs_frame b db (insert_job target type st started db).
Proof.
  intros Hb. unfold jobs_frame, job_row, jobs_wf.
  cbn [insert_job scrape_jobs scrape_jobs_seq].
  split; [lia|]. split.
  - intros x Hx. apply find_app_miss. cbn [job_id].
    apply Nat.eqb_neq. lia.
  - intros [Hnd Hlt]. split.
    + rewrite List.map_app. cbn [List.map job_id].
      apply List.NoDup_app; [exact Hnd | repeat constructor; intros [] |].
      intros x Hx [<-|[]]. apply List.in_map_iff in Hx as (j & Hj & Hin).
      apply Hlt in Hin. lia.
    + intros j Hin. apply List.in_app_iff in Hin as [Hin|[<-|[]]].
      * apply Hlt in Hin. lia.
      * cbn [job_id]. lia.
Qed.

Lemma find_update (id x : nat) (f : ScrapeJob -> ScrapeJob)
    (jobs : list ScrapeJob) :
  (forall j, job_id (f j) = job_id j) ->
  List.find (fun j => job_id j =? x)
            (List.map (fun j => if job_id j =? id then f j else j) jobs)
  = if x =? id
    then option_map f (List.find (fun j => job_id j =? x) jobs)
    else List.find (fun j => job_id j =? x) jobs.
Proof.
  intros Hf. induction jobs as [|j jobs IH]; cbn [List.map List.find].
  - now destruct (x =? id).
  - destruct (job_id j =? id) eqn:E1.
    + rewrite Hf. destruct (job_id j =? x) eqn:E2.
      * apply Nat.eqb_eq in E1, E2.
        replace (x =? id) with true by (symmetry; apply Nat.eqb_eq; lia).
        reflexivity.
      * exact IH.
    + destruct (job_id j =? x) eqn:E2.
      * apply Nat.eqb_neq in E1. apply Nat.eqb_eq in E2.
        replace (x =? id) with false by (symmetry; apply Nat.eqb_neq; lia).
        reflexivity.
      * exact IH.
Qed.

Lemma job_row_update_job (id x : nat) (f : ScrapeJob -> ScrapeJob) (db : DB) :
  (forall j, job_id (f j) = job_id j) ->
  job_row x (update_job id f db)
  = if x =? id then option_map f (job_row x db) else job_row x db.
Proof. intros Hf. unfold job_row. cbn. now apply find_update. Qed.

Lemma jobs_wf_update_job (id : nat) (f : ScrapeJob -> ScrapeJob) (db : DB) :
  (forall j, job_id (f j) = job_id j) ->
  jobs_wf db -> jobs_wf (update_job id f db).
Proof.
  intros Hf [Hnd Hlt]. unfold jobs_wf.
  cbn [update_job with_scrape_jobs scrape_jobs scrape_jobs_seq].
  split.
  - rewrite List.map_map.
    erewrite List.map_ext; [exact Hnd|].
    intros j. cbn. destruct (job_id j =? id); [apply Hf | reflexivity].
  - intros j Hin. apply List.in_map_iff in Hin as (j0 & <- & Hin).
    apply Hlt in Hin. destruct (job_id j0 =? id); [now rewrite Hf | exact Hin].
Qed.

Lemma jobs_frame_update_job (b id : nat) (f : ScrapeJob -> ScrapeJob)
    (db : DB) :
  b <= id ->
  (forall j, job_id (f j) = job_id j) ->
  jobs_frame b db (update_job id f db).
Proof.
  intros Hb Hf. split; [reflexivity|]. split.
  - intros x Hx. rewrite job_row_update_job by exact Hf.
    replace (x =? id) with false by (symmetry; apply Nat.eqb_neq; lia).
    reflexivity.
  - now apply jobs_wf_update_job.
Qed.

Lemma follow_items_frame (d : Direction) (at_ : datetime) (uid : string)
    (b job : nat) (items : list Profile) (count : nat) (conn : Conn) :
  b <= job ->
  jobs_frame b (working conn)
    (working (fst (follow_items d at_ uid job items count conn))).
Proof.
  intros Hb.
  destruct (follow_items_jobs d at_ uid job items count conn) as [Hs [Hj|[k Hj]]].
  - now apply jobs_frame_same.
  - apply (jobs_frame_ext b _ (update_job job (set_processed k) (working conn)));
      [exact Hj | exact Hs |].
    now apply jobs_frame_update_job.
Qed.

Lemma get_user_profile_frame (b : nat) (r : Response) (name : string)
    (s : t) (conn : Conn) :
  jobs_frame b (working conn)
    (working (snd (fst (get_user_profile r name s conn)))).
Proof.
  unfold get_user_profile.
  destruct (_initialize_instaloader r s) as [s1 [u|e]];
    [|apply jobs_frame_refl].
  destruct (from_username r) as [p|e]; [|apply jobs_frame_refl].
  now apply jobs_frame_same.
Qed.

Lemma get_follow_list_frame (d : Direction) (r : Response) (name : string)
    (max_count : option nat) (s : t) (conn : Conn) :
  jobs_frame (scrape_jobs_seq (working conn)) (working conn)
    (working (snd (fst (get_follow_list d r name max_count s conn)))).
Proof.
  unfold get_follow_list.
  destruct (_initialize_instaloader r s) as [s1 [u|e]];
    [|apply jobs_frame_refl].
  set (job := scrape_jobs_seq (working conn)).
  set (conn1 := commit (execute _ conn)).
  assert (H1 : jobs_frame job (working conn) (working conn1)).
  { subst conn1. cbn [commit execute working].
    apply jobs_frame_insert_job. subst job. lia. }
  destruct (from_username r) as [p|e]; cbn [fst snd].
  - destruct (follow_loop_prefix d (clock_start r) (userid p) job max_count
                (listing r) (length (listing r)) conn1)
      as (j & brk & _ & _ & Hloop).
    rewrite List.firstn_all in Hloop. rewrite Hloop.
    pose proof (follow_items_frame d (clock_start r) (userid p) job job
                  (List.firstn j (listing r)) 0 conn1 (Nat.le_refl _)) as H2.
    destruct (follow_items d (clock_start r) (userid p) job
                (List.firstn j (listing r)) 0 conn1) as [conn2 count].
    cbn [fst] in H2.
    destruct (if brk then None else listing_error r) as [e|];
      cbn [fst snd fail_job commit execute working].
    + eapply jobs_frame_trans; [exact H1|].
      eapply jobs_frame_trans; [exact H2|].
      now apply jobs_frame_update_job.
    + eapply jobs_frame_trans; [exact H1|].
      eapply jobs_frame_trans; [exact H2|].
      now apply jobs_frame_update_job.
  - cbn [fail_job commit execute working].
    eapply jobs_frame_trans; [exact H1|].
    now apply jobs_frame_update_job.
Qed.

Lemma calculate_mutual_followers_frame (b : nat) (name : string)
    (conn : Conn) :
  jobs_frame b (working conn)
    (working (fst (fst (calculate_mutual_followers name conn)))).
Proof.
  unfold calculate_mutual_followers.
  destruct (List.find _ (users (working conn))) as [u|];
    [|apply jobs_frame_refl].
  destruct (insert_mutuals _ _) as [t' n]. now apply jobs_frame_same.
Qed.

End JobRows.

(** ** Jobs across a batch *)

Section Batch.
Import Datetime Db Instaloader JobScheduler.

Lemma crawl_frame (r : Response) (job : Job) (s : t) :
  jobs_frame (seq_of s) (working (db_conn s))
             (working (snd (fst (crawl r job s)))).
Proof.
  unfold crawl, seq_of. destruct job as [[id name] type].
  destruct (String.eqb type "profile").
  - pose proof (get_user_profile_frame (scrape_jobs_seq (working (db_conn s)))
                  r name (scraper s) (db_conn s)) as H.
    destruct (InstagramScraper.get_user_profile r name (scraper s) (db_conn s))
      as [[sc conn] [p|e]]; exact H.
  - destruct (String.eqb type "followers");
      [apply get_follow_list_frame|].
    destruct (String.eqb type "following");
      [apply get_follow_list_frame|].
    apply jobs_frame_refl.
Qed.

Lemma run_job_frame (r : Response) (job : Job) (s : t) :
  jobs_frame (seq_of s) (working (db_conn s))
             (working (db_conn (fst (run_job r job s)))).
Proof.
  pose proof (crawl_frame r job s) as H. unfold run_job.
  destruct job as [[id name] type].
  destruct (crawl r (id, name, type) s) as [[sc conn] [u|e]];
    cbn [fst snd db_conn] in *; [|exact H].
  destruct (String.eqb type "followers" || String.eqb type "following");
    [|exact H].
  destruct (completed_count name (working conn) =? 2); [|exact H].
  eapply jobs_frame_trans; [exact H|].
  apply calculate_mutual_followers_frame.
Qed.

Lemma set_failed_id (e : string) (j : ScrapeJob) :
  job_id (set_failed e j) = job_id j.
Proof. reflexivity. Qed.

(** One job of the batch: the row of a job that raised becomes [failed]
    with the message; every other row that existed stays what it was. *)
Lemma process_job_rows (r : Response) (job : Job) (s : t) :
  seq_of s <= seq_of (fst (process_job r job s)) /\
  (jobs_wf (working (db_conn s)) ->
   jobs_wf (working (db_conn (fst (process_job r job s))))) /\
  (forall x, x < seq_of s ->
     job_row x (working (db_conn (fst (process_job r job s))))
     = match snd (process_job r job s) with
       | Raised e =>
           if x =? id_of job
           then option_map (set_failed e) (job_row x (working (db_conn s)))
           else job_row x (working (db_conn s))
       | Returned _ => job_row x (working (db_conn s))
       end).
Proof.
  destruct (run_job_frame r job s) as (Hs & Hr & Hw).
  unfold process_job, seq_of in *.
  destruct (run_job r job s) as [s' [u|e]]; cbn [fst snd] in *.
  - auto.
  - cbn [with_conn db_conn commit execute working].
    split; [exact Hs|]. split.
    + intros H. apply jobs_wf_update_job; [apply set_failed_id | auto].
    + intros x Hx. rewrite job_row_update_job by apply set_failed_id.
      rewrite (Hr x Hx). reflexivity.
Qed.

Lemma process_jobs_rows (world : nat -> Response) (jobs : list Job) :
  forall s,
    List.NoDup (List.map id_of jobs) ->
    (forall job, In job jobs -> id_of job < seq_of s) ->
    let s' := fst (process_jobs world jobs s) in
    let trace := snd (process_jobs world jobs s) in
    seq_of s <= seq_of s' /\
    (jobs_wf (working (db_conn s)) -> jobs_wf (working (db_conn s'))) /\
    (forall x, x < seq_of s ->
       (forall job e, In (job, Raised e) trace -> id_of job <> x) ->
       job_row x (working (db_conn s')) = job_row x (working (db_conn s))) /\
    (forall job e, In (job, Raised e) trace ->
       job_row (id_of job) (working (db_conn s'))
       = option_map (set_failed e)
                    (job_row (id_of job) (working (db_conn s)))).
Proof.
  induction jobs as [|job rest IH]; intros s Hnd Hlt; cbn [process_jobs].
  - cbn [fst snd]. split; [lia|]. split; [auto|]. split; [auto|].
    intros job e [].
  - cbn [List.map] in Hnd. apply List.NoDup_cons_iff in Hnd as [Hnot Hnd].
    destruct (process_job_rows (world (fst (fst job))) job s)
      as (Hs1 & Hw1 & Hr1).
    pose proof (process_jobs_fields world rest
                  (fst (process_job (world (fst (fst job))) job s)))
      as (Hm & _).
    destruct (process_job (world (fst (fst job))) job s) as [s1 res].
    cbn [fst snd] in Hs1, Hw1, Hr1, Hm.
    assert (Hlt1 : forall j, In j rest -> id_of j < seq_of s1).
    { intros j Hj. specialize (Hlt j (or_intror Hj)). lia. }
    destruct (IH s1 Hnd Hlt1) as (Hs2 & Hw2 & Ha & Hb).
    destruct (process_jobs world rest s1) as [s2 trace].
    cbn [fst snd] in *.
    assert (Hrest : forall j e, In (j, Raised e) trace -> In j rest).
    { intros j e Hin. rewrite <- Hm.
      apply List.in_map_iff. exists (j, Raised e). auto. }
    split; [lia|]. split; [auto|]. split.
    + intros x Hx Hno. rewrite Ha.
      * rewrite (Hr1 x Hx). destruct res as [u|e]; [reflexivity|].
        replace (x =? id_of job) with false; [reflexivity|].
        symmetry. apply Nat.eqb_neq. intros ->.
        apply (Hno job e); [now left | reflexivity].
      * lia.
      * intros j e Hin. apply (Hno j e). now right.
    + intros j e [Heq|Hin].
      * injection Heq as -> ->.
        rewrite Ha.
        -- rewrite (Hr1 (id_of j) (Hlt j (or_introl eq_refl))).
           now rewrite Nat.eqb_refl.
        -- specialize (Hlt j (or_introl eq_refl)). lia.
        -- intros j' e' Hin' Heq. apply Hnot. rewrite <- Heq.
           apply List.in_map. eauto.
      * rewrite (Hb j e Hin). f_equal.
        assert (Hj : In j rest) by eauto.
        rewrite (Hr1 (id_of j) (Hlt j (or_intror Hj))).
        destruct res as [u|e']; [reflexivity|].
        replace (id_of j =? id_of job) with false; [reflexivity|].
        symmetry. apply Nat.eqb_neq. intros Heq. apply Hnot.
        rewrite <- Heq. now apply List.in_map.
Qed.

Lemma insert_by_job_id_perm (j : ScrapeJob) (l : list ScrapeJob) :
  Permutation (insert_by_job_id j l) (j :: l).
Proof.
  induction l as [|k l IH]; cbn [insert_by_job_id]; [reflexivity|].
  destruct (job_id j <=? job_id k); [reflexivity|].
  rewrite IH. apply perm_swap.
Qed.

Lemma order_by_job_id_perm (l : list ScrapeJob) :
  Permutation (order_by_job_id l) l.
Proof.
  induction l as [|j l IH]; cbn [order_by_job_id]; [reflexivity|].
  rewrite insert_by_job_id_perm. now apply perm_skip.
Qed.

Lemma NoDup_map_filter {A B : Type} (f : A -> B) (P : A -> bool)
    (l : list A) :
  List.NoDup (List.map f l) -> List.NoDup (List.map f (List.filter P l)).
Proof.
  induction l as [|a l IH]; cbn [List.map List.filter]; [auto|].
  intros H. apply List.NoDup_cons_iff in H as [Hn H].
  destruct (P a); cbn [List.map]; [|auto].
  constructor; [|auto]. intros Hin. apply Hn.
  apply List.in_map_iff in Hin as (x & <- & Hx).
  apply List.filter_In in Hx as [Hx _]. now apply List.in_map.
Qed.

Lemma NoDup_firstn {A : Type} (n : nat) :
  forall l : list A, List.NoDup l -> List.NoDup (List.firstn n l).
Proof.
  induction n as [|n IH]; intros [|a l] H; cbn [List.firstn];
    try constructor.
  - apply List.NoDup_cons_iff in H as [Hn H]. intros Hin. apply Hn.
    now apply In_firstn in Hin.
  - apply List.NoDup_cons_iff in H as [Hn H]. auto.
Qed.

Lemma select_pending_ids (n : nat) (db : DB) :
  List.map id_of (select_pending n db)
  = List.firstn n
      (List.map job_id
         (order_by_job_id
            (List.filter (fun j => String.eqb (status j) "pending")
                         (scrape_jobs db)))).
Proof.
  unfold select_pending. rewrite List.map_map, <- List.firstn_map.
  reflexivity.
Qed.

Lemma select_pending_NoDup (n : nat) (db : DB) :
  jobs_wf db -> List.NoDup (List.map id_of (select_pending n db)).
Proof.
  intros [Hnd _]. rewrite select_pending_ids. apply NoDup_firstn.
  eapply Permutation_NoDup.
  - symmetry. apply Permutation_map. apply order_by_job_id_perm.
  - now apply NoDup_map_filter.
Qed.

Lemma job_row_unique (db : DB) (row : ScrapeJob) :
  jobs_wf db -> In row (scrape_jobs db) ->
  job_row (job_id row) db = Some row.
Proof.
  intros [Hnd _]. unfold job_row.
  induction (scrape_jobs db) as [|j l IH]; intros Hin; [destruct Hin|].
  cbn [List.map] in Hnd. apply List.NoDup_cons_iff in Hnd as [Hn Hnd].
  cbn [List.find]. destruct Hin as [->|Hin].
  - now rewrite Nat.eqb_refl.
  - destruct (job_id j =? job_id row) eqn:E; [|auto].
    apply Nat.eqb_eq in E. exfalso. apply Hn. rewrite E.
    now apply List.in_map.
Qed.

(** Under the schema's guarantee, a job of the batch has its own key,
    below the sequence, and its row is [pending]. *)
Lemma batch_rows (s : t) (job : Job) :
  jobs_wf (working (db_conn s)) ->
  In job (batch s) ->
  id_of job < seq_of s /\
  exists row,
    job_row (id_of job) (working (db_conn s)) = Some row /\
    status row = "pending".
Proof.
  intros Hwf Hin. apply select_pending_In in Hin as (row & Hin & Hst & ->).
  cbn [id_of fst]. split.
  - destruct Hwf as [_ Hlt]. now apply Hlt.
  - exists row. split; [now apply job_row_unique | exact Hst].
Qed.

Lemma NoDup_map_eq {A B : Type} (f : A -> B) (l : list A) (a b : A) :
  List.NoDup (List.map f l) -> In a l -> In b l -> f a = f b -> a = b.
Proof.
  induction l as [|x l IH]; cbn [List.map In]; [tauto|].
  intros H. apply List.NoDup_cons_iff in H as [Hn H].
  intros [->|Ha] [->|Hb] Heq; auto.
  - exfalso. apply Hn. rewrite Heq. now apply List.in_map.
  - exfalso. apply Hn. rewrite <- Heq. now apply List.in_map.
Qed.

(** ** What is durable after a job *)

Lemma crawl_synced (r : Response) (job : Job) (s : t) :
  snd (fst (crawl r job s)) = db_conn s \/ synced (snd (fst (crawl r job s))).
Proof.
  unfold crawl. destruct job as [[id name] type].
  assert (Hlist : forall d,
    snd (fst (InstagramScraper.get_follow_list d r name None (scraper s)
                (db_conn s))) = db_conn s \/
    synced (snd (fst (InstagramScraper.get_follow_list d r name None
                        (scraper s) (db_conn s))))).
  { intros d. unfold InstagramScraper.get_follow_list.
    destruct (InstagramScraper._initialize_instaloader r (scraper s))
      as [s1 [u|e]]; [|now left].
    right. destruct (from_username r) as [p|e]; [|reflexivity].
    destruct (InstagramScraper.follow_loop _ _ _ _ _ _ _ _) as [[c n] b].
    destruct (if b then None else listing_error r); reflexivity. }
  destruct (String.eqb type "profile").
  - unfold InstagramScraper.get_user_profile.
    destruct (InstagramScraper._initialize_instaloader r (scraper s))
      as [s1 [u|e]]; [|now left].
    destruct (from_username r) as [p|e]; [right; reflexivity | now left].
  - destruct (String.eqb type "followers"); [apply Hlist|].
    destruct (String.eqb type "following"); [apply Hlist|]. now left.
Qed.

Lemma process_job_synced (r : Response) (job : Job) (s : t) :
  (db_conn (fst (process_job r job s)) = db_conn s \/
   synced (db_conn (fst (process_job r job s)))) /\
  (forall e, snd (process_job r job s) = Raised e ->
             synced (db_conn (fst (process_job r job s)))).
Proof.
  pose proof (crawl_synced r job s) as H. unfold process_job, run_job.
  destruct job as [[id name] type].
  destruct (crawl r (id, name, type) s) as [[sc conn] [u|e]];
    cbn [fst snd with_conn db_conn] in *.
  - split; [|discriminate].
    destruct (String.eqb type "followers" || String.eqb type "following");
      [|exact H].
    destruct (completed_count name (working conn) =? 2); [|exact H].
    unfold InstagramScraper.calculate_mutual_followers.
    destruct (List.find _ (users (working conn))); [|exact H].
    destruct (InstagramScraper.insert_mutuals _ _). right. reflexivity.
  - split; [right; reflexivity | intros; reflexivity].
Qed.

Lemma process_jobs_synced (world : nat -> Response) (jobs : list Job) :
  forall s,
    (db_conn (fst (process_jobs world jobs s)) = db_conn s \/
     synced (db_conn (fst (process_jobs world jobs s)))) /\
    (forall job e, In (job, Raised e) (snd (process_jobs world jobs s)) ->
                   synced (db_conn (fst (process_jobs world jobs s)))).
Proof.
  induction jobs as [|job rest IH]; intros s; cbn [process_jobs].
  - cbn [fst snd]. split; [now left | intros j e []].
  - destruct (process_job_synced (world (fst (fst job))) job s) as [H1 H1'].
    destruct (process_job (world (fst (fst job))) job s) as [s1 res].
    cbn [fst snd] in H1, H1'.
    destruct (IH s1) as [H2 H2'].
    destruct (process_jobs world rest s1) as [s2 trace].
    cbn [fst snd] in *. split.
    + destruct H2 as [-> | H2]; [exact H1 | now right].
    + intros j e [Heq|Hin]; [|eauto].
      injection Heq as -> ->. destruct H2 as [-> | H2]; eauto.
Qed.

End Batch.

(** ** Failed and completed jobs *)

Section Outcomes.
Import Datetime Db Instaloader JobScheduler.

Lemma trace_jobs (now : datetime) (world : nat -> Response) (s : t)
    (job : Job) :
  In job (List.map fst (snd (process_pending_jobs_trace now world s))) ->
  In job (batch (_reset_daily_counter now s)).
Proof.
  unfold process_pending_jobs_trace.
  destruct (daily_quota _ <=? current_day_processed _); [intros []|].
  destruct (process_jobs_fields world (batch (_reset_daily_counter now s))
              (_reset_daily_counter now s)) as (-> & _).
  auto.
Qed.

Lemma reset_conn (now : datetime) (s : t) :
  db_conn (_reset_daily_counter now s) = db_conn s.
Proof. now destruct (reset_daily_counter_spec now s) as (_ & _ & _ & -> & _). Qed.

(** What a tick does to the rows of the jobs under the schema's
    guarantee. *)
Lemma tick_rows (now : datetime) (world : nat -> Response) (s : t) :
  jobs_wf (working (db_conn s)) ->
  let s' := process_pending_jobs now world s in
  let trace := snd (process_pending_jobs_trace now world s) in
  seq_of s <= seq_of s' /\
  jobs_wf (working (db_conn s')) /\
  (forall x, x < seq_of s ->
     (forall job e, In (job, Raised e) trace -> id_of job <> x) ->
     job_row x (working (db_conn s')) = job_row x (working (db_conn s))) /\
  (forall job e, In (job, Raised e) trace ->
     job_row (id_of job) (working (db_conn s'))
     = option_map (set_failed e)
                  (job_row (id_of job) (working (db_conn s)))) /\
  List.NoDup (List.map id_of (List.map fst trace)).
Proof.
  intros Hwf. unfold process_pending_jobs, process_pending_jobs_trace.
  pose proof (reset_conn now s) as Hconn.
  set (s1 := _reset_daily_counter now s) in *.
  assert (Hseq : seq_of s1 = seq_of s) by (unfold seq_of; now rewrite Hconn).
  destruct (daily_quota s1 <=? current_day_processed s1).
  - cbn [fst snd List.map]. rewrite Hconn, Hseq.
    split; [lia|]. split; [exact Hwf|]. split; [auto|].
    split; [intros job e []|constructor].
  - assert (Hwf1 : jobs_wf (working (db_conn s1))) by now rewrite Hconn.
    pose proof (select_pending_NoDup
                  (Nat.min (daily_quota s1 - current_day_processed s1) 10)
                  (working (db_conn s1)) Hwf1) as Hnd.
    fold (batch s1) in Hnd.
    destruct (process_jobs_rows world (batch s1) s1 Hnd)
      as (Hs & Hw & Ha & Hb).
    { intros job Hin. now apply batch_rows. }
    destruct (process_jobs_fields world (batch s1) s1) as (Hm & _).
    rewrite Hm, Hseq, Hconn in *. auto.
Qed.

Lemma schedule_user_scraping_frame (now : datetime) (name : string) (s : t) :
  jobs_frame (seq_of s) (working (db_conn s))
             (working (db_conn (schedule_user_scraping now name s))).
Proof.
  unfold schedule_user_scraping, seq_of.
  destruct (recent_jobs now name (working (db_conn s)));
    [|apply jobs_frame_refl].
  cbn [with_conn db_conn commit execute working].
  eapply jobs_frame_trans; [|eapply jobs_frame_trans].
  - apply jobs_frame_insert_job. reflexivity.
  - apply jobs_frame_insert_job. cbn. lia.
  - apply jobs_frame_insert_job. cbn. lia.
Qed.

(** A row that is not [pending] is left alone by every later enrolment
    and tick. *)
Lemma step_settled (o : op) (s : t) (x : nat) (row : ScrapeJob) :
  jobs_wf (working (db_conn s)) ->
  x < seq_of s ->
  job_row x (working (db_conn s)) = Some row ->
  status row <> "pending" ->
  jobs_wf (working (db_conn (step o s))) /\
  x < seq_of (step o s) /\
  job_row x (working (db_conn (step o s))) = Some row.
Proof.
  intros Hwf Hx Hrow Hst. destruct o as [now name|now world]; cbn [step].
  - destruct (schedule_user_scraping_frame now name s) as (Hs & Hr & Hw).
    split; [auto|]. split; [unfold seq_of in *; lia|].
    now rewrite Hr.
  - destruct (tick_rows now world s Hwf) as (Hs & Hw & Ha & _ & _).
    split; [exact Hw|]. split; [lia|].
    rewrite Ha; [exact Hrow | exact Hx |].
    intros job e Hin Heq.
    assert (Hb : In job (batch (_reset_daily_counter now s))).
    { apply trace_jobs with (world := world).
      apply List.in_map_iff. exists (job, Raised e). auto. }
    apply batch_rows in Hb as (_ & row' & Hrow' & Hst');
      [|now rewrite reset_conn].
    rewrite reset_conn, Heq, Hrow in Hrow'. congruence.
Qed.

Lemma run_settled (ops : list op) :
  forall (s : t) (x : nat) (row : ScrapeJob),
    jobs_wf (working (db_conn s)) ->
    x < seq_of s ->
    job_row x (working (db_conn s)) = Some row ->
    status row <> "pending" ->
    jobs_wf (working (db_conn (run ops s))) /\
    x < seq_of (run ops s) /\
    job_row x (working (db_conn (run ops s))) = Some row.
Proof.
  induction ops as [|o ops IH]; intros s x row Hwf Hx Hrow Hst; [auto|].
  cbn [run List.fold_left]. fold (run ops (step o s)).
  destruct (step_settled o s x row Hwf Hx Hrow Hst) as (Hwf' & Hx' & Hrow').
  now apply IH.
Qed.

(** The row of a job whose crawl returned is, after the batch, what it was
    before: still [pending]. *)
Lemma returned_job_stays_pending (now : datetime) (world : nat -> Response)
    (s : t) (job : Job) :
  jobs_wf (working (db_conn s)) ->
  In (job, Returned tt) (snd (process_pending_jobs_trace now world s)) ->
  exists row,
    job_row (id_of job) (working (db_conn s)) = Some row /\
    status row = "pending" /\
    job_row (id_of job) (working (db_conn (process_pending_jobs now world s)))
    = Some row.
Proof.
  intros Hwf Hin.
  destruct (tick_rows now world s Hwf) as (_ & _ & Ha & _ & Hnd).
  assert (Hb : In job (batch (_reset_daily_counter now s))).
  { apply trace_jobs with (world := world).
    apply List.in_map_iff. exists (job, Returned tt). auto. }
  apply batch_rows in Hb as (Hlt & row & Hrow & Hst);
    [|now rewrite reset_conn].
  rewrite reset_conn in Hrow.
  unfold seq_of in Hlt. rewrite reset_conn in Hlt.
  exists row. split; [exact Hrow|]. split; [exact Hst|].
  rewrite Ha; [exact Hrow | exact Hlt |].
  intros job' e Hin' Heq. rewrite List.map_map in Hnd.
  pose proof (NoDup_map_eq (fun x => id_of (fst x)) _ _ _ Hnd Hin' Hin Heq).
  discriminate.
Qed.

(** X28.  In a tick on a store that keeps the schema's guarantee, and in
    which the engine accepts the statements of every crawl: every job of
    the batch is handled, in order, whether or not an earlier one raised;
    the counter grows by the number of jobs that completed, so by nothing
    for a job that raised; the row of a job that raised with message [e]
    was [pending] and is afterwards the same row with [status = failed]
    and [error_message = e], durably; and whatever enrolments and ticks
    follow, with crawls that the engine accepts, the row stays so and no
    later batch contains the job. *)
Theorem X28_raising_job_is_marked_failed
    (now : datetime) (world : nat -> Response) (s : t) :
  jobs_wf (working (db_conn s)) ->
  crawls_accepted world (batch (_reset_daily_counter now s))
                  (_reset_daily_counter now s) ->
  let s1 := _reset_daily_counter now s in
  let s' := process_pending_jobs now world s in
  let trace := snd (process_pending_jobs_trace now world s) in
  let failed (e : string) (row : ScrapeJob) :=
    {| job_id := job_id row; target_username := target_username row;
       job_type := job_type row; status := "failed";
       started_at := started_at row; completed_at := completed_at row;
       last_cursor := last_cursor row; total_items := total_items row;
       processed_items := processed_items row;
       error_message := Some e |} in
  List.map fst trace
  = (if daily_quota s1 <=? current_day_processed s1 then [] else batch s1) /\
  current_day_processed s'
  = current_day_processed s1 + count_returned trace /\
  (forall job e,
      In (job, Raised e) trace ->
      exists row,
        job_row (id_of job) (working (db_conn s)) = Some row /\
        status row = "pending" /\
        job_row (id_of job) (working (db_conn s')) = Some (failed e row) /\
        job_row (id_of job) (committed (db_conn s')) = Some (failed e row) /\
        forall (ops : list op),
          run_accepted ops s' ->
          job_row (id_of job) (working (db_conn (run ops s')))
          = Some (failed e row) /\
          forall now' world' job',
            In job' (List.map fst
                       (snd (process_pending_jobs_trace now' world'
                               (run ops s')))) ->
            id_of job' <> id_of job).
Proof.
  intros Hwf _ s1 s' trace failed.
  change failed with set_failed. clear failed.
  destruct (tick_rows now world s Hwf) as (Hs & Hw & _ & Hb & _).
  fold s' trace in Hs, Hw, Hb.
  assert (Htrace : List.map fst trace
                   = (if daily_quota s1 <=? current_day_processed s1
                      then [] else batch s1)
                   /\ current_day_processed s'
                      = current_day_processed s1 + count_returned trace
                   /\ (forall job e, In (job, Raised e) trace ->
                                     synced (db_conn s'))).
  { subst trace s'. unfold process_pending_jobs, process_pending_jobs_trace.
    fold s1. destruct (daily_quota s1 <=? current_day_processed s1).
    - cbn. split; [reflexivity|]. split; [lia|]. intros job e [].
    - destruct (process_jobs_fields world (batch s1) s1) as (Hm & _ & _ & Hc).
      destruct (process_jobs_synced world (batch s1) s1) as [_ Hsy].
      auto. }
  destruct Htrace as (Hm & Hc & Hsy).
  split; [exact Hm|]. split; [exact Hc|].
  intros job e Hin.
  assert (Hbatch : In job (batch s1)).
  { apply trace_jobs with (world := world).
    apply List.in_map_iff. exists (job, Raised e). auto. }
  apply batch_rows in Hbatch as (Hlt & row & Hrow & Hst);
    [|subst s1; now rewrite reset_conn].
  subst s1. rewrite reset_conn in Hrow.
  unfold seq_of in Hlt. rewrite reset_conn in Hlt.
  exists row. split; [exact Hrow|]. split; [exact Hst|].
  assert (Hrow' : job_row (id_of job) (working (db_conn s'))
                  = Some (set_failed e row)).
  { rewrite (Hb job e Hin), Hrow. reflexivity. }
  split; [exact Hrow'|]. split.
  { specialize (Hsy job e Hin). unfold synced in Hsy. now rewrite Hsy. }
  intros ops _.
  assert (Hx : id_of job < seq_of s') by (unfold seq_of in *; lia).
  destruct (run_settled ops s' (id_of job) (set_failed e row) Hw Hx Hrow')
    as (Hw2 & Hx2 & Hrow2); [cbn; discriminate|].
  split; [exact Hrow2|].
  intros now' world' job' Hin' Heq.
  apply trace_jobs in Hin'.
  apply batch_rows in Hin' as (_ & row' & Hrow3 & Hst3);
    [|now rewrite reset_conn].
  rewrite reset_conn, Heq, Hrow2 in Hrow3.
  injection Hrow3 as <-. cbn in Hst3. discriminate.
Qed.

End Outcomes.

(** ** The properties on concrete runs *)

Section Runs.
Import Datetime Db Instaloader.

(** C1.  "acct1" is enrolled and a tick handles its three jobs, all of
    which complete.  The crawler has inserted rows 4 and 5 for the two
    listings and completed those; the dispatched rows 1, 2 and 3 are still
    [pending], and the next tick fetches them again. *)
Theorem C1_dispatched_job_stays_pending :
  let t0 := date 2024 3 1 in
  let world := fun _ : nat => answer t0 "acct1" ["a"; "b"] in
  let s0 := JobScheduler.schedule_user_scraping t0 "acct1"
              (JobScheduler.init t0 empty_conn) in
  let s1 := JobScheduler.process_pending_jobs t0 world s0 in
  snd (JobScheduler.process_pending_jobs_trace t0 world s0)
  = [ ((1, "acct1", "profile"), Returned tt);
      ((2, "acct1", "followers"), Returned tt);
      ((3, "acct1", "following"), Returned tt) ] /\
  List.map (fun j => (job_id j, job_type j, status j))
           (scrape_jobs (committed (JobScheduler.db_conn s1)))
  = [ (1, "profile", "pending");
      (2, "followers", "pending");
      (3, "following", "pending");
      (4, "followers", "completed");
      (5, "following", "completed") ] /\
  JobScheduler.batch (JobScheduler._reset_daily_counter t0 s1)
  = [ (1, "acct1", "profile");
      (2, "acct1", "followers");
      (3, "acct1", "following") ].
Proof. vm_compute. repeat split; reflexivity. Qed.

(** C2, as stated, fails: with one mutual account to insert, the call
    inserts it and logs the count 1, and returns nothing. *)
Lemma C2_nothing_is_returned :
  let conn := graph_conn ["a"; "b"] ["a"; "c"] in
  let result := InstagramScraper.calculate_mutual_followers "acct1" conn in
  mutuals (working conn) = [] /\
  mutuals (working (fst (fst result))) = [("acct1", "a")] /\
  snd (fst result) = InstagramScraper.Calculated 1 "acct1" /\
  snd result <> Some 1.
Proof. vm_compute. repeat split; try reflexivity. discriminate. Qed.

(** The theorem on the store of the example above. *)
Lemma C2_witness :
  let conn := graph_conn ["a"; "b"] ["a"; "c"] in
  exists new,
    InstagramScraper.calculate_mutual_followers "acct1" conn
    = (commit (execute (with_mutuals (fun t => (t ++ new)%list)) conn),
       InstagramScraper.Calculated (length new) "acct1", None) /\
    List.NoDup new.
Proof.
  intros conn.
  pose proof (C2_mutuals_are_the_new_intersection "acct1" conn) as H.
  cbn in H. destruct H as (new & H1 & H2 & _).
  exists new. split; [exact H1 | exact H2].
Defined.

(** C5, as stated, fails at both boundary cases.  With the bound 0 and two
    accounts listed, the fetch handles both and records 2, not
    [min(0, 2)].  With the bound 5 and three accounts listed, one of which
    already has an edge, two edges are inserted, not [min(5, 3)]. *)
Lemma C5_bound_zero_and_known_edge :
  let t0 := date 2024 3 1 in
  let c0 :=
    snd (fst (InstagramScraper.get_followers (answer t0 "acct1" ["a"; "b"])
                "acct1" (Some 0) InstagramScraper.init (graph_conn [] []))) in
  let before := graph_conn ["a"] [] in
  let c5 :=
    snd (fst (InstagramScraper.get_followers
                (answer t0 "acct1" ["a"; "b"; "c"])
                "acct1" (Some 5) InstagramScraper.init before)) in
  (List.map (fun j => (status j, total_items j, processed_items j))
            (scrape_jobs (working c0))
   = [("completed", Some 2, 2)] /\
   length (Db.followers (working c0)) <> Nat.min 0 2) /\
  (List.map (fun j => (status j, total_items j, processed_items j))
            (scrape_jobs (working c5))
   = [("completed", Some 3, 3)] /\
   length (Db.followers (working c5)) - length (Db.followers (working before))
   <> Nat.min 5 3).
Proof. vm_compute. repeat split; try reflexivity; discriminate. Qed.

(** The theorem on a fetch bounded by 2 over three listed accounts. *)
Lemma C5_witness :
  let t0 := date 2024 3 1 in
  let r := answer t0 "acct1" ["a"; "b"; "c"] in
  (InstagramScraper.insta_loader InstagramScraper.init = true \/
   login_error r = None) /\
  from_username r = Returned (account "acct1") /\
  In (userid (account "acct1"))
     (List.map user_id (users (working (graph_conn [] [])))) /\
  Some 2 <> Some 0 /\
  exists conn',
    InstagramScraper.get_follow_list InstagramScraper.Followers r "acct1"
      (Some 2) InstagramScraper.init (graph_conn [] [])
    = ({| InstagramScraper.insta_loader := true |}, conn', Returned tt) /\
    length (InstagramScraper.edge_table InstagramScraper.Followers
              (working conn'))
    = 0 + 2.
Proof.
  intros t0 r.
  assert (H1 : InstagramScraper.insta_loader InstagramScraper.init = true \/
               login_error r = None) by (right; reflexivity).
  assert (H2 : from_username r = Returned (account "acct1")) by reflexivity.
  assert (H3 : Some 2 <> Some 0) by discriminate.
  assert (H4 : In (userid (account "acct1"))
                  (List.map user_id (users (working (graph_conn [] [])))))
    by (left; reflexivity).
  split; [exact H1|]. split; [exact H2|]. split; [exact H4|].
  split; [exact H3|].
  destruct (C5_bounded_fetch_completes InstagramScraper.Followers r "acct1"
              (Some 2) InstagramScraper.init (graph_conn [] []) (account "acct1")
              H1 H2 H4 H3 (or_introl eq_refl))
    as (conn' & Hrun & _ & _ & _ & _ & Hlen).
  exists conn'. split; [exact Hrun|].
  apply Hlen.
  - vm_compute. repeat constructor; cbn; intuition discriminate.
  - intros f Hf [].
Defined.



(** X28 on a batch of three jobs of an account that has its row, the
    second of which is refused at the lookup of the profile. *)
Lemma X28_witness :
  let now := date 2024 3 1 in
  let world := second_refused now ["a"; "b"] in
  let s := JobScheduler.schedule_user_scraping now "acct1"
             (JobScheduler.init now (graph_conn [] [])) in
  let s' := JobScheduler.process_pending_jobs now world s in
  jobs_wf (working (JobScheduler.db_conn s)) /\
  JobScheduler.crawls_accepted world
    (JobScheduler.batch (JobScheduler._reset_daily_counter now s))
    (JobScheduler._reset_daily_counter now s) /\
  In ((2, "acct1", "followers"), Raised "login_required")
     (snd (JobScheduler.process_pending_jobs_trace now world s)) /\
  JobScheduler.current_day_processed s' = 2 /\
  exists row,
    job_row 2 (committed (JobScheduler.db_conn s')) = Some row /\
    status row = "failed" /\
    error_message row = Some "login_required".
Proof.
  intros now world s s'.
  assert (Hwf : jobs_wf (working (JobScheduler.db_conn s))).
  { split.
    - vm_compute. repeat constructor; cbn; intuition lia.
    - intros j Hj. apply Nat.ltb_lt. revert j Hj.
      apply List.forallb_forall. vm_compute. reflexivity. }
  assert (Hacc : JobScheduler.crawls_accepted world
                   (JobScheduler.batch (JobScheduler._reset_daily_counter now s))
                   (JobScheduler._reset_daily_counter now s)).
  { change (JobScheduler.batch (JobScheduler._reset_daily_counter now s))
      with [(1, "acct1", "profile"); (2, "acct1", "followers");
            (3, "acct1", "following")].
    cbn [JobScheduler.crawls_accepted].
    split; [intros Ht; discriminate Ht|].
    split; [intros _ p Hp; discriminate Hp|].
    split; [|exact I].
    intros _ p Hp. injection Hp as <-. vm_compute. left. reflexivity. }
  assert (Hin : In ((2, "acct1", "followers"), Raised "login_required")
                   (snd (JobScheduler.process_pending_jobs_trace now world s)))
    by (vm_compute; right; now left).
  split; [exact Hwf|]. split; [exact Hacc|]. split; [exact Hin|].
  destruct (X28_raising_job_is_marked_failed now world s Hwf Hacc)
    as (_ & Hcount & Hfailed).
  split.
  - subst s'. rewrite Hcount. reflexivity.
  - destruct (Hfailed _ _ Hin) as (row & _ & _ & _ & Hdurable & _).
    eexists. split; [exact Hdurable|]. split; reflexivity.
Defined.

(** C8.  A batch of two results, one with a category of the taxonomy and
    one whose category is an array: the second is no member of the
    taxonomy, and the membership test raises on it.  With the array first,
    [_store_interest_results] leaves the connection as it was; with the
    array last, the row of the valid result is written and not committed.
    In both orders the batch fails and no row of the valid result is
    durable. *)
Theorem C8_unhashable_category_fails_the_batch :
  let now := date 2024 3 1 in
  let taxonomy := InterestAnalyzer.get_category_mapping taxonomy_conn in
  let valid :=
    InterestAnalyzer.Object
      {| InterestAnalyzer.username :=
           Some (InterestAnalyzer.JString "fashionaccount");
         InterestAnalyzer.category :=
           Some (InterestAnalyzer.JString "Fashion");
         InterestAnalyzer.confidence :=
           InterestAnalyzer.ConfidenceNumber (Finite (95 # 100)) |} in
  let odd :=
    InterestAnalyzer.Object
      {| InterestAnalyzer.username :=
           Some (InterestAnalyzer.JString "stargazer");
         InterestAnalyzer.category := Some InterestAnalyzer.JArray;
         InterestAnalyzer.confidence :=
           InterestAnalyzer.ConfidenceNumber (Finite (9 # 10)) |} in
  let first :=
    InterestAnalyzer._store_interest_results now "12345" [odd; valid]
      taxonomy taxonomy_conn in
  let last :=
    InterestAnalyzer._store_interest_results now "12345" [valid; odd]
      taxonomy taxonomy_conn in
  InterestAnalyzer.stores taxonomy valid = true /\
  InterestAnalyzer.stores taxonomy odd = false /\
  fst (InterestAnalyzer._store_interest_results now "12345" [valid]
         taxonomy taxonomy_conn)
  <> InterestAnalyzer.usable taxonomy_conn /\
  first = (InterestAnalyzer.usable taxonomy_conn, Raised "TypeError") /\
  snd last = Raised "TypeError" /\
  committed (InterestAnalyzer.connection (fst last))
  = committed taxonomy_conn /\
  interests (committed (InterestAnalyzer.connection (fst last)))
  !! ("12345", 1) = None.
Proof.
  cbv zeta. split; [reflexivity|]. split; [reflexivity|].
  split; [vm_compute; discriminate|]. split; [vm_compute; reflexivity|].
  split; [vm_compute; reflexivity|]. split; vm_compute; reflexivity.
Qed.

(** The theorem on a batch of three results, the second of which names a
    category outside the taxonomy. *)
Lemma X29_witness :
  let now := date 2024 3 1 in
  let taxonomy := InterestAnalyzer.get_category_mapping taxonomy_conn in
  let result (name category : string) (c : Q) :=
    InterestAnalyzer.Object
      {| InterestAnalyzer.username := Some (InterestAnalyzer.JString name);
         InterestAnalyzer.category :=
           Some (InterestAnalyzer.JString category);
         InterestAnalyzer.confidence :=
           InterestAnalyzer.ConfidenceNumber (Finite c) |} in
  let results :=
    [ result "fashionaccount" "Fashion" (95 # 100);
      result "stargazer" "Astrology" (9 # 10);
      result "foodlover" "Food" (9 # 10) ] in
  let out :=
    InterestAnalyzer._store_interest_results now "12345" results taxonomy
      taxonomy_conn in
  let conn' := InterestAnalyzer.connection (fst out) in
  List.forallb (InterestAnalyzer.passes taxonomy) results = true /\
  snd out = Returned tt /\
  interests (committed conn') !! ("12345", 1)
  = Some {| confidence_score := Some (Finite (95 # 100));
            created_at := now |} /\
  interests (committed conn') !! ("12345", 2)
  = Some {| confidence_score := Some (Finite (9 # 10));
            created_at := now |} /\
  interests (committed conn') !! ("12345", 3) = None.
Proof.
  intros now taxonomy result results out conn'.
  assert (Hpass : List.forallb (InterestAnalyzer.passes taxonomy) results
                  = true) by (vm_compute; reflexivity).
  destruct (X29_unknown_categories_are_skipped now "12345" taxonomy results
              taxonomy_conn Hpass) as (Hret & _ & _ & _ & Hlast & Hkeep & _).
  split; [exact Hpass|]. split; [exact Hret|]. split; [|split].
  - destruct (Hlast [] {| InterestAnalyzer.username :=
                            Some (InterestAnalyzer.JString "fashionaccount");
                          InterestAnalyzer.category :=
                            Some (InterestAnalyzer.JString "Fashion");
                          InterestAnalyzer.confidence :=
                            InterestAnalyzer.ConfidenceNumber
                              (Finite (95 # 100)) |}
                (List.tl results) 1) as (v & Hv & Hrow);
      [reflexivity | reflexivity | |].
    + intros r' [[= <-]|[[= <-]|[]]]; vm_compute; discriminate.
    + injection Hv as <-. exact Hrow.
  - destruct (Hlast (List.firstn 2 results)
                {| InterestAnalyzer.username :=
                     Some (InterestAnalyzer.JString "foodlover");
                   InterestAnalyzer.category :=
                     Some (InterestAnalyzer.JString "Food");
                   InterestAnalyzer.confidence :=
                     InterestAnalyzer.ConfidenceNumber (Finite (9 # 10)) |}
                [] 2) as (v & Hv & Hrow);
      [reflexivity | reflexivity | |].
    + intros r' [].
    + injection Hv as <-. exact Hrow.
  - transitivity (interests (working taxonomy_conn) !! ("12345", 3));
      [apply Hkeep | reflexivity].
    intros r cid [[= <-]|[[= <-]|[[= <-]|[]]]]; vm_compute; intros [= <-];
      discriminate.
Defined.

End Runs.

(** * Further properties of the code *)

(** ** Rotation and reloading of the proxy pool *)

Section ProxyRotation.
Import ProxyManager.

Lemma get_proxy_at (pm : t) :
  current_index pm < length (proxies pm) ->
  get_proxy pm
  = Returned
      (proxies pm !! current_index pm,
       {| proxies := proxies pm;
          current_index := (current_index pm + 1) mod length (proxies pm);
          api_key := api_key pm |}).
Proof.
  intros Hi. unfold get_proxy.
  destruct (proxies pm) as [|q l] eqn:Hp; [cbn in Hi; lia|].
  destruct ((q :: l) !! current_index pm) as [p|] eqn:Hlk; [reflexivity|].
  apply lookup_ge_None in Hlk. lia.
Qed.

Lemma get_proxies_rotation (n : nat) :
  forall pm,
    current_index pm < length (proxies pm) ->
    get_proxies n pm
    = Returned
        (List.map
           (fun j => proxies pm !! ((current_index pm + j)
                                    mod length (proxies pm)))
           (List.seq 0 n),
         {| proxies := proxies pm;
            current_index := (current_index pm + n) mod length (proxies pm);
            api_key := api_key pm |}).
Proof.
  unfold get_proxies.
  induction n as [|n IH]; intros pm Hi.
  - cbn [List.repeat run List.seq List.map]. rewrite Nat.add_0_r.
    rewrite Nat.mod_small by exact Hi. now destruct pm.
  - cbn [List.repeat run]. rewrite (get_proxy_at pm Hi).
    set (len := length (proxies pm)) in *.
    assert (Hlen : len <> 0) by lia.
    rewrite IH; cbn [proxies current_index api_key]; fold len;
      [|now apply Nat.mod_upper_bound].
    cbn [List.seq List.map]. rewrite Nat.add_0_r.
    rewrite (Nat.mod_small (current_index pm)) by exact Hi.
    rewrite <- List.seq_shift, List.map_map.
    assert (Hmap :
      List.map (fun j => proxies pm !! (((current_index pm + 1) mod len + j)
                                        mod len)) (List.seq 0 n)
      = List.map (fun j => proxies pm !! ((current_index pm + S j) mod len))
                 (List.seq 0 n)).
    { apply List.map_ext. intros j.
      rewrite Nat.Div0.add_mod_idemp_l. do 2 f_equal. lia. }
    rewrite Hmap, Nat.Div0.add_mod_idemp_l.
    replace (current_index pm + 1 + n) with (current_index pm + S n) by lia.
    reflexivity.
Qed.

(** X1.  On a pool that is not empty, with the index within it, calls of
    [get_proxy] in a row never raise, and the call number [j] (from 0)
    returns the element of the pool at [(index + j) mod len]; the pool is
    not changed, and after [len] calls the manager is what it was. *)
Theorem X1_get_proxy_round_robin (pm : t) (n : nat) :
  current_index pm < length (proxies pm) ->
  get_proxies n pm
  = Returned
      (List.map
         (fun j => proxies pm !! ((current_index pm + j)
                                  mod length (proxies pm)))
         (List.seq 0 n),
       {| proxies := proxies pm;
          current_index := (current_index pm + n) mod length (proxies pm);
          api_key := api_key pm |}) /\
  (forall p, In (Some p)
               (List.map
                  (fun j => proxies pm !! ((current_index pm + j)
                                           mod length (proxies pm)))
                  (List.seq 0 n)) -> In p (proxies pm)) /\
  exists outs, get_proxies (length (proxies pm)) pm = Returned (outs, pm).
Proof.
  intros Hi. split; [now apply get_proxies_rotation|]. split.
  - intros p Hin. apply List.in_map_iff in Hin as (j & Hj & _).
    apply list_elem_of_In. eapply list_elem_of_lookup_2. exact Hj.
  - rewrite get_proxies_rotation by exact Hi. eexists. f_equal. f_equal.
    rewrite <- Nat.Div0.add_mod_idemp_r, Nat.Div0.mod_same, Nat.add_0_r.
    rewrite Nat.mod_small by exact Hi. now destruct pm.
Qed.

Lemma X1_witness :
  let pm := init None {| load_exception := None; shuffle_draws := [] |} in
  current_index pm < length (proxies pm) /\
  exists outs, get_proxies (length (proxies pm)) pm = Returned (outs, pm).
Proof.
  intros pm.
  assert (H : current_index pm < length (proxies pm)) by (vm_compute; lia).
  split; [exact H|].
  exact (proj2 (proj2 (X1_get_proxy_round_robin pm 3 H))).
Defined.

Lemma delete_insert_same {A : Type} (x : list A) :
  forall i b, delete i (<[i := b]> x) = delete i x.
Proof.
  induction x as [|a x IH]; intros [|i] b; cbn; try reflexivity.
  f_equal. apply IH.
Qed.

Lemma swap_perm {A : Type} (x : list A) (i j : nat) :
  Permutation (swap x i j) x.
Proof.
  unfold swap.
  destruct (x !! i) as [a|] eqn:Hi; [|reflexivity].
  destruct (x !! j) as [b|] eqn:Hj; [|reflexivity].
  destruct (decide (i = j)) as [->|Hne].
  - assert (a = b) as -> by congruence.
    now rewrite !list_insert_id by
      (try rewrite list_insert_id by exact Hi; exact Hi).
  - set (y := <[i := b]> x).
    assert (Hyi : y !! i = Some b).
    { apply list_lookup_insert_eq. eapply lookup_lt_Some. exact Hi. }
    assert (Hyj : y !! j = Some b).
    { unfold y. rewrite list_lookup_insert_ne by exact Hne. exact Hj. }
    assert (Hsj : <[j := a]> y !! j = Some a).
    { apply list_lookup_insert_eq. eapply lookup_lt_Some. exact Hyj. }
    rewrite (delete_Permutation _ j a Hsj), delete_insert_same.
    rewrite (delete_Permutation x i a Hi).
    apply perm_skip.
    apply (Permutation_cons_inv (a := b)).
    rewrite <- (delete_Permutation y j b Hyj).
    rewrite (delete_Permutation y i b Hyi).
    unfold y. now rewrite delete_insert_same.
Qed.

Lemma shuffle_perm {A : Type} (draws : list nat) (x : list A) :
  Permutation (shuffle draws x) x.
Proof.
  unfold shuffle. generalize (length x - 1) as i. intros i.
  revert draws x. induction i as [|i IH]; intros draws x; cbn [shuffle_from];
    [reflexivity|].
  rewrite IH. apply swap_perm.
Qed.

Lemma load_proxies_known (env : LoadEnv) (pm : t) :
  pool_known (_load_proxies env pm).
Proof.
  unfold pool_known, _load_proxies.
  destruct (load_exception env); cbn [proxies]; [now right|].
  left. apply shuffle_perm.
Qed.

Lemma mark_proxy_failed_known (env : LoadEnv) (p : Proxy) (pm : t) :
  pool_known pm -> pool_known (mark_proxy_failed env p pm).
Proof.
  intros Hk. unfold mark_proxy_failed.
  destruct (List.existsb (Proxy_eqb p) (proxies pm)) eqn:Hin; [|exact Hk].
  cbn [proxies].
  destruct Hk as [Hk|Hk]; [|rewrite Hk in Hin; discriminate].
  pose proof (remove_first_length p (proxies pm) Hin) as Hr.
  apply Permutation_length in Hk. cbn [length placeholder_proxies] in Hk.
  replace (length (remove_first p (proxies pm)) <? 3) with true
    by (symmetry; apply Nat.ltb_lt; lia).
  apply load_proxies_known.
Qed.

Lemma get_proxy_known (pm pm' : t) (r : option Proxy) :
  get_proxy pm = Returned (r, pm') -> proxies pm' = proxies pm.
Proof.
  unfold get_proxy. destruct (proxies pm) as [|q l] eqn:Hp.
  - intros [= _ <-]. exact Hp.
  - destruct ((q :: l) !! current_index pm); [|discriminate].
    intros [= _ <-]. reflexivity.
Qed.

Lemma run_known (cs : list call) :
  forall pm outs pm',
    pool_known pm -> run cs pm = Returned (outs, pm') -> pool_known pm'.
Proof.
  induction cs as [|c cs IH]; intros pm outs pm' Hk; cbn [run].
  - now intros [= _ <-].
  - destruct c as [|p env].
    + destruct (get_proxy pm) as [[r pm1]|e] eqn:Hg; [|discriminate].
      destruct (run cs pm1) as [[rs pm2]|e] eqn:Hr; [|discriminate].
      intros [= _ <-]. apply (IH pm1 rs pm2); [|exact Hr].
      unfold pool_known. now rewrite (get_proxy_known _ _ _ Hg).
    + apply IH. now apply mark_proxy_failed_known.
Qed.

Lemma existsb_Proxy (p : Proxy) (l : list Proxy) :
  List.existsb (Proxy_eqb p) l = true <-> In p l.
Proof.
  rewrite List.existsb_exists. split.
  - intros (q & Hq & Heq). unfold Proxy_eqb in Heq.
    apply andb_true_iff in Heq as [H1 H2].
    apply String.eqb_eq in H1, H2. destruct p, q. cbn in *. now subst.
  - intros Hin. exists p. split; [exact Hin|].
    unfold Proxy_eqb. now rewrite !String.eqb_refl.
Qed.

(** X2.  In a manager obtained from a new one by any calls, the pool is
    the three placeholder proxies in some order, or empty.  Reporting a
    proxy that is not in the pool changes nothing.  Reporting one that is
    in the pool reloads the pool: unless the reload raises, which empties
    the pool, the three placeholders are back, the reported proxy among
    them.  The rotation index is not changed. *)
Theorem X2_reported_proxy_is_reloaded
    (key : option string) (env0 : LoadEnv) (cs : list call)
    (outs : list (option Proxy)) (pm : t) (p : Proxy) (env : LoadEnv) :
  run cs (init key env0) = Returned (outs, pm) ->
  pool_known pm /\
  current_index (mark_proxy_failed env p pm) = current_index pm /\
  (~ In p (proxies pm) -> mark_proxy_failed env p pm = pm) /\
  (In p (proxies pm) ->
   match load_exception env with
   | None =>
       Permutation (proxies (mark_proxy_failed env p pm)) placeholder_proxies
       /\ In p (proxies (mark_proxy_failed env p pm))
   | Some _ => proxies (mark_proxy_failed env p pm) = []
   end).
Proof.
  intros Hrun.
  assert (Hk : pool_known pm).
  { eapply run_known; [|exact Hrun]. apply load_proxies_known. }
  split; [exact Hk|].
  unfold mark_proxy_failed.
  destruct (List.existsb (Proxy_eqb p) (proxies pm)) eqn:Hin.
  - apply existsb_Proxy in Hin as Hin'.
    destruct Hk as [Hk|Hk]; [|rewrite Hk in Hin'; destruct Hin'].
    pose proof (remove_first_length p (proxies pm) Hin) as Hr.
    pose proof (Permutation_length Hk) as Hlen.
    cbn [length placeholder_proxies] in Hlen. cbn [proxies].
    replace (length (remove_first p (proxies pm)) <? 3) with true
      by (symmetry; apply Nat.ltb_lt; lia).
    split; [unfold _load_proxies; now destruct (load_exception env)|].
    split; [intros Hn; contradiction|].
    intros _. unfold _load_proxies.
    destruct (load_exception env); cbn [proxies]; [reflexivity|].
    split; [apply shuffle_perm|].
    eapply Permutation_in; [symmetry; apply shuffle_perm|].
    eapply Permutation_in; [exact Hk | exact Hin'].
  - split; [reflexivity|]. split; [reflexivity|].
    intros Hin'. apply existsb_Proxy in Hin'. congruence.
Qed.

Lemma X2_witness :
  let env := {| load_exception := None; shuffle_draws := [1; 0] |} in
  let pm := init None env in
  let p := {| http := "http://proxy3:port"; https := "https://proxy3:port" |} in
  run [GetProxy] pm
  = Returned ([Some p],
              {| proxies := proxies pm; current_index := 1;
                 api_key := None |}) /\
  current_index
    (mark_proxy_failed env p
       {| proxies := proxies pm; current_index := 1; api_key := None |})
  = 1.
Proof.
  intros env pm p.
  assert (H : run [GetProxy] pm
              = Returned ([Some p],
                          {| proxies := proxies pm; current_index := 1;
                             api_key := None |})) by reflexivity.
  split; [exact H|].
  exact (proj1 (proj2 (X2_reported_proxy_is_reloaded None env [GetProxy]
                         _ _ p env H))).
Defined.

End ProxyRotation.

(** ** Accounts written by the crawler *)

Section Accounts.
Import Datetime Db Instaloader InstagramScraper.

Lemma existsb_user (id : string) (t : list UserRow) :
  List.existsb (fun r => String.eqb (user_id r) id) t = true
  <-> In id (List.map user_id t).
Proof.
  rewrite List.existsb_exists, List.in_map_iff. split.
  - intros (u & Hin & Heq). apply String.eqb_eq in Heq. eauto.
  - intros (u & Heq & Hin). exists u. split; [exact Hin|].
    now apply String.eqb_eq.
Qed.

Lemma existsb_user_false (id : string) (t : list UserRow) :
  List.existsb (fun r => String.eqb (user_id r) id) t = false
  <-> ~ In id (List.map user_id t).
Proof.
  rewrite <- existsb_user.
  destruct (List.existsb _ t); split; congruence.
Qed.

Lemma find_user_app (id : string) (t1 t2 : list UserRow) :
  List.find (fun u => String.eqb (user_id u) id) (t1 ++ t2)%list
  = match List.find (fun u => String.eqb (user_id u) id) t1 with
    | Some u => Some u
    | None => List.find (fun u => String.eqb (user_id u) id) t2
    end.
Proof.
  induction t1 as [|u t1 IH]; cbn [app List.find]; [reflexivity|].
  destruct (String.eqb (user_id u) id); [reflexivity | exact IH].
Qed.

Lemma find_user_none (id : string) (t : list UserRow) :
  ~ In id (List.map user_id t) ->
  List.find (fun u => String.eqb (user_id u) id) t = None.
Proof.
  intros Hn. destruct (List.find _ t) as [u|] eqn:E; [|reflexivity].
  apply List.find_some in E as [Hin Heq]. apply String.eqb_eq in Heq.
  exfalso. apply Hn. rewrite <- Heq. now apply List.in_map.
Qed.

(** What [upsert_user] does to the table. *)
Lemma upsert_user_ids (u : UserRow) (t : list UserRow) :
  List.map user_id (upsert_user u t)
  = if List.existsb (fun r => String.eqb (user_id r) (user_id u)) t
    then List.map user_id t
    else (List.map user_id t ++ [user_id u])%list.
Proof.
  unfold upsert_user.
  destruct (List.existsb _ t).
  - rewrite List.map_map. apply List.map_ext. intros r.
    destruct (String.eqb (user_id r) (user_id u)) eqn:E; [|reflexivity].
    apply String.eqb_eq in E. now symmetry.
  - now rewrite List.map_app.
Qed.

Lemma upsert_user_find (u : UserRow) (t : list UserRow) (id : string) :
  List.find (fun r => String.eqb (user_id r) id) (upsert_user u t)
  = if String.eqb (user_id u) id then Some u
    else List.find (fun r => String.eqb (user_id r) id) t.
Proof.
  assert (Hmap :
    List.find (fun r => String.eqb (user_id r) id)
      (List.map (fun r => if String.eqb (user_id r) (user_id u) then u else r)
                t)
    = if String.eqb (user_id u) id
      then (if List.existsb (fun r => String.eqb (user_id r) (user_id u)) t
            then Some u else None)
      else List.find (fun r => String.eqb (user_id r) id) t).
  { induction t as [|r t IH]; cbn [List.map List.find List.existsb].
    - now destruct (String.eqb (user_id u) id).
    - destruct (String.eqb (user_id r) (user_id u)) eqn:E1; cbn [orb].
      + apply String.eqb_eq in E1. rewrite E1.
        destruct (String.eqb (user_id u) id) eqn:E2; [reflexivity|].
        rewrite IH. reflexivity.
      + rewrite IH. destruct (String.eqb (user_id r) id) eqn:E2;
          [|reflexivity].
        apply String.eqb_eq in E2. apply String.eqb_neq in E1.
        replace (String.eqb (user_id u) id) with false; [reflexivity|].
        symmetry. apply String.eqb_neq. congruence. }
  unfold upsert_user.
  destruct (List.existsb _ t) eqn:Hex.
  - exact Hmap.
  - apply existsb_user_false in Hex.
    rewrite find_user_app. cbn [List.find].
    destruct (String.eqb (user_id u) id) eqn:E.
    + apply String.eqb_eq in E. subst id. now rewrite find_user_none.
    + now destruct (List.find _ t).
Qed.

Lemma upsert_user_twice (u : UserRow) (t : list UserRow) :
  upsert_user u (upsert_user u t) = upsert_user u t.
Proof.
  assert (Hmap : forall l,
    List.map (fun r => if String.eqb (user_id r) (user_id u) then u else r)
      (List.map (fun r => if String.eqb (user_id r) (user_id u) then u else r) l)
    = List.map (fun r => if String.eqb (user_id r) (user_id u) then u else r) l).
  { intros l. rewrite List.map_map. apply List.map_ext. intros r.
    destruct (String.eqb (user_id r) (user_id u)) eqn:E.
    - now rewrite String.eqb_refl.
    - now rewrite E. }
  pose proof (upsert_user_ids u t) as Hids.
  unfold upsert_user in *.
  destruct (List.existsb (fun r => String.eqb (user_id r) (user_id u)) t)
    eqn:Hex.
  - replace (List.existsb _ (List.map _ t)) with true.
    + apply Hmap.
    + symmetry. apply existsb_user. rewrite Hids. now apply existsb_user.
  - replace (List.existsb _ (t ++ [u])%list) with true.
    + rewrite List.map_app. cbn [List.map]. rewrite String.eqb_refl.
      f_equal. rewrite <- (List.map_id t) at 2. apply List.map_ext_in.
      intros r Hr. destruct (String.eqb (user_id r) (user_id u)) eqn:E;
        [|reflexivity].
      apply String.eqb_eq in E. apply existsb_user_false in Hex.
      exfalso. apply Hex. rewrite <- E. now apply List.in_map.
    + symmetry. apply existsb_user. rewrite List.map_app.
      apply List.in_app_iff. right. now left.
Qed.

Lemma upsert_user_NoDup (u : UserRow) (t : list UserRow) :
  List.NoDup (List.map user_id t) ->
  List.NoDup (List.map user_id (upsert_user u t)).
Proof.
  intros H. rewrite upsert_user_ids.
  destruct (List.existsb _ t) eqn:Hex; [exact H|].
  apply existsb_user_false in Hex.
  apply List.NoDup_app; [exact H | repeat constructor; intros [] |].
  intros x Hx [<-|[]]. contradiction.
Qed.

(** X3.  [get_user_profile] writes nothing when the login or the lookup
    raises.  When it returns a profile, the row of that account is
    afterwards the full row made from the profile, whatever it was before,
    and this is committed; every other account row, and every other table,
    is what it was; account ids stay unique if they were; and a later
    crawl that finds the same profile, at whatever time, writes the row
    anew with the time of that crawl, adds no account and changes no
    other row. *)
Theorem X3_profile_is_upserted
    (r : Response) (name : string) (s : t) (conn : Conn) :
  let result := get_user_profile r name s conn in
  let conn' := snd (fst result) in
  match snd result with
  | Raised e => conn' = conn
  | Returned p =>
      from_username r = Returned p /\
      committed conn' = working conn' /\
      user_row (userid p) (working conn')
      = Some (full_row (clock_start r) p) /\
      (forall id, id <> userid p ->
                  user_row id (working conn') = user_row id (working conn)) /\
      (List.NoDup (List.map user_id (users (working conn))) ->
       List.NoDup (List.map user_id (users (working conn')))) /\
      with_users (fun _ => users (working conn)) (working conn')
      = working conn /\
      (forall r' name',
          from_username r' = Returned p ->
          let conn'' :=
            snd (fst (get_user_profile r' name' (fst (fst result)) conn')) in
          user_row (userid p) (working conn'')
          = Some (full_row (clock_start r') p) /\
          (forall id, id <> userid p ->
                      user_row id (working conn'')
                      = user_row id (working conn')) /\
          (forall id, In id (List.map user_id (users (working conn'')))
                      <-> In id (List.map user_id (users (working conn')))))
  end.
Proof.
  cbv zeta. unfold get_user_profile.
  destruct (_initialize_instaloader r s) as [s1 [u|e]] eqn:Hinit;
    [|reflexivity].
  destruct (from_username r) as [p|e] eqn:Hp; [|reflexivity].
  cbn [fst snd commit execute committed working with_users users].
  split; [reflexivity|]. split; [reflexivity|]. split; [|split; [|split; [|split]]].
  - unfold user_row, with_users. cbn [users]. rewrite upsert_user_find.
    cbn [full_row user_id]. now rewrite String.eqb_refl.
  - intros id Hid. unfold user_row, with_users. cbn [users].
    rewrite upsert_user_find.
    cbn [full_row user_id].
    replace (String.eqb (userid p) id) with false; [reflexivity|].
    symmetry. apply String.eqb_neq. congruence.
  - unfold with_users. cbn [users]. apply upsert_user_NoDup.
  - now destruct (working conn).
  - assert (Hs1 : insta_loader s1 = true).
    { unfold _initialize_instaloader in Hinit.
      destruct (insta_loader s) eqn:Hl; [now injection Hinit as <- _|].
      destruct (login_error r); injection Hinit as <- _; reflexivity. }
    intros r' name' Hp'. cbv zeta.
    unfold _initialize_instaloader. rewrite Hs1, Hp'.
    cbn [fst snd commit execute committed working with_users users].
    split; [|split].
    + unfold user_row, with_users. cbn [users]. rewrite upsert_user_find.
      cbn [full_row user_id]. now rewrite String.eqb_refl.
    + intros id Hid. unfold user_row, with_users. cbn [users].
      rewrite upsert_user_find. cbn [full_row user_id].
      replace (String.eqb (userid p) id) with false; [reflexivity|].
      symmetry. apply String.eqb_neq. congruence.
    + intros id. unfold with_users. cbn [users]. rewrite upsert_user_ids.
      replace (List.existsb _ (upsert_user (full_row (clock_start r) p)
                                           (users (working conn))))
        with true; [reflexivity|].
      symmetry. apply existsb_user. cbn [full_row user_id].
      rewrite upsert_user_ids. cbn [full_row user_id].
      destruct (List.existsb _ (users (working conn))) eqn:E.
      * now apply existsb_user in E.
      * apply List.in_app_iff. right. now left.
Qed.

End Accounts.

(** ** Keys stay unique and nothing is deleted *)

Section StoreSteps.
Import Datetime Db Instaloader InstagramScraper.

Ltac split_grows := refine (conj _ (conj _ (conj _ (conj _ _)))).
Ltac split_inv :=
  refine (conj _ (conj _ (conj _ (conj _ (conj _ (conj _ _)))))).

Lemma store_step_refl (db : DB) : store_step db db.
Proof.
  split; [|auto]. unfold store_grows. split_grows; apply incl_refl.
Qed.

Lemma store_step_trans (db1 db2 db3 : DB) :
  store_step db1 db2 -> store_step db2 db3 -> store_step db1 db3.
Proof.
  intros [(G1 & G2 & G3 & G4 & G5) I] [(G1' & G2' & G3' & G4' & G5') I'].
  split; [|auto].
  split_grows; eapply incl_tran; eauto.
Qed.

Lemma insert_user_do_nothing_ids (u : UserRow) (t : list UserRow) :
  List.map user_id (insert_user_do_nothing u t)
  = if List.existsb (fun r => String.eqb (user_id r) (user_id u)) t
    then List.map user_id t
    else (List.map user_id t ++ [user_id u])%list.
Proof.
  unfold insert_user_do_nothing.
  destruct (List.existsb _ t); [reflexivity | now rewrite List.map_app].
Qed.

Lemma insert_user_do_nothing_has (u : UserRow) (t : list UserRow) :
  In (user_id u) (List.map user_id (insert_user_do_nothing u t)).
Proof.
  rewrite insert_user_do_nothing_ids.
  destruct (List.existsb _ t) eqn:E.
  - now apply existsb_user.
  - apply List.in_app_iff. right. now left.
Qed.

(** A change of the table of accounts that keeps the ids there and
    unique is a step of the store. *)
Lemma store_step_users (f : list UserRow -> list UserRow) (db : DB) :
  incl (List.map user_id (users db)) (List.map user_id (f (users db))) ->
  (List.NoDup (List.map user_id (users db)) ->
   List.NoDup (List.map user_id (f (users db)))) ->
  store_step db (with_users f db).
Proof.
  intros Hincl Hnd. split.
  - unfold store_grows, with_users. cbn.
    split_grows; try apply incl_refl. exact Hincl.
  - intros (I1 & I2 & I3 & I4 & I5 & I6 & I7).
    unfold store_inv, with_users in *. cbn.
    split_inv; try assumption.
    + now apply Hnd.
    + intros e He. apply Hincl. now apply I7.
Qed.

Lemma store_step_insert_user (u : UserRow) (db : DB) :
  store_step db (with_users (insert_user_do_nothing u) db).
Proof.
  apply store_step_users; rewrite insert_user_do_nothing_ids;
    destruct (List.existsb _ (users db)) eqn:E.
  - apply incl_refl.
  - apply incl_appl, incl_refl.
  - auto.
  - intros H. apply existsb_user_false in E.
    apply List.NoDup_app; [exact H | repeat constructor; intros [] |].
    intros x Hx [<-|[]]. contradiction.
Qed.

Lemma store_step_upsert_user (u : UserRow) (db : DB) :
  store_step db (with_users (upsert_user u) db).
Proof.
  apply store_step_users.
  - rewrite upsert_user_ids. destruct (List.existsb _ (users db));
      [apply incl_refl | apply incl_appl, incl_refl].
  - apply upsert_user_NoDup.
Qed.

Lemma insert_edge_NoDup (e : Edge) (t : list Edge) :
  List.NoDup t -> List.NoDup (insert_edge e t).
Proof.
  intros H. unfold insert_edge.
  destruct (List.existsb (Edge_eqb e) t) eqn:E; [exact H|].
  apply existsb_Edge_false in E.
  apply List.NoDup_app; [exact H | repeat constructor; intros [] |].
  intros x Hx [<-|[]]. contradiction.
Qed.

Lemma insert_edge_incl (e : Edge) (t : list Edge) : incl t (insert_edge e t).
Proof. intros x Hx. apply insert_edge_In. now left. Qed.

Lemma store_step_insert_follow (d : Direction) (e : Edge) (db : DB) :
  In (snd e) (List.map user_id (users db)) ->
  store_step db (insert_follow d e db).
Proof.
  intros Hfk. split.
  - unfold store_grows. destruct d; cbn;
      split_grows; try apply incl_refl; apply insert_edge_incl.
  - intros (I1 & I2 & I3 & I4 & I5 & I6 & I7).
    unfold store_inv in *.
    destruct d; cbn; split_inv; try assumption;
      try (now apply insert_edge_NoDup).
    + intros x Hx. destruct (I6 x Hx) as [H1 H2]. split; [|exact H2].
      apply insert_edge_In. now left.
    + intros x [Hx|Hx]; [|apply I7; now right].
      apply insert_edge_In in Hx as [Hx| ->]; [apply I7; now left | exact Hfk].
    + intros x Hx. destruct (I6 x Hx) as [H1 H2]. split; [exact H1|].
      apply insert_edge_In. now left.
    + intros x [Hx|Hx]; [apply I7; now left|].
      apply insert_edge_In in Hx as [Hx| ->]; [apply I7; now right | exact Hfk].
Qed.

(** A change that the table of jobs and its sequence go through as a
    frame, the other tables being kept, is a step of the store. *)
Lemma store_step_jobs (db db' : DB) :
  users db' = users db -> Db.followers db' = Db.followers db ->
  following db' = following db -> mutuals db' = mutuals db ->
  incl (List.map job_id (scrape_jobs db)) (List.map job_id (scrape_jobs db')) ->
  (jobs_wf db -> jobs_wf db') ->
  store_step db db'.
Proof.
  intros Hu Hf Hg Hm Hincl Hwf. split.
  - unfold store_grows. rewrite Hu, Hf, Hg, Hm.
    split_grows; try apply incl_refl. exact Hincl.
  - intros (I1 & I2 & I3 & I4 & I5 & I6 & I7).
    unfold store_inv. rewrite Hu, Hf, Hg, Hm.
    split_inv; auto.
Qed.

Lemma store_step_insert_job (target type st : string)
    (started : option datetime) (db : DB) :
  store_step db (insert_job target type st started db).
Proof.
  apply store_step_jobs; try reflexivity.
  - cbn. rewrite List.map_app. apply incl_appl, incl_refl.
  - apply (jobs_frame_insert_job (scrape_jobs_seq db)). reflexivity.
Qed.

Lemma store_step_update_job (id : nat) (f : ScrapeJob -> ScrapeJob) (db : DB) :
  (forall j, job_id (f j) = job_id j) ->
  store_step db (update_job id f db).
Proof.
  intros Hf. apply store_step_jobs; try reflexivity.
  - assert (E : List.map job_id (scrape_jobs (update_job id f db))
               = List.map job_id (scrape_jobs db)).
    { cbn. rewrite List.map_map. apply List.map_ext.
      intros j. destruct (job_id j =? id); [apply Hf | reflexivity]. }
    rewrite E. apply incl_refl.
  - now apply jobs_wf_update_job.
Qed.

Lemma store_step_mutuals (uid : string) (db : DB) :
  store_step db
    (with_mutuals
       (fun _ => fst (insert_mutuals (mutual_candidates uid db) (mutuals db)))
       db).
Proof.
  destruct (insert_mutuals_spec (mutual_candidates uid db) (mutuals db))
    as (new & Hq & Hnd & Hin).
  rewrite Hq. cbn [fst]. split.
  - unfold store_grows, with_mutuals. cbn.
    split_grows; try apply incl_refl. apply incl_appl, incl_refl.
  - intros (I1 & I2 & I3 & I4 & I5 & I6 & I7).
    unfold store_inv, with_mutuals in *. cbn.
    split_inv; try assumption.
    + apply List.NoDup_app; [exact I4 | exact Hnd |].
      intros x Hx Hx'. apply Hin in Hx'. tauto.
    + intros x Hx. apply List.in_app_iff in Hx as [Hx|Hx]; [now apply I6|].
      apply Hin in Hx as [Hx _]. apply mutual_candidates_In in Hx. tauto.
Qed.

Lemma follow_item_step (d : Direction) (at_ : datetime) (uid : string)
    (job : nat) (f : Profile) (count : nat) (conn : Conn) :
  store_step (working conn)
             (working (fst (follow_item d at_ uid job f count conn))).
Proof.
  rewrite follow_item_working. cbv zeta.
  assert (H : store_step (working conn)
                (insert_follow d (uid, userid f)
                   (with_users (insert_user_do_nothing (minimal_row at_ f))
                               (working conn)))).
  { eapply store_step_trans; [apply store_step_insert_user|].
    apply store_step_insert_follow. cbn [snd].
    unfold with_users. cbn [users].
    apply (insert_user_do_nothing_has (minimal_row at_ f)). }
  destruct ((count + 1) mod 10 =? 0); [|exact H].
  eapply store_step_trans; [exact H|].
  now apply store_step_update_job.
Qed.

Lemma follow_items_step (d : Direction) (at_ : datetime) (uid : string)
    (job : nat) (items : list Profile) :
  forall count conn,
    store_step (working conn)
               (working (fst (follow_items d at_ uid job items count conn))).
Proof.
  induction items as [|f rest IH]; intros count conn; cbn [follow_items].
  - apply store_step_refl.
  - pose proof (follow_item_step d at_ uid job f count conn) as H.
    destruct (follow_item d at_ uid job f count conn) as [c1 n1].
    eapply store_step_trans; [exact H | apply IH].
Qed.

Lemma get_follow_list_step (d : Direction) (r : Response) (name : string)
    (max_count : option nat) (s : t) (conn : Conn) :
  store_step (working conn)
    (working (snd (fst (get_follow_list d r name max_count s conn)))).
Proof.
  unfold get_follow_list.
  destruct (_initialize_instaloader r s) as [s1 [u|e]];
    [|apply store_step_refl].
  set (job := scrape_jobs_seq (working conn)).
  set (conn1 := commit (execute _ conn)).
  assert (H1 : store_step (working conn) (working conn1))
    by apply store_step_insert_job.
  destruct (from_username r) as [p|e]; cbn [fst snd].
  - destruct (follow_loop_prefix d (clock_start r) (userid p) job max_count
                (listing r) (length (listing r)) conn1)
      as (j & brk & _ & _ & Hloop).
    rewrite List.firstn_all in Hloop. rewrite Hloop.
    pose proof (follow_items_step d (clock_start r) (userid p) job
                  (List.firstn j (listing r)) 0 conn1) as H2.
    destruct (follow_items d (clock_start r) (userid p) job
                (List.firstn j (listing r)) 0 conn1) as [conn2 count].
    cbn [fst] in H2.
    destruct (if brk then None else listing_error r) as [e|];
      cbn [fst snd fail_job commit execute working];
      (eapply store_step_trans; [exact H1|]);
      (eapply store_step_trans; [exact H2|]);
      now apply store_step_update_job.
  - cbn [fail_job commit execute working].
    eapply store_step_trans; [exact H1|].
    now apply store_step_update_job.
Qed.

Lemma get_user_profile_step (r : Response) (name : string) (s : t)
    (conn : Conn) :
  store_step (working conn)
    (working (snd (fst (get_user_profile r name s conn)))).
Proof.
  unfold get_user_profile.
  destruct (_initialize_instaloader r s) as [s1 [u|e]];
    [|apply store_step_refl].
  destruct (from_username r) as [p|e]; [|apply store_step_refl].
  apply store_step_upsert_user.
Qed.

Lemma calculate_mutual_followers_step (name : string) (conn : Conn) :
  store_step (working conn)
    (working (fst (fst (calculate_mutual_followers name conn)))).
Proof.
  unfold calculate_mutual_followers.
  destruct (List.find _ (users (working conn))) as [u|];
    [|apply store_step_refl].
  pose proof (store_step_mutuals (user_id u) (working conn)) as H.
  destruct (insert_mutuals _ _) as [t' n]. exact H.
Qed.

End StoreSteps.

Section SchedulerSteps.
Import Datetime Db Instaloader JobScheduler.

Lemma crawl_step (r : Response) (job : Job) (s : t) :
  store_step (working (db_conn s)) (working (snd (fst (crawl r job s)))).
Proof.
  unfold crawl. destruct job as [[id name] type].
  destruct (String.eqb type "profile").
  - pose proof (get_user_profile_step r name (scraper s) (db_conn s)) as H.
    destruct (InstagramScraper.get_user_profile r name (scraper s) (db_conn s))
      as [[sc conn] [p|e]]; exact H.
  - destruct (String.eqb type "followers"); [apply get_follow_list_step|].
    destruct (String.eqb type "following"); [apply get_follow_list_step|].
    apply store_step_refl.
Qed.

Lemma process_job_step (r : Response) (job : Job) (s : t) :
  store_step (working (db_conn s))
             (working (db_conn (fst (process_job r job s)))).
Proof.
  pose proof (crawl_step r job s) as H. unfold process_job, run_job.
  destruct job as [[id name] type].
  destruct (crawl r (id, name, type) s) as [[sc conn] [u|e]];
    cbn [fst snd db_conn with_conn commit execute working] in *.
  - destruct (String.eqb type "followers" || String.eqb type "following");
      [|exact H].
    destruct (completed_count name (working conn) =? 2); [|exact H].
    eapply store_step_trans; [exact H|].
    apply calculate_mutual_followers_step.
  - eapply store_step_trans; [exact H|]. now apply store_step_update_job.
Qed.

Lemma process_jobs_step (world : nat -> Response) (jobs : list Job) :
  forall s,
    store_step (working (db_conn s))
               (working (db_conn (fst (process_jobs world jobs s)))).
Proof.
  induction jobs as [|job rest IH]; intros s; cbn [process_jobs].
  - apply store_step_refl.
  - pose proof (process_job_step (world (fst (fst job))) job s) as H.
    destruct (process_job (world (fst (fst job))) job s) as [s1 res].
    specialize (IH s1).
    destruct (process_jobs world rest s1) as [s2 trace].
    eapply store_step_trans; [exact H | exact IH].
Qed.

Lemma process_pending_jobs_step (now : datetime) (world : nat -> Response)
    (s : t) :
  store_step (working (db_conn s))
             (working (db_conn (process_pending_jobs now world s))).
Proof.
  unfold process_pending_jobs, process_pending_jobs_trace.
  rewrite <- (reset_conn now s) at 1.
  destruct (daily_quota _ <=? current_day_processed _);
    [apply store_step_refl | apply process_jobs_step].
Qed.

Lemma schedule_user_scraping_step (now : datetime) (name : string) (s : t) :
  store_step (working (db_conn s))
             (working (db_conn (schedule_user_scraping now name s))).
Proof.
  unfold schedule_user_scraping.
  destruct (recent_jobs now name (working (db_conn s)));
    [|apply store_step_refl].
  cbn [with_conn db_conn commit execute working].
  eapply store_step_trans; [|eapply store_step_trans];
    apply store_step_insert_job.
Qed.

Lemma run_step (ops : list op) :
  forall s, store_step (working (db_conn s)) (working (db_conn (run ops s))).
Proof.
  induction ops as [|o ops IH]; intros s; [apply store_step_refl|].
  cbn [run List.fold_left]. fold (run ops (step o s)).
  eapply store_step_trans; [|apply IH].
  destruct o as [now name|now world]; cbn [step];
    [apply schedule_user_scraping_step | apply process_pending_jobs_step].
Qed.

(** X4.  If account ids, follower edges, following edges, mutual edges and
    job ids are unique, every mutual edge is both a follower edge and a
    following edge, and the far end of every edge has an account row, then
    the same holds after any crawler operation and after any sequence of
    enrolments and ticks, whatever the crawls return or raise. *)
Theorem X4_keys_stay_unique :
  (forall r name sc conn,
      store_inv (working conn) ->
      store_inv (working (snd (fst (InstagramScraper.get_user_profile
                                      r name sc conn))))) /\
  (forall d r name max_count sc conn,
      store_inv (working conn) ->
      store_inv (working (snd (fst (InstagramScraper.get_follow_list
                                      d r name max_count sc conn))))) /\
  (forall name conn,
      store_inv (working conn) ->
      store_inv (working (fst (fst (InstagramScraper.calculate_mutual_followers
                                      name conn))))) /\
  (forall ops s,
      store_inv (working (db_conn s)) ->
      store_inv (working (db_conn (run ops s)))).
Proof.
  split; [|split; [|split]].
  - intros r name sc conn. apply get_user_profile_step.
  - intros d r name max_count sc conn. apply get_follow_list_step.
  - intros name conn. apply calculate_mutual_followers_step.
  - intros ops s. apply run_step.
Qed.

(** X5.  No crawler operation and no sequence of enrolments and ticks
    removes an account, a follower edge, a following edge, a mutual edge
    or a job: each one present before is present after. *)
Theorem X5_nothing_is_deleted :
  (forall r name sc conn,
      store_grows (working conn)
        (working (snd (fst (InstagramScraper.get_user_profile
                              r name sc conn))))) /\
  (forall d r name max_count sc conn,
      store_grows (working conn)
        (working (snd (fst (InstagramScraper.get_follow_list
                              d r name max_count sc conn))))) /\
  (forall name conn,
      store_grows (working conn)
        (working (fst (fst (InstagramScraper.calculate_mutual_followers
                              name conn))))) /\
  (forall ops s,
      store_grows (working (db_conn s)) (working (db_conn (run ops s)))).
Proof.
  split; [|split; [|split]].
  - intros r name sc conn. apply get_user_profile_step.
  - intros d r name max_count sc conn. apply get_follow_list_step.
  - intros name conn. apply calculate_mutual_followers_step.
  - intros ops s. apply run_step.
Qed.

End SchedulerSteps.

(** ** Listings: accounts, failures, bounds *)

Section Listings.
Import Datetime Db Instaloader InstagramScraper.

Lemma follow_item_users (d : Direction) (at_ : datetime) (uid : string)
    (job : nat) (f : Profile) (count : nat) (conn : Conn) :
  users (working (fst (follow_item d at_ uid job f count conn)))
  = insert_user_do_nothing (minimal_row at_ f) (users (working conn)).
Proof.
  rewrite follow_item_working. cbv zeta.
  destruct ((count + 1) mod 10 =? 0); now destruct d.
Qed.

Lemma follow_items_users (d : Direction) (at_ : datetime) (uid : string)
    (job : nat) (items : list Profile) :
  forall count conn,
  exists added,
    users (working (fst (follow_items d at_ uid job items count conn)))
    = (users (working conn) ++ added)%list /\
    added_by at_ items (users (working conn)) added.
Proof.
  induction items as [|f rest IH]; intros count conn; cbn [follow_items].
  - exists []. rewrite app_nil_r. split; [reflexivity|]. intros u [].
  - pose proof (follow_item_users d at_ uid job f count conn) as H1.
    destruct (follow_item d at_ uid job f count conn) as [c1 n1].
    cbn [fst] in H1.
    destruct (IH n1 c1) as (added & Hq & Hadd). rewrite Hq, H1.
    unfold insert_user_do_nothing.
    destruct (List.existsb _ (users (working conn))) eqn:E.
    + exists added. split; [reflexivity|].
      intros u Hu. destruct (Hadd u Hu) as (g & Hg & -> & Hn).
      exists g. split; [now right|]. split; [reflexivity|].
      rewrite H1 in Hn. unfold insert_user_do_nothing in Hn.
      now rewrite E in Hn.
    + exists (minimal_row at_ f :: added). rewrite <- app_assoc.
      split; [reflexivity|].
      intros u [<-|Hu].
      * exists f. split; [now left|]. split; [reflexivity|].
        now apply existsb_user_false in E.
      * destruct (Hadd u Hu) as (g & Hg & -> & Hn).
        exists g. split; [now right|]. split; [reflexivity|].
        rewrite H1 in Hn. unfold insert_user_do_nothing in Hn.
        rewrite E, List.map_app in Hn. intros Hin. apply Hn.
        apply List.in_app_iff. now left.
Qed.

Lemma get_follow_list_users (d : Direction) (r : Response) (name : string)
    (max_count : option nat) (s : t) (conn : Conn) :
  exists added,
    users (working (snd (fst (get_follow_list d r name max_count s conn))))
    = (users (working conn) ++ added)%list /\
    added_by (clock_start r) (listing r) (users (working conn)) added.
Proof.
  assert (Hnil : exists added,
            users (working conn) = (users (working conn) ++ added)%list /\
            added_by (clock_start r) (listing r) (users (working conn)) added).
  { exists []. rewrite app_nil_r. split; [reflexivity | intros u []]. }
  unfold get_follow_list.
  destruct (_initialize_instaloader r s) as [s1 [un|e]]; [|exact Hnil].
  set (job := scrape_jobs_seq (working conn)).
  set (conn1 := commit (execute _ conn)).
  destruct (from_username r) as [p|e]; cbn [fst snd]; [|exact Hnil].
  destruct (follow_loop_prefix d (clock_start r) (userid p) job max_count
              (listing r) (length (listing r)) conn1)
    as (j & brk & _ & _ & Hloop).
  rewrite List.firstn_all in Hloop. rewrite Hloop.
  destruct (follow_items_users d (clock_start r) (userid p) job
              (List.firstn j (listing r)) 0 conn1) as (added & Hq & Hadd).
  destruct (follow_items d (clock_start r) (userid p) job
              (List.firstn j (listing r)) 0 conn1) as [conn2 count].
  cbn [fst] in Hq.
  exists added. split.
  - destruct (if brk then None else listing_error r); exact Hq.
  - intros u Hu. destruct (Hadd u Hu) as (g & Hg & Hu' & Hn).
    exists g. split; [now apply In_firstn in Hg|]. auto.
Qed.

Lemma get_user_profile_row (r : Response) (name : string) (s s' : t)
    (conn conn' : Conn) (p : Profile) :
  get_user_profile r name s conn = (s', conn', Returned p) ->
  user_row (userid p) (working conn') = Some (full_row (clock_start r) p).
Proof.
  unfold get_user_profile.
  destruct (_initialize_instaloader r s) as [s1 [u|e]]; [|discriminate].
  destruct (from_username r) as [q|e]; [|discriminate].
  intros [= _ <- <-]. unfold user_row, with_users.
  cbn [commit execute working users]. rewrite upsert_user_find.
  cbn [full_row user_id]. now rewrite String.eqb_refl.
Qed.

(** X6.  A listing, whatever its outcome, leaves every account row that
    existed as it is, in place: the table of accounts afterwards is the
    former table followed by rows added for listed accounts that had none,
    each the minimal row of that account.  In particular the full row that
    a profile crawl has written is still there after any listing. *)
Theorem X6_listing_never_overwrites_accounts
    (d : Direction) (r : Response) (name : string) (max_count : option nat)
    (s : t) (conn : Conn) :
  let conn' := snd (fst (get_follow_list d r name max_count s conn)) in
  (exists added,
      users (working conn') = (users (working conn) ++ added)%list /\
      added_by (clock_start r) (listing r) (users (working conn)) added) /\
  (forall id row,
      user_row id (working conn) = Some row ->
      user_row id (working conn') = Some row) /\
  (forall r0 name0 s0 conn0 p,
      get_user_profile r0 name0 s0 conn0 = (s, conn, Returned p) ->
      user_row (userid p) (working conn')
      = Some (full_row (clock_start r0) p)).
Proof.
  cbv zeta.
  destruct (get_follow_list_users d r name max_count s conn)
    as (added & Hq & Hadd).
  assert (Hkeep : forall id row,
            user_row id (working conn) = Some row ->
            user_row id
              (working (snd (fst (get_follow_list d r name max_count s conn))))
            = Some row).
  { intros id row Hrow. unfold user_row in *.
    rewrite Hq, find_user_app, Hrow. reflexivity. }
  split; [eauto|]. split; [exact Hkeep|].
  intros r0 name0 s0 conn0 p Hp. apply Hkeep.
  eapply get_user_profile_row. exact Hp.
Qed.

(** X7.  A bound of 0 is no bound: a listing called with [max_count = 0]
    does what it does with no [max_count]. *)
Theorem X7_bound_zero_is_no_bound
    (d : Direction) (r : Response) (name : string) (s : t) (conn : Conn) :
  get_follow_list d r name (Some 0) s conn
  = get_follow_list d r name None s conn.
Proof.
  unfold get_follow_list.
  destruct (_initialize_instaloader r s) as [s1 [u|e]]; [|reflexivity].
  destruct (from_username r) as [p|e]; [|reflexivity].
  rewrite !follow_loop_unbounded by auto. reflexivity.
Qed.

(** X8.  The scraper logs in at most once: whatever the outcome of a
    profile crawl or of a listing, and so even when the login has failed,
    the scraper it leaves never logs in again, and its later operations do
    not depend on what a login would answer. *)
Theorem X8_login_is_attempted_once
    (d : Direction) (r r' : Response) (name name' : string)
    (max_count max_count' : option nat) (s : t) (conn conn' : Conn) :
  let after_profile := fst (fst (get_user_profile r name s conn)) in
  let after_listing := fst (fst (get_follow_list d r name max_count s conn)) in
  let silent :=
    {| login_error := None; from_username := from_username r';
       listing := listing r'; listing_error := listing_error r';
       clock_start := clock_start r'; clock_end := clock_end r' |} in
  insta_loader after_profile = true /\
  insta_loader after_listing = true /\
  _initialize_instaloader r' after_profile = (after_profile, Returned tt) /\
  _initialize_instaloader r' after_listing = (after_listing, Returned tt) /\
  get_user_profile r' name' after_profile conn'
  = get_user_profile silent name' after_profile conn' /\
  get_follow_list d r' name' max_count' after_listing conn'
  = get_follow_list d silent name' max_count' after_listing conn'.
Proof.
  cbv zeta.
  assert (Hinit : insta_loader (fst (_initialize_instaloader r s)) = true).
  { unfold _initialize_instaloader.
    destruct (insta_loader s) eqn:E; [exact E|].
    now destruct (login_error r). }
  assert (H1 : insta_loader (fst (fst (get_user_profile r name s conn)))
               = true).
  { unfold get_user_profile.
    destruct (_initialize_instaloader r s) as [s1 [u|e]]; cbn [fst] in *.
    - now destruct (from_username r).
    - exact Hinit. }
  assert (H2 : insta_loader
                 (fst (fst (get_follow_list d r name max_count s conn)))
               = true).
  { unfold get_follow_list.
    destruct (_initialize_instaloader r s) as [s1 [u|e]]; cbn [fst] in *.
    - destruct (from_username r); [|exact Hinit].
      destruct (follow_loop _ _ _ _ _ _ _ _) as [[c n] b].
      now destruct (if b then None else listing_error r).
    - exact Hinit. }
  assert (Hset : forall q sc, insta_loader sc = true ->
                              _initialize_instaloader q sc = (sc, Returned tt)).
  { intros q sc Hsc. unfold _initialize_instaloader. now rewrite Hsc. }
  split; [exact H1|]. split; [exact H2|].
  split; [now apply Hset|]. split; [now apply Hset|]. split.
  - unfold get_user_profile at 1 3. now rewrite !Hset by exact H1.
  - unfold get_follow_list at 1 3. now rewrite !Hset by exact H2.
Qed.

End Listings.

(** ** A listing that fails *)

Section FailedListing.
Import Datetime Db Instaloader InstagramScraper.

Lemma follow_item_jobs_exact (d : Direction) (at_ : datetime) (uid : string)
    (job : nat) (f : Profile) (count : nat) (conn : Conn) :
  scrape_jobs (working (fst (follow_item d at_ uid job f count conn)))
  = if (count + 1) mod 10 =? 0
    then checkpoint job (count + 1) (scrape_jobs (working conn))
    else scrape_jobs (working conn).
Proof.
  rewrite follow_item_working. cbv zeta.
  destruct ((count + 1) mod 10 =? 0); now destruct d.
Qed.

(** The table of jobs after the loop body has run on [items]: the row of
    the job holds the last multiple of ten that the counter passed. *)
Lemma follow_items_jobs_exact (d : Direction) (at_ : datetime) (uid : string)
    (job : nat) (items : list Profile) :
  forall count conn,
    scrape_jobs (working (fst (follow_items d at_ uid job items count conn)))
    = if count / 10 <? (count + length items) / 10
      then checkpoint job (10 * ((count + length items) / 10))
                      (scrape_jobs (working conn))
      else scrape_jobs (working conn).
Proof.
  induction items as [|f rest IH]; intros count conn.
  - cbn [length follow_items fst]. rewrite Nat.add_0_r.
    now rewrite Nat.ltb_irrefl.
  - cbn [follow_items length].
    pose proof (follow_item_jobs_exact d at_ uid job f count conn) as Hj.
    pose proof (follow_item_count d at_ uid job f count conn) as Hn.
    destruct (follow_item d at_ uid job f count conn) as [c1 n1].
    cbn [fst snd] in Hj, Hn. subst n1.
    rewrite IH, Hj.
    replace (count + 1 + length rest) with (count + S (length rest)) by lia.
    set (n := count + S (length rest)).
    div_mod_10 count. div_mod_10 (count + 1). div_mod_10 n.
    destruct ((count + 1) / 10 <? n / 10) eqn:E1.
    + apply Nat.ltb_lt in E1.
      replace (count / 10 <? n / 10) with true
        by (symmetry; apply Nat.ltb_lt; lia).
      destruct ((count + 1) mod 10 =? 0); [|reflexivity].
      apply checkpoint_checkpoint.
    + apply Nat.ltb_ge in E1.
      destruct (count / 10 <? n / 10) eqn:E2.
      * apply Nat.ltb_lt in E2.
        replace ((count + 1) mod 10 =? 0) with true
          by (symmetry; apply Nat.eqb_eq; lia).
        f_equal. lia.
      * apply Nat.ltb_ge in E2.
        replace ((count + 1) mod 10 =? 0) with false
          by (symmetry; apply Nat.eqb_neq; subst n; lia).
        reflexivity.
Qed.

(** An update by key, on a table whose last row alone has the key. *)
Lemma update_own_row (job : nat) (f : ScrapeJob -> ScrapeJob)
    (jobs : list ScrapeJob) (row : ScrapeJob) :
  (forall j, In j jobs -> job_id j < job) ->
  job_id row = job ->
  List.map (fun j => if job_id j =? job then f j else j) (jobs ++ [row])%list
  = (jobs ++ [f row])%list.
Proof.
  intros Hlt Hrow. rewrite List.map_app. cbn [List.map].
  rewrite Hrow, Nat.eqb_refl. f_equal.
  rewrite <- (List.map_id jobs) at 2. apply List.map_ext_in.
  intros j Hj. apply Hlt in Hj.
  replace (job_id j =? job) with false; [reflexivity|].
  symmetry. apply Nat.eqb_neq. lia.
Qed.

Lemma follow_loop_not_left (d : Direction) (at_ : datetime) (uid : string)
    (job : nat) (max_count : option nat) (items : list Profile)
    (conn : Conn) :
  limit_reached max_count (length items) = false ->
  follow_loop d at_ uid job max_count items 0 conn
  = (follow_items d at_ uid job items 0 conn, false).
Proof.
  intros Hlim. destruct max_count as [[|N]|].
  - apply follow_loop_unbounded. now right.
  - unfold limit_reached in Hlim. cbn [Nat.eqb negb andb] in Hlim.
    apply Nat.leb_gt in Hlim.
    rewrite follow_loop_bounded by lia. rewrite Nat.sub_0_r.
    rewrite List.firstn_all2 by lia.
    now replace (S N <=? length items) with false
      by (symmetry; apply Nat.leb_gt; lia).
  - apply follow_loop_unbounded. now left.
Qed.

(** X9.  On a store that keeps the schema's guarantee on jobs, a listing
    that gets past the login adds exactly one row to the table of jobs and
    changes no other.  If the profile lookup raises, that row is [failed]
    with the message, no account or edge is written, and the exception is
    passed on.  If the listing raises after its last item, on a store that
    holds the row of the account it is about, the edges to all the items
    are kept and committed, and the row is [failed] with the message,
    without [total_items], its [processed_items] being the last multiple
    of ten reached. *)
Theorem X9_failed_listing_keeps_what_was_written
    (d : Direction) (r : Response) (name : string) (max_count : option nat)
    (s : t) (conn : Conn) :
  jobs_wf (working conn) ->
  insta_loader s = true \/ login_error r = None ->
  let row (msg : string) (processed : nat) :=
    {| job_id := scrape_jobs_seq (working conn);
       target_username := name;
       job_type := direction_name d;
       status := "failed";
       started_at := Some (clock_start r);
       completed_at := None;
       last_cursor := None;
       total_items := None;
       processed_items := processed;
       error_message := Some msg |} in
  (forall e,
      from_username r = Raised e ->
      exists conn',
        get_follow_list d r name max_count s conn
        = ({| insta_loader := true |}, conn', Raised e) /\
        committed conn' = working conn' /\
        scrape_jobs (working conn')
        = (scrape_jobs (working conn) ++ [row e 0])%list /\
        users (working conn') = users (working conn) /\
        Db.followers (working conn') = Db.followers (working conn) /\
        following (working conn') = following (working conn)) /\
  (forall p e,
      from_username r = Returned p ->
      In (userid p) (List.map user_id (users (working conn))) ->
      listing_error r = Some e ->
      limit_reached max_count (length (listing r)) = false ->
      exists conn',
        get_follow_list d r name max_count s conn
        = ({| insta_loader := true |}, conn', Raised e) /\
        committed conn' = working conn' /\
        edge_table d (working conn')
        = insert_edges (userid p) (listing r) (edge_table d (working conn)) /\
        scrape_jobs (working conn')
        = (scrape_jobs (working conn)
           ++ [row e (10 * (length (listing r) / 10))])%list).
Proof.
  intros [Hnd Hlt] Hlogin row. split.
  - intros e He. unfold get_follow_list.
    rewrite (initialize_instaloader_ok r s Hlogin), He.
    eexists. split; [reflexivity|].
    unfold fail_job, commit, execute. cbn [committed working].
    split; [reflexivity|]. split; [|now split].
    cbn [update_job insert_job with_scrape_jobs scrape_jobs scrape_jobs_seq].
    now rewrite update_own_row.
  - intros p e Hp _ He Hlim. unfold get_follow_list.
    rewrite (initialize_instaloader_ok r s Hlogin), Hp.
    set (job := scrape_jobs_seq (working conn)).
    set (conn1 := commit (execute _ conn)).
    rewrite (follow_loop_not_left d (clock_start r) (userid p) job max_count
               (listing r) conn1 Hlim).
    pose proof (follow_items_edges d (clock_start r) (userid p) job
                  (listing r) 0 conn1) as Hedges.
    pose proof (follow_items_jobs_exact d (clock_start r) (userid p) job
                  (listing r) 0 conn1) as Hjobs.
    destruct (follow_items d (clock_start r) (userid p) job (listing r) 0
                conn1) as [conn2 count].
    cbn [fst] in Hedges, Hjobs. rewrite He.
    eexists. split; [reflexivity|].
    unfold fail_job, commit, execute. cbn [committed working].
    split; [reflexivity|]. split.
    + replace (edge_table d (working conn))
        with (edge_table d (working conn1))
        by (subst conn1; now destruct d).
      rewrite <- Hedges. now destruct d.
    + cbn [update_job with_scrape_jobs scrape_jobs]. rewrite Hjobs.
      cbn [Nat.add].
      assert (Hjobs1 : scrape_jobs (working conn1)
                       = (scrape_jobs (working conn)
                          ++ [ {| job_id := job; target_username := name;
                                  job_type := direction_name d;
                                  status := "in_progress";
                                  started_at := Some (clock_start r);
                                  completed_at := None; last_cursor := None;
                                  total_items := None; processed_items := 0;
                                  error_message := None |} ])%list)
        by reflexivity.
      rewrite Hjobs1. div_mod_10 (length (listing r)).
      destruct (0 / 10 <? length (listing r) / 10) eqn:E.
      * unfold checkpoint. rewrite !update_own_row by auto. reflexivity.
      * apply Nat.ltb_ge in E. change (0 / 10) with 0 in E.
        assert (length (listing r) / 10 = 0) as Hz by lia.
        rewrite update_own_row by auto. subst row. cbv beta.
        rewrite Hz. reflexivity.
Qed.

End FailedListing.

(** ** The order of a batch *)

Section BatchOrder.
Import Datetime Db Instaloader JobScheduler.

Lemma insert_by_job_id_ordered (j : ScrapeJob) (l : list ScrapeJob) :
  by_job_id l -> by_job_id (insert_by_job_id j l).
Proof.
  induction l as [|k l IH]; cbn [insert_by_job_id by_job_id].
  - intros _. split; [intros k []|exact I].
  - intros [Hk Hl]. destruct (job_id j <=? job_id k) eqn:E.
    + apply Nat.leb_le in E. cbn [by_job_id]. split; [|split; assumption].
      intros x [<-|Hx]; [exact E|]. specialize (Hk x Hx). lia.
    + apply Nat.leb_gt in E. cbn [by_job_id]. split; [|now apply IH].
      intros x Hx. apply insert_by_job_id_In in Hx as [->|Hx]; [lia|auto].
Qed.

Lemma order_by_job_id_ordered (l : list ScrapeJob) :
  by_job_id (order_by_job_id l).
Proof.
  induction l as [|j l IH]; cbn [order_by_job_id]; [exact I|].
  now apply insert_by_job_id_ordered.
Qed.

(** In an ordered list, the rows after the first [n] have keys that are
    not below those of the first [n]. *)
Lemma ordered_split (n : nat) :
  forall l, by_job_id l ->
    by_job_id (List.firstn n l) /\
    forall a b, In a (List.firstn n l) -> In b (List.skipn n l) ->
                job_id a <= job_id b.
Proof.
  induction n as [|n IH]; intros [|j l] H; cbn [List.firstn List.skipn by_job_id].
  - split; [exact I | intros a b []].
  - split; [exact I | intros a b []].
  - split; [exact I | intros a b []].
  - destruct H as [Hj Hl]. destruct (IH l Hl) as [H1 H2]. split.
    + split; [|exact H1]. intros k Hk. apply Hj. now apply In_firstn in Hk.
    + intros a b [<-|Ha] Hb; [|now apply H2].
      apply Hj. rewrite <- (List.firstn_skipn n l).
      apply List.in_app_iff. now right.
Qed.

Lemma ordered_ids_increasing (l : list ScrapeJob) :
  by_job_id l -> List.NoDup (List.map job_id l) ->
  increasing (List.map job_id l).
Proof.
  induction l as [|j l IH]; cbn [by_job_id List.map increasing]; [auto|].
  intros [Hj Hl] Hnd. apply List.NoDup_cons_iff in Hnd as [Hn Hnd].
  split; [|now apply IH].
  intros b Hb. apply List.in_map_iff in Hb as (k & <- & Hk).
  specialize (Hj k Hk).
  assert (job_id j <> job_id k).
  { intros Heq. apply Hn. rewrite Heq. now apply List.in_map. }
  lia.
Qed.

(** X10.  On a store that keeps the schema's guarantee on jobs, the batch
    is in the order of creation: its job ids go up strictly; a pending job
    that is left out has an id above every id of the batch, and is left
    out only because the batch is full; so when no more jobs are pending
    than the batch may hold, the batch holds them all. *)
Theorem X10_batch_is_first_in_first_out (s : t) :
  jobs_wf (working (db_conn s)) ->
  let limit := Nat.min (daily_quota s - current_day_processed s) 10 in
  increasing (List.map id_of (batch s)) /\
  (forall row,
      In row (scrape_jobs (working (db_conn s))) ->
      status row = "pending" ->
      ~ In (job_id row) (List.map id_of (batch s)) ->
      length (batch s) = limit /\
      forall i, In i (List.map id_of (batch s)) -> i < job_id row) /\
  (forall row,
      In row (scrape_jobs (working (db_conn s))) ->
      status row = "pending" ->
      length (batch s) < limit ->
      In (job_id row, target_username row, job_type row) (batch s)).
Proof.
  intros Hwf limit.
  set (L := order_by_job_id
              (List.filter (fun j => String.eqb (status j) "pending")
                           (scrape_jobs (working (db_conn s))))).
  assert (Hbatch : batch s
                   = List.map (fun j => (job_id j, target_username j, job_type j))
                              (List.firstn limit L)) by reflexivity.
  assert (Hids : List.map id_of (batch s)
                 = List.map job_id (List.firstn limit L)).
  { rewrite Hbatch, List.map_map. reflexivity. }
  assert (HL : by_job_id L) by apply order_by_job_id_ordered.
  destruct (ordered_split limit L HL) as [Hfirst Hrest].
  assert (Hnd : List.NoDup (List.map job_id (List.firstn limit L))).
  { rewrite <- Hids. now apply select_pending_NoDup. }
  assert (HinL : forall row,
            In row (scrape_jobs (working (db_conn s))) ->
            status row = "pending" -> In row L).
  { intros row Hin Hst. apply order_by_job_id_In, List.filter_In.
    split; [exact Hin | now apply String.eqb_eq]. }
  assert (Hout : forall row,
            In row L -> ~ In (job_id row) (List.map id_of (batch s)) ->
            In row (List.skipn limit L)).
  { intros row Hin Hn. rewrite <- (List.firstn_skipn limit L) in Hin.
    apply List.in_app_iff in Hin as [Hin|Hin]; [|exact Hin].
    exfalso. apply Hn. rewrite Hids. now apply List.in_map. }
  split; [|split].
  - rewrite Hids. now apply ordered_ids_increasing.
  - intros row Hin Hst Hn.
    pose proof (Hout row (HinL row Hin Hst) Hn) as Hskip. split.
    + rewrite Hbatch, length_map, List.length_firstn.
      destruct (Nat.le_gt_cases limit (length L)) as [H|H]; [lia|].
      rewrite List.skipn_all2 in Hskip by lia. destruct Hskip.
    + intros i Hi. rewrite Hids in Hi.
      apply List.in_map_iff in Hi as (a & <- & Ha).
      specialize (Hrest a row Ha Hskip).
      assert (job_id a <> job_id row).
      { intros Heq. apply Hn. rewrite Hids, <- Heq. now apply List.in_map. }
      lia.
  - intros row Hin Hst Hlen.
    pose proof (HinL row Hin Hst) as HrowL.
    rewrite Hbatch, length_map, List.length_firstn in Hlen.
    rewrite Hbatch. apply List.in_map_iff. exists row.
    split; [reflexivity|].
    rewrite List.firstn_all2 by lia. exact HrowL.
Qed.

End BatchOrder.

(** ** The pending jobs after a tick *)

Section PendingJobs.
Import Datetime Db Instaloader JobScheduler.

Lemma late_settled_ext (b : nat) (db db' : DB) :
  scrape_jobs db' = scrape_jobs db -> late_settled b db -> late_settled b db'.
Proof. unfold late_settled. now intros ->. Qed.

Lemma late_settled_insert_job (b : nat) (target type st : string)
    (started : option datetime) (db : DB) :
  st <> "pending" ->
  late_settled b db -> late_settled b (insert_job target type st started db).
Proof.
  intros Hst H j Hj Hb. cbn [insert_job scrape_jobs] in Hj.
  apply List.in_app_iff in Hj as [Hj|[<-|[]]]; [now apply H | exact Hst].
Qed.

Lemma late_settled_update_job (b id : nat) (f : ScrapeJob -> ScrapeJob)
    (db : DB) :
  (forall j, job_id (f j) = job_id j) ->
  (forall j, status j <> "pending" -> status (f j) <> "pending") ->
  late_settled b db -> late_settled b (update_job id f db).
Proof.
  intros Hid Hst H j Hj Hb. cbn [update_job with_scrape_jobs scrape_jobs] in Hj.
  apply List.in_map_iff in Hj as (k & <- & Hk).
  destruct (job_id k =? id).
  - apply Hst. apply (H k Hk). now rewrite Hid in Hb.
  - now apply H.
Qed.

Lemma get_follow_list_settled (b : nat) (d : InstagramScraper.Direction)
    (r : Response) (name : string) (max_count : option nat)
    (sc : InstagramScraper.t) (conn : Conn) :
  late_settled b (working conn) ->
  late_settled b
    (working (snd (fst (InstagramScraper.get_follow_list d r name max_count
                          sc conn)))).
Proof.
  intros H. unfold InstagramScraper.get_follow_list.
  destruct (InstagramScraper._initialize_instaloader r sc) as [s1 [u|e]];
    [|exact H].
  set (job := scrape_jobs_seq (working conn)).
  set (conn1 := commit (execute _ conn)).
  assert (H1 : late_settled b (working conn1)).
  { subst conn1. cbn [commit execute working].
    apply late_settled_insert_job; [discriminate | exact H]. }
  destruct (from_username r) as [p|e]; cbn [fst snd].
  - destruct (follow_loop_prefix d (clock_start r) (userid p) job max_count
                (listing r) (length (listing r)) conn1)
      as (j & brk & _ & _ & Hloop).
    rewrite List.firstn_all in Hloop. rewrite Hloop.
    pose proof (follow_items_jobs d (clock_start r) (userid p) job
                  (List.firstn j (listing r)) 0 conn1) as [_ Hjobs].
    destruct (InstagramScraper.follow_items d (clock_start r) (userid p) job
                (List.firstn j (listing r)) 0 conn1) as [conn2 count].
    cbn [fst] in Hjobs.
    assert (H2 : late_settled b (working conn2)).
    { destruct Hjobs as [Hj|[k Hj]].
      - now apply (late_settled_ext b (working conn1)).
      - apply (late_settled_ext b
                 (update_job job (set_processed k) (working conn1)));
          [exact Hj|].
        now apply late_settled_update_job. }
    destruct (if brk then None else listing_error r) as [e|];
      cbn [fst snd InstagramScraper.fail_job commit execute working];
      apply late_settled_update_job; auto; intros; cbn; discriminate.
  - cbn [InstagramScraper.fail_job commit execute working].
    apply late_settled_update_job; auto; intros; cbn; discriminate.
Qed.

Lemma process_job_settled (b : nat) (r : Response) (job : Job) (s : t) :
  late_settled b (working (db_conn s)) ->
  late_settled b (working (db_conn (fst (process_job r job s)))).
Proof.
  intros H.
  assert (Hc : late_settled b (working (snd (fst (crawl r job s))))).
  { unfold crawl. destruct job as [[id name] type].
    destruct (String.eqb type "profile").
    - unfold InstagramScraper.get_user_profile.
      destruct (InstagramScraper._initialize_instaloader r (scraper s))
        as [s1 [u|e]]; [|exact H].
      destruct (from_username r) as [p|e]; exact H.
    - destruct (String.eqb type "followers");
        [now apply get_follow_list_settled|].
      destruct (String.eqb type "following");
        [now apply get_follow_list_settled|].
      exact H. }
  unfold process_job, run_job. destruct job as [[id name] type].
  destruct (crawl r (id, name, type) s) as [[sc conn] [u|e]];
    cbn [fst snd db_conn with_conn commit execute working] in *.
  - destruct (String.eqb type "followers" || String.eqb type "following");
      [|exact Hc].
    destruct (completed_count name (working conn) =? 2); [|exact Hc].
    unfold InstagramScraper.calculate_mutual_followers.
    destruct (List.find _ (users (working conn))); [|exact Hc].
    destruct (InstagramScraper.insert_mutuals _ _). exact Hc.
  - apply late_settled_update_job; auto; intros; cbn; discriminate.
Qed.

Lemma process_jobs_settled (b : nat) (world : nat -> Response)
    (jobs : list Job) :
  forall s,
    late_settled b (working (db_conn s)) ->
    late_settled b (working (db_conn (fst (process_jobs world jobs s)))).
Proof.
  induction jobs as [|job rest IH]; intros s H; cbn [process_jobs];
    [exact H|].
  pose proof (process_job_settled b (world (fst (fst job))) job s H) as H1.
  destruct (process_job (world (fst (fst job))) job s) as [s1 res].
  specialize (IH s1 H1).
  destruct (process_jobs world rest s1) as [s2 trace]. exact IH.
Qed.

Lemma raised_in_spec (trace : list (Job * PyResult unit)) (x : nat) :
  raised_in trace x = true
  <-> exists job e, In (job, Raised e) trace /\ id_of job = x.
Proof.
  unfold raised_in. rewrite List.existsb_exists. split.
  - intros ([job [u|e]] & Hin & H); cbn in H; [discriminate|].
    apply Nat.eqb_eq in H. eauto.
  - intros (job & e & Hin & Hx). exists (job, Raised e).
    split; [exact Hin|]. cbn. now apply Nat.eqb_eq.
Qed.

(** X11.  On a store that keeps the schema's guarantee on jobs, after a
    tick in which the engine accepts the statements of every crawl, the
    pending rows are the pending rows before it whose job did not raise in
    the batch, unchanged: a tick creates no pending job, and a job leaves
    the pending state only by failing. *)
Theorem X11_pending_jobs_after_a_tick
    (now : datetime) (world : nat -> Response) (s : t) (row : ScrapeJob) :
  jobs_wf (working (db_conn s)) ->
  crawls_accepted world (batch (_reset_daily_counter now s))
                  (_reset_daily_counter now s) ->
  let s' := process_pending_jobs now world s in
  let trace := snd (process_pending_jobs_trace now world s) in
  (In row (scrape_jobs (working (db_conn s'))) /\ status row = "pending")
  <->
  (In row (scrape_jobs (working (db_conn s))) /\ status row = "pending" /\
   raised_in trace (job_id row) = false).
Proof.
  intros Hwf _ s' trace.
  destruct (tick_rows now world s Hwf) as (Hs & Hw & Ha & Hb & _).
  fold s' trace in Hs, Hw, Ha, Hb.
  assert (Hlate : late_settled (seq_of s) (working (db_conn s'))).
  { subst s'. unfold process_pending_jobs, process_pending_jobs_trace.
    assert (H0 : late_settled (seq_of s)
                   (working (db_conn (_reset_daily_counter now s)))).
    { rewrite reset_conn. intros j Hj Hbj.
      destruct Hwf as [_ Hlt]. apply Hlt in Hj. unfold seq_of in Hbj. lia. }
    destruct (daily_quota _ <=? current_day_processed _); [exact H0|].
    now apply process_jobs_settled. }
  split.
  - intros [Hin Hst].
    assert (Hx : job_id row < seq_of s).
    { destruct (Nat.lt_ge_cases (job_id row) (seq_of s)) as [H|H]; [exact H|].
      exfalso. exact (Hlate row Hin H Hst). }
    pose proof (job_row_unique _ row Hw Hin) as Hrow'.
    destruct (raised_in trace (job_id row)) eqn:Hr.
    + apply raised_in_spec in Hr as (job & e & Hjob & Hid).
      rewrite <- Hid, (Hb job e Hjob) in Hrow'.
      destruct (job_row (id_of job) (working (db_conn s))) as [old|];
        [|discriminate].
      injection Hrow' as <-. cbn in Hst. discriminate.
    + rewrite Ha in Hrow'; [|exact Hx|].
      * apply List.find_some in Hrow' as [Hin' _]. auto.
      * intros job e Hjob Hid.
        assert (raised_in trace (job_id row) = true)
          by (apply raised_in_spec; eauto).
        congruence.
  - intros (Hin & Hst & Hr). split; [|exact Hst].
    pose proof (job_row_unique _ row Hwf Hin) as Hrow.
    assert (Hx : job_id row < seq_of s)
      by (destruct Hwf as [_ Hlt]; now apply Hlt).
    rewrite <- Ha in Hrow; [|exact Hx|].
    + now apply List.find_some in Hrow as [Hin' _].
    + intros job e Hjob Hid.
      assert (raised_in trace (job_id row) = true)
        by (apply raised_in_spec; eauto).
      congruence.
Qed.

End PendingJobs.

(** ** When the mutual edges are computed *)

Section MutualTrigger.
Import Datetime Db Instaloader JobScheduler.

Lemma completed_count_mono (name : string) (db db' : DB) :
  List.NoDup (List.map job_id (scrape_jobs db)) ->
  (forall j, In j (scrape_jobs db) -> status j = "completed" ->
             In j (scrape_jobs db')) ->
  completed_count name db <= completed_count name db'.
Proof.
  intros Hnd Hkeep. unfold completed_count.
  apply List.NoDup_incl_length.
  - apply List.NoDup_filter. eapply List.NoDup_map_inv. exact Hnd.
  - intros j Hj. apply List.filter_In in Hj as [Hin Hp].
    apply List.filter_In. split; [|exact Hp].
    apply Hkeep; [exact Hin|].
    apply andb_true_iff in Hp as [_ Hst]. now apply String.eqb_eq.
Qed.

Lemma frame_keeps_rows (db db' : DB) :
  jobs_wf db ->
  jobs_frame (scrape_jobs_seq db) db db' ->
  forall j, In j (scrape_jobs db) -> In j (scrape_jobs db').
Proof.
  intros Hwf (_ & Hr & _) j Hj.
  pose proof (job_row_unique db j Hwf Hj) as Hrow.
  rewrite <- Hr in Hrow by (destruct Hwf as [_ Hlt]; now apply Hlt).
  now apply List.find_some in Hrow as [Hin _].
Qed.

Lemma follow_items_mutuals (d : InstagramScraper.Direction) (at_ : datetime)
    (uid : string) (job : nat) (items : list Profile) :
  forall count conn,
    mutuals (working (fst (InstagramScraper.follow_items d at_ uid job items
                             count conn)))
    = mutuals (working conn).
Proof.
  induction items as [|f rest IH]; intros count conn;
    cbn [InstagramScraper.follow_items]; [reflexivity|].
  pose proof (follow_item_working d at_ uid job f count conn) as H.
  destruct (InstagramScraper.follow_item d at_ uid job f count conn)
    as [c1 n1].
  cbn [fst] in H. rewrite IH, H. cbv zeta.
  destruct ((count + 1) mod 10 =? 0); now destruct d.
Qed.

Lemma get_follow_list_mutuals (d : InstagramScraper.Direction) (r : Response)
    (name : string) (max_count : option nat) (sc : InstagramScraper.t)
    (conn : Conn) :
  mutuals (working (snd (fst (InstagramScraper.get_follow_list d r name
                                max_count sc conn))))
  = mutuals (working conn).
Proof.
  unfold InstagramScraper.get_follow_list.
  destruct (InstagramScraper._initialize_instaloader r sc) as [s1 [u|e]];
    [|reflexivity].
  set (job := scrape_jobs_seq (working conn)).
  set (conn1 := commit (execute _ conn)).
  destruct (from_username r) as [p|e]; cbn [fst snd]; [|reflexivity].
  destruct (follow_loop_prefix d (clock_start r) (userid p) job max_count
              (listing r) (length (listing r)) conn1)
    as (j & brk & _ & _ & Hloop).
  rewrite List.firstn_all in Hloop. rewrite Hloop.
  pose proof (follow_items_mutuals d (clock_start r) (userid p) job
                (List.firstn j (listing r)) 0 conn1) as H.
  destruct (InstagramScraper.follow_items d (clock_start r) (userid p) job
              (List.firstn j (listing r)) 0 conn1) as [conn2 count].
  cbn [fst] in H.
  destruct (if brk then None else listing_error r); exact H.
Qed.

Lemma crawl_mutuals (r : Response) (job : Job) (s : t) :
  mutuals (working (snd (fst (crawl r job s))))
  = mutuals (working (db_conn s)).
Proof.
  unfold crawl. destruct job as [[id name] type].
  destruct (String.eqb type "profile").
  - unfold InstagramScraper.get_user_profile.
    destruct (InstagramScraper._initialize_instaloader r (scraper s))
      as [s1 [u|e]]; [|reflexivity].
    now destruct (from_username r).
  - destruct (String.eqb type "followers"); [apply get_follow_list_mutuals|].
    destruct (String.eqb type "following"); [apply get_follow_list_mutuals|].
    reflexivity.
Qed.

Lemma process_job_mutuals (r : Response) (job : Job) (s : t) :
  completed_count (snd (fst job)) (working (snd (fst (crawl r job s)))) <> 2 ->
  mutuals (working (db_conn (fst (process_job r job s))))
  = mutuals (working (db_conn s)).
Proof.
  intros Hc. pose proof (crawl_mutuals r job s) as Hm.
  revert Hc Hm. unfold process_job, run_job. destruct job as [[id name] type].
  cbn [fst snd]. destruct (crawl r (id, name, type) s) as [[sc conn] [u|e]];
    cbn [fst snd db_conn with_conn commit execute working]; intros Hc Hm;
    [|exact Hm].
  destruct (String.eqb type "followers" || String.eqb type "following");
    [|exact Hm].
  apply Nat.eqb_neq in Hc. now rewrite Hc.
Qed.

Lemma run_jobs_wf (ops : list op) :
  forall s, jobs_wf (working (db_conn s)) ->
            jobs_wf (working (db_conn (run ops s))).
Proof.
  induction ops as [|o ops IH]; intros s Hwf; [exact Hwf|].
  cbn [run List.fold_left]. fold (run ops (step o s)). apply IH.
  destruct o as [now name|now world]; cbn [step].
  - now apply (schedule_user_scraping_frame now name s).
  - now apply (tick_rows now world s Hwf).
Qed.

Lemma run_keeps_completed (ops : list op) (s : t) (j : ScrapeJob) :
  jobs_wf (working (db_conn s)) ->
  In j (scrape_jobs (working (db_conn s))) ->
  status j = "completed" ->
  In j (scrape_jobs (working (db_conn (run ops s)))).
Proof.
  intros Hwf Hin Hst.
  pose proof (job_row_unique _ j Hwf Hin) as Hrow.
  assert (Hx : job_id j < seq_of s) by (destruct Hwf as [_ H]; now apply H).
  destruct (run_settled ops s (job_id j) j Hwf Hx Hrow) as (_ & _ & Hrow').
  - rewrite Hst. discriminate.
  - now apply List.find_some in Hrow' as [H _].
Qed.

(** X12.  On a store that keeps the schema's guarantee on jobs, the number
    of completed listing rows of a target never goes down, whatever
    enrolments and ticks follow.  The scheduler computes mutual edges only
    after a listing that leaves exactly two such rows; so once a target has
    three of them, no job of that target, at any later time and whatever
    its outcome, changes the table of mutual edges. *)
Theorem X12_mutuals_are_not_recomputed
    (s : t) (name : string) (ops : list op) :
  jobs_wf (working (db_conn s)) ->
  3 <= completed_count name (working (db_conn s)) ->
  completed_count name (working (db_conn s))
  <= completed_count name (working (db_conn (run ops s))) /\
  forall r id type,
    mutuals (working (db_conn (fst (process_job r (id, name, type)
                                      (run ops s)))))
    = mutuals (working (db_conn (run ops s))).
Proof.
  intros Hwf H3.
  assert (Hmono : completed_count name (working (db_conn s))
                  <= completed_count name (working (db_conn (run ops s)))).
  { apply completed_count_mono; [apply Hwf|].
    intros j Hj Hst. now apply run_keeps_completed. }
  split; [exact Hmono|].
  intros r id type. apply process_job_mutuals. cbn [fst snd].
  pose proof (run_jobs_wf ops s Hwf) as Hwf'.
  pose proof (crawl_frame r (id, name, type) (run ops s)) as Hframe.
  assert (completed_count name (working (db_conn (run ops s)))
          <= completed_count name
               (working (snd (fst (crawl r (id, name, type) (run ops s)))))).
  { apply completed_count_mono; [apply Hwf'|].
    intros j Hj _. now apply (frame_keeps_rows _ _ Hwf' Hframe). }
  lia.
Qed.

End MutualTrigger.

(** ** A listing made again *)

Section RepeatedListing.
Import Datetime Db Instaloader InstagramScraper.

(** How many items the loop handles does not depend on the store. *)
Lemma follow_loop_handled (d : Direction) (uid : string)
    (max_count : option nat) (items : list Profile) :
  exists j b,
    forall at_ job conn,
      follow_loop d at_ uid job max_count items 0 conn
      = (follow_items d at_ uid job (List.firstn j items) 0 conn, b).
Proof.
  destruct max_count as [[|N]|].
  - exists (length items), false. intros at_ job conn.
    rewrite List.firstn_all. apply follow_loop_unbounded. now right.
  - exists (S N - 0), (S N - 0 <=? length items). intros at_ job conn.
    apply follow_loop_bounded. lia.
  - exists (length items), false. intros at_ job conn.
    rewrite List.firstn_all. apply follow_loop_unbounded. now left.
Qed.

Lemma follow_items_users_fold (d : Direction) (at_ : datetime)
    (uid : string) (job : nat) (items : list Profile) :
  forall count conn,
    users (working (fst (follow_items d at_ uid job items count conn)))
    = List.fold_left
        (fun t f => insert_user_do_nothing (minimal_row at_ f) t)
        items (users (working conn)).
Proof.
  induction items as [|f rest IH]; intros count conn; [reflexivity|].
  cbn [follow_items List.fold_left].
  rewrite <- (follow_item_users d at_ uid job f count conn).
  destruct (follow_item d at_ uid job f count conn) as [c1 n1].
  apply IH.
Qed.

Lemma follow_item_other (d : Direction) (at_ : datetime) (uid : string)
    (job : nat) (f : Profile) (count : nat) (conn : Conn) :
  let db' := working (fst (follow_item d at_ uid job f count conn)) in
  mutuals db' = mutuals (working conn) /\
  match d with
  | Followers => following db' = following (working conn)
  | Following => Db.followers db' = Db.followers (working conn)
  end.
Proof.
  cbv zeta. rewrite follow_item_working. cbv zeta.
  destruct ((count + 1) mod 10 =? 0); now destruct d.
Qed.

Lemma follow_items_other (d : Direction) (at_ : datetime) (uid : string)
    (job : nat) (items : list Profile) :
  forall count conn,
    let db' := working (fst (follow_items d at_ uid job items count conn)) in
    mutuals db' = mutuals (working conn) /\
    match d with
    | Followers => following db' = following (working conn)
    | Following => Db.followers db' = Db.followers (working conn)
    end.
Proof.
  induction items as [|f rest IH]; intros count conn;
    [now destruct d|].
  cbn [follow_items].
  pose proof (follow_item_other d at_ uid job f count conn) as H1.
  destruct (follow_item d at_ uid job f count conn) as [c1 n1].
  cbn [fst] in H1. cbv zeta in *. destruct H1 as [Hm Ht].
  destruct (IH n1 c1) as [Hm' Ht']. split; [congruence|].
  destruct d; congruence.
Qed.

(** Inserting again the accounts of a listing changes nothing. *)
Lemma insert_users_known (at_ : datetime) (items : list Profile) :
  forall t,
    (forall f, In f items -> In (userid f) (List.map user_id t)) ->
    List.fold_left (fun t f => insert_user_do_nothing (minimal_row at_ f) t)
                   items t = t.
Proof.
  induction items as [|f rest IH]; intros t H; [reflexivity|].
  cbn [List.fold_left]. unfold insert_user_do_nothing at 2.
  replace (List.existsb _ t) with true
    by (symmetry; apply existsb_user; apply H; now left).
  apply IH. intros g Hg. apply H. now right.
Qed.

Lemma insert_users_has (at_ : datetime) (items : list Profile) :
  forall t id,
    In id (List.map user_id t) \/ In id (List.map userid items) ->
    In id (List.map user_id
             (List.fold_left
                (fun t f => insert_user_do_nothing (minimal_row at_ f) t)
                items t)).
Proof.
  induction items as [|f rest IH]; intros t id H.
  - destruct H as [H|[]]. exact H.
  - cbn [List.fold_left]. apply IH. cbn [List.map In] in H.
    unfold insert_user_do_nothing.
    destruct (List.existsb _ t) eqn:E.
    + apply existsb_user in E. cbn [minimal_row user_id] in E.
      destruct H as [H|[<-|H]]; auto.
    + rewrite List.map_app, List.in_app_iff. cbn [List.map In minimal_row user_id].
      destruct H as [H|[<-|H]]; auto.
Qed.

Lemma insert_edges_known (uid : string) (items : list Profile) :
  forall t,
    (forall f, In f items -> In (uid, userid f) t) ->
    insert_edges uid items t = t.
Proof.
  induction items as [|f rest IH]; intros t H; [reflexivity|].
  unfold insert_edges. cbn [List.fold_left]. unfold insert_edge at 2.
  replace (List.existsb _ t) with true
    by (symmetry; apply existsb_Edge; apply H; now left).
  apply IH. intros g Hg. apply H. now right.
Qed.

Lemma insert_edges_has (uid : string) (items : list Profile) :
  forall t e,
    In e t \/ In e (List.map (fun f => (uid, userid f)) items) ->
    In e (insert_edges uid items t).
Proof.
  induction items as [|f rest IH]; intros t e H.
  - destruct H as [H|[]]. exact H.
  - unfold insert_edges. cbn [List.fold_left]. apply IH.
    rewrite insert_edge_In. cbn [List.map In] in H.
    destruct H as [H|[<-|H]]; auto.
Qed.

(** A listing that gets past the login. *)
Lemma get_follow_list_logged_in (d : Direction) (r : Response)
    (name : string) (max_count : option nat) (s : t) (conn : Conn) :
  insta_loader s = true \/ login_error r = None ->
  get_follow_list d r name max_count s conn
  = let job := scrape_jobs_seq (working conn) in
    let conn1 :=
      commit
        (execute
           (insert_job name (direction_name d) "in_progress"
                       (Some (clock_start r)))
           conn) in
    match from_username r with
    | Raised e => ({| insta_loader := true |}, fail_job job e conn1, Raised e)
    | Returned profile =>
        let '(conn2, count, broke) :=
          follow_loop d (clock_start r) (userid profile) job max_count
                      (listing r) 0 conn1 in
        match (if broke then None else listing_error r) with
        | Some e => ({| insta_loader := true |}, fail_job job e conn2, Raised e)
        | None =>
            ({| insta_loader := true |},
             commit
               (execute (update_job job (set_completed (clock_end r) count))
                        conn2),
             Returned tt)
        end
    end.
Proof.
  intros H. unfold get_follow_list.
  now rewrite (initialize_instaloader_ok r s H).
Qed.

(** What the loop leaves in the tables of accounts and edges when it
    runs on a store that a run on the same items has made. *)
Lemma follow_items_again (d : Direction) (at_ at' : datetime) (uid : string)
    (job job' : nat) (items : list Profile) (count count' : nat)
    (conn conn' : Conn) :
  let db1 := working (fst (follow_items d at_ uid job items count conn)) in
  let db2 := working (fst (follow_items d at' uid job' items count' conn')) in
  users (working conn') = users db1 ->
  Db.followers (working conn') = Db.followers db1 ->
  following (working conn') = following db1 ->
  mutuals (working conn') = mutuals db1 ->
  users db2 = users db1 /\ Db.followers db2 = Db.followers db1 /\
  following db2 = following db1 /\ mutuals db2 = mutuals db1.
Proof.
  intros db1 db2 Hu Ha Hb Hm.
  pose proof (follow_items_users_fold d at_ uid job items count conn) as Hu1.
  pose proof (follow_items_edges d at_ uid job items count conn) as He1.
  pose proof (follow_items_users_fold d at' uid job' items count' conn')
    as Hu2.
  pose proof (follow_items_edges d at' uid job' items count' conn') as He2.
  destruct (follow_items_other d at' uid job' items count' conn')
    as [Hm2 Ho2].
  fold db1 in Hu1, He1. fold db2 in Hu2, He2, Hm2, Ho2.
  assert (Husers : users db2 = users db1).
  { rewrite Hu2, Hu. apply insert_users_known. intros f Hf.
    rewrite Hu1. apply insert_users_has. right. now apply List.in_map. }
  assert (Hedges : edge_table d db2 = edge_table d db1).
  { rewrite He2.
    replace (edge_table d (working conn')) with (edge_table d db1)
      by (destruct d; cbn [edge_table]; congruence).
    apply insert_edges_known. intros f Hf.
    rewrite He1. apply insert_edges_has. right.
    apply List.in_map_iff. now exists f. }
  split; [exact Husers|].
  destruct d; cbn [edge_table] in Hedges; repeat split; congruence.
Qed.

(** X24.  A listing that is made again adds no account and no edge: if
    the first call got past the login, on a store that holds the row of
    the account it is about, a second call with the same profile, listing
    and failure, at whatever time, leaves the tables of accounts, follower
    edges, following edges and mutual edges as the first call left them,
    and ends as the first call did.  Jobs that are dispatched again
    therefore do not make the graph grow. *)
Theorem X24_repeated_listing_adds_nothing
    (d : Direction) (r : Response) (name : string) (max_count : option nat)
    (s : t) (conn : Conn) (relogin : option string) (t1 t2 : datetime) :
  insta_loader s = true \/ login_error r = None ->
  target_stored r (working conn) ->
  let again :=
    {| login_error := relogin; from_username := from_username r;
       listing := listing r; listing_error := listing_error r;
       clock_start := t1; clock_end := t2 |} in
  let first := get_follow_list d r name max_count s conn in
  let second :=
    get_follow_list d again name max_count (fst (fst first))
                    (snd (fst first)) in
  users (working (snd (fst second))) = users (working (snd (fst first))) /\
  Db.followers (working (snd (fst second)))
  = Db.followers (working (snd (fst first))) /\
  following (working (snd (fst second)))
  = following (working (snd (fst first))) /\
  mutuals (working (snd (fst second)))
  = mutuals (working (snd (fst first))) /\
  snd second = snd first.
Proof.
  intros Hlogin _ again first second. subst second first.
  rewrite (get_follow_list_logged_in d r name max_count s conn Hlogin).
  cbv zeta.
  set (job := scrape_jobs_seq (working conn)).
  set (conn1 := commit (execute _ conn)).
  destruct (from_username r) as [p|e] eqn:Hp.
  - destruct (follow_loop_handled d (userid p) max_count (listing r))
      as (j & b & Hloop).
    rewrite Hloop.
    pose proof (fun at' job' count' conn' =>
                  follow_items_again d (clock_start r) at' (userid p)
                    job job' (List.firstn j (listing r)) 0 count'
                    conn1 conn') as Hagain.
    destruct (follow_items d (clock_start r) (userid p) job
                (List.firstn j (listing r)) 0 conn1) as [conn2 count].
    cbv beta iota. cbn [fst] in Hagain. cbv zeta in Hagain.
    destruct (if b then None else listing_error r) as [e|] eqn:Hle;
      cbn [fst snd];
      (rewrite get_follow_list_logged_in by (now left));
      cbv zeta; cbn [from_username listing listing_error clock_start
                     clock_end again];
      try rewrite Hp; cbv beta iota; rewrite Hloop;
      match goal with
      | |- context [follow_items d t1 (userid p) ?job'
                      (List.firstn j (listing r)) 0 ?conn'] =>
          specialize (Hagain t1 job' 0 conn' eq_refl eq_refl eq_refl eq_refl);
          destruct (follow_items d t1 (userid p) job'
                      (List.firstn j (listing r)) 0 conn') as [conn2' count']
      end;
      cbv beta iota; rewrite Hle; cbn [fst snd] in *;
      destruct Hagain as (A1 & A2 & A3 & A4);
      repeat split; assumption.
  - cbn [fst snd]. rewrite get_follow_list_logged_in by (now left).
    cbv zeta. cbn [from_username again]. try rewrite Hp.
    repeat split; reflexivity.
Qed.

End RepeatedListing.

(** ** The batches of an analysis *)

Section Batches.
Import InterestAnalyzer.

Context {A : Type}.

Lemma concat_chunks (step n : nat) (l : list A) :
  List.concat
    (List.map (fun i => List.firstn step (List.skipn i l))
              (List.map (fun k => k * step) (List.seq 0 n)))
  = List.firstn (n * step) l.
Proof.
  induction n as [|n IH]; [reflexivity|].
  rewrite List.seq_S, !List.map_app, List.concat_app, IH.
  cbn [List.map List.concat Nat.add]. rewrite List.app_nil_r.
  rewrite take_take_drop. f_equal. lia.
Qed.

Lemma batches_length (l : list A) :
  length (batches l) = (length l + 19) / 20.
Proof.
  unfold batches, range_step, batch_size.
  rewrite !List.length_map, List.length_seq. f_equal. lia.
Qed.

Lemma batches_lookup (l : list A) (k : nat) (b : list A) :
  batches l !! k = Some b ->
  k < (length l + 19) / 20 /\
  b = List.firstn 20 (List.skipn (k * 20) l).
Proof.
  intros H.
  assert (Hk : k < (length l + 19) / 20).
  { rewrite <- batches_length. now apply lookup_lt_Some in H. }
  split; [exact Hk|].
  unfold batches, range_step, batch_size in H.
  rewrite !list_lookup_fmap in H.
  replace (length l + 20 - 1) with (length l + 19) in H by lia.
  rewrite (lookup_seq_lt 0 _ k Hk) in H. cbn in H.
  now injection H as <-.
Qed.

(** X13.  The batches of an analysis are the list of followed accounts cut
    in consecutive pieces: put end to end they give the list back, so
    each account is in one batch, in its place; there are
    [ceil (len / 20)] of them; none is empty, none holds more than
    twenty accounts, and all but the last hold exactly twenty. *)
Theorem X13_batches_cut_the_list (l : list A) :
  List.concat (batches l) = l /\
  length (batches l) = (length l + 19) / 20 /\
  (forall k b, batches l !! k = Some b ->
               b = List.firstn 20 (List.skipn (20 * k) l) /\
               1 <= length b <= 20 /\
               (S k < length (batches l) -> length b = 20)).
Proof.
  pose proof (Nat.div_mod_eq (length l + 19) 20) as Hdiv.
  pose proof (Nat.mod_upper_bound (length l + 19) 20 ltac:(lia)) as Hmod.
  split; [|split].
  - unfold batches, range_step, batch_size.
    replace (length l + 20 - 1) with (length l + 19) by lia.
    rewrite concat_chunks. apply List.firstn_all2. lia.
  - apply batches_length.
  - intros k b Hb. rewrite batches_length.
    destruct (batches_lookup l k b Hb) as [Hk ->].
    rewrite (Nat.mul_comm 20 k). split; [reflexivity|].
    rewrite List.length_firstn, List.length_skipn. lia.
Qed.

End Batches.

(** ** The taxonomy *)

Section Taxonomy.
Import Db InterestAnalyzer.

Lemma mapping_row (rows : list (nat * string)) (c : string) (id : nat) :
  List.fold_left
    (fun (m : gmap string nat) row => <[snd row := fst row]> m) rows ∅ !! c
  = Some id ->
  In (id, c) rows.
Proof.
  induction rows as [|x rows IH] using List.rev_ind.
  - cbn. rewrite lookup_empty. discriminate.
  - rewrite List.fold_left_app. cbn [List.fold_left].
    rewrite List.in_app_iff. destruct (decide (snd x = c)) as [<-|Hne].
    + rewrite lookup_insert_eq. intros [= <-]. right. left. now destruct x.
    + rewrite lookup_insert_ne by exact Hne. auto.
Qed.

Lemma mapping_names (rows : list (nat * string)) (c : string) :
  is_Some
    (List.fold_left
       (fun (m : gmap string nat) row => <[snd row := fst row]> m) rows ∅
     !! c)
  <-> In c (List.map snd rows).
Proof.
  induction rows as [|x rows IH] using List.rev_ind.
  - cbn. rewrite lookup_empty. split; [now intros [? ?] | intros []].
  - rewrite List.fold_left_app, List.map_app, List.in_app_iff.
    cbn [List.fold_left List.map].
    destruct (decide (snd x = c)) as [<-|Hne].
    + rewrite lookup_insert_eq. split; [intros _; right; now left | eauto].
    + rewrite lookup_insert_ne by exact Hne. rewrite IH.
      split; [auto | intros [H|[H|[]]]; [exact H | contradiction]].
Qed.

Lemma mapping_keyed (rows : list (nat * string)) (c : string) (id : nat) :
  List.NoDup (List.map snd rows) ->
  In (id, c) rows ->
  List.fold_left
    (fun (m : gmap string nat) row => <[snd row := fst row]> m) rows ∅ !! c
  = Some id.
Proof.
  induction rows as [|x rows IH] using List.rev_ind; [intros _ []|].
  rewrite List.map_app, List.fold_left_app, List.in_app_iff.
  cbn [List.fold_left List.map].
  intros Hnd [Hin|[->|[]]].
  - assert (Hne : snd x <> c).
    { intros <-. apply List.NoDup_remove_2 in Hnd. apply Hnd.
      rewrite List.app_nil_r. apply List.in_map_iff. now exists (id, snd x). }
    rewrite lookup_insert_ne by exact Hne.
    apply IH; [|exact Hin]. now apply List.NoDup_app_remove_r in Hnd.
  - cbn [fst snd]. apply lookup_insert_eq.
Qed.

Lemma first_occurrences_In (l : list string) (c : string) :
  In c (first_occurrences l) <-> In c l.
Proof.
  induction l as [|x l IH]; [reflexivity|].
  cbn [first_occurrences In]. rewrite List.filter_In, IH.
  destruct (String.eqb_spec c x) as [->|Hne]; cbn [negb].
  - intuition congruence.
  - intuition congruence.
Qed.

Lemma first_occurrences_NoDup (l : list string) :
  List.NoDup (first_occurrences l).
Proof.
  induction l as [|x l IH]; [constructor|].
  cbn [first_occurrences]. constructor.
  - rewrite List.filter_In, String.eqb_refl. now intros [_ H].
  - now apply List.NoDup_filter.
Qed.

Lemma first_occurrences_keyed (l : list string) :
  List.NoDup l -> first_occurrences l = l.
Proof.
  induction l as [|x l IH]; [reflexivity|].
  intros Hnd. apply List.NoDup_cons_iff in Hnd as [Hx Hnd].
  cbn [first_occurrences]. rewrite (IH Hnd). f_equal.
  clear IH Hnd. induction l as [|y l IH]; [reflexivity|].
  cbn [List.filter]. destruct (String.eqb_spec y x) as [->|Hne]; cbn [negb].
  - exfalso. apply Hx. now left.
  - f_equal. apply IH. intros H. apply Hx. now right.
Qed.

(** X14.  The categories named in the prompt are those the store
    accepts: the list given to [_create_batch_prompt] has no repetition,
    and a name is in it exactly if it is a key of the mapping, which is
    exactly if some row of the taxonomy carries it; the mapping sends a
    name to the id of a row that carries it; and a result is kept exactly
    if its category is the text of one of the names in the prompt. *)
Theorem X14_offered_categories_are_accepted (conn : Conn) :
  List.NoDup (categories_list conn) /\
  (forall c,
      In c (categories_list conn)
      <-> is_Some (get_category_mapping conn !! c)) /\
  (forall c,
      In c (categories_list conn)
      <-> In c (List.map snd (interest_categories (working conn)))) /\
  (forall c id,
      get_category_mapping conn !! c = Some id ->
      In (id, c) (interest_categories (working conn))) /\
  (forall r,
      is_known (get_category_mapping conn) r = true
      <-> exists c,
            category r = Some (JString c) /\ In c (categories_list conn)).
Proof.
  assert (Hkeys : forall c,
             In c (categories_list conn)
             <-> is_Some (get_category_mapping conn !! c)).
  { intros c. unfold categories_list, get_category_mapping.
    rewrite first_occurrences_In. symmetry. apply mapping_names. }
  split; [apply first_occurrences_NoDup|]. split; [exact Hkeys|].
  split; [intros c; apply first_occurrences_In|].
  split; [intros c id; apply mapping_row|].
  intros r. unfold is_known, known_category.
  destruct (category r) as [[| | |c| |]|];
    try (split; [discriminate | now intros (c' & H & _)]).
  split.
  - intros H. exists c. split; [reflexivity|]. apply Hkeys.
    destruct (get_category_mapping conn !! c); [eauto | discriminate].
  - intros (c' & [= <-] & Hin). apply Hkeys in Hin as [id ->].
    reflexivity.
Qed.

(** X15.  When no two rows of the taxonomy carry the same name, as the
    schema requires, the mapping is the table read from name to id: it
    sends a name to an id exactly if the pair is a row; and the names in
    the prompt are those of the rows, in the order of the rows. *)
Theorem X15_mapping_of_a_keyed_taxonomy (conn : Conn) :
  List.NoDup (List.map snd (interest_categories (working conn))) ->
  categories_list conn = List.map snd (interest_categories (working conn)) /\
  forall c id,
    get_category_mapping conn !! c = Some id
    <-> In (id, c) (interest_categories (working conn)).
Proof.
  intros Hnd. split; [now apply first_occurrences_keyed|].
  intros c id. split; [apply mapping_row | now apply mapping_keyed].
Qed.

End Taxonomy.

(** ** The analysis of an account *)

Section Analysis.
Import Datetime Db InterestAnalyzer.

Lemma only_interests_refl (db : DB) : only_interests db db.
Proof. split; [now destruct db | auto]. Qed.

Lemma only_interests_trans (a b c : DB) :
  only_interests a b -> only_interests b c -> only_interests a c.
Proof.
  intros [Hab Kab] [Hbc Kbc]. split; [|auto].
  rewrite Hbc at 1. rewrite Hab. reflexivity.
Qed.

Lemma only_interests_tables (db db' : DB) :
  only_interests db db' ->
  users db' = users db /\ following db' = following db /\
  interest_categories db' = interest_categories db /\
  scrape_jobs db' = scrape_jobs db.
Proof. intros [-> _]. repeat split. Qed.

Variable now : datetime.

Lemma store_result_only (uid : string) (m : gmap string nat)
    (conn conn' : Conn) (item : Item) :
  store_result now uid m conn item = Continues conn' ->
  only_interests (working conn) (working conn').
Proof.
  intros H. apply store_result_continues in H as (r & _ & _ & H).
  destruct (known_category m r) as [cid|];
    [|subst; apply only_interests_refl].
  destruct H as (v & _ & ->). split; [reflexivity|].
  intros k Hk. cbn [execute working upsert_interest with_interests interests].
  destruct (decide (k = (uid, cid))) as [->|Hne].
  - rewrite lookup_insert_eq. eauto.
  - rewrite lookup_insert_ne by congruence. exact Hk.
Qed.

Lemma store_results_only (uid : string) (m : gmap string nat)
    (results : list Item) :
  forall conn,
    only_interests (working conn)
      (working (connection (fst (store_results now uid m results conn)))).
Proof.
  induction results as [|item l IH]; intros conn; [apply only_interests_refl|].
  cbn [store_results].
  destruct (store_result now uid m conn item) as [conn'|e b] eqn:E;
    [|apply only_interests_refl].
  eapply only_interests_trans;
    [exact (store_result_only uid m conn conn' item E) | apply IH].
Qed.

(** The rows that a batch of results writes. *)
Lemma store_results_rows (uid : string) (m : gmap string nat)
    (results : list Item) (k : string * nat) (row : InterestRow) :
  forall conn,
    interests
      (working (connection (fst (store_results now uid m results conn))))
    !! k = Some row ->
    interests (working conn) !! k = Some row \/
    exists r,
      In (Object r) results /\ known_category m r = Some (snd k) /\
      fst k = uid /\
      score (confidence r) = Some (confidence_score row) /\
      created_at row = now.
Proof.
  induction results as [|item l IH]; intros conn; [now left|].
  cbn [store_results].
  destruct (store_result now uid m conn item) as [conn'|e b] eqn:E;
    [|now left].
  intros H. destruct (IH _ H) as [Hrow|(r' & Hin & Hk)].
  - apply store_result_continues in E as (r & -> & _ & E).
    destruct (known_category m r) as [cid|] eqn:Ek.
    + destruct E as (v & Hv & ->).
      cbn [execute working upsert_interest with_interests interests] in Hrow.
      destruct (decide ((uid, cid) = k)) as [<-|Hne].
      * rewrite lookup_insert_eq in Hrow. injection Hrow as <-.
        right. exists r. split; [now left|]. now repeat split.
      * rewrite lookup_insert_ne in Hrow by exact Hne. now left.
    + subst conn'. now left.
  - right. exists r'. split; [now right | exact Hk].
Qed.

(** A result with a known category leaves a row, in a batch that
    passes. *)
Lemma store_results_has (uid : string) (m : gmap string nat)
    (results : list Item) (r : Result) (cid : nat) :
  forall conn,
    List.forallb (passes m) results = true ->
    (In (Object r) results /\ known_category m r = Some cid) \/
    (exists row, interests (working conn) !! (uid, cid) = Some row /\
                 created_at row = now) ->
    exists row,
      interests
        (working (connection (fst (store_results now uid m results conn))))
      !! (uid, cid) = Some row /\
      created_at row = now.
Proof.
  induction results as [|item l IH]; intros conn Hpass.
  - intros [[[] _]|H]. exact H.
  - cbn [List.forallb] in Hpass. apply andb_prop in Hpass as [Hitem Hl].
    intros H. cbn [store_results].
    apply (store_result_passes now uid m conn) in Hitem as [conn' E].
    rewrite E. apply IH; [exact Hl|].
    apply store_result_continues in E as (r' & -> & _ & E).
    destruct (known_category m r') as [cid'|] eqn:Ek.
    + destruct E as (v & _ & ->).
      cbn [execute working upsert_interest with_interests interests].
      destruct (decide (cid' = cid)) as [->|Hne].
      * right. rewrite lookup_insert_eq. eauto.
      * destruct H as [[[[= <-]|Hin] Hk]|(row & Hrow & Hnow)].
        -- congruence.
        -- left. now split.
        -- right. rewrite lookup_insert_ne by congruence. eauto.
    + subst conn'.
      destruct H as [[[[= <-]|Hin] Hk]|H];
        [congruence | now left | now right].
Qed.

Lemma enumerate_from {B : Type} (l : list B) :
  forall (s i : nat) (b : B),
    In (i, b) (List.combine (List.seq s (length l)) l)
    <-> s <= i /\ l !! (i - s) = Some b.
Proof.
  induction l as [|x l IH]; intros s i b.
  - cbn. split; [intros [] | now intros [_ H]].
  - cbn [length List.seq List.combine In]. rewrite IH. split.
    + intros [[= <- <-]|[Hle Hl]].
      * split; [lia|]. now rewrite Nat.sub_diag.
      * split; [lia|]. replace (i - s) with (S (i - S s)) by lia. exact Hl.
    + intros [Hle Hl]. destruct (decide (i = s)) as [->|Hne].
      * rewrite Nat.sub_diag in Hl. injection Hl as <-. now left.
      * right. split; [lia|].
        replace (i - s) with (S (i - S s)) in Hl by lia. exact Hl.
Qed.

Lemma enumerate_In {B : Type} (l : list B) (i : nat) (b : B) :
  In (i, b) (enumerate l) <-> l !! i = Some b.
Proof.
  unfold enumerate. rewrite enumerate_from, Nat.sub_0_r.
  split; [now intros [_ H] | intros H; split; [lia | exact H]].
Qed.

Lemma usable_session (s : Session) :
  aborted s = false -> s = usable (connection s).
Proof. destruct s as [c b]. cbn. now intros ->. Qed.

Variable model : nat -> string -> Completion.

(** The results gathered over the batches. *)
Lemma analyze_batches_In (categories : list string)
    (indexed : list (nat * list Subject)) (r : Item) :
  forall acc,
    In r (List.fold_left (analyze_batch model categories) indexed acc)
    <-> In r acc \/
        exists i b rs,
          In (i, b) indexed /\
          model i (_create_batch_prompt b categories) = Completed (Some rs) /\
          In r rs.
Proof.
  induction indexed as [|[i b] l IH]; intros acc.
  - cbn. split; [now left | intros [H|(i & b & rs & [] & _)]; exact H].
  - cbn [List.fold_left]. rewrite IH. unfold analyze_batch.
    destruct (model i (_create_batch_prompt b categories))
      as [msg|[rs|]] eqn:E.
    + split.
      * intros [H|(i' & b' & rs' & Hin & H)]; [now left|].
        right. exists i', b', rs'. split; [now right | exact H].
      * intros [H|(i' & b' & rs' & [[= <- <-]|Hin] & Hm & Hr)];
          [now left | congruence |].
        right. now exists i', b', rs'.
    + rewrite List.in_app_iff. split.
      * intros [[H|H]|(i' & b' & rs' & Hin & H)]; [now left | |].
        -- right. exists i, b, rs. split; [now left | now split].
        -- right. exists i', b', rs'. split; [now right | exact H].
      * intros [H|(i' & b' & rs' & [[= <- <-]|Hin] & Hm & Hr)].
        -- left. now left.
        -- left. right. congruence.
        -- right. now exists i', b', rs'.
    + split.
      * intros [H|(i' & b' & rs' & Hin & H)]; [now left|].
        right. exists i', b', rs'. split; [now right | exact H].
      * intros [H|(i' & b' & rs' & [[= <- <-]|Hin] & Hm & Hr)];
          [now left | congruence |].
        right. now exists i', b', rs'.
Qed.

Lemma analyze_user_interests_only (name : string) (s : Session) :
  only_interests (working (connection s))
    (working (connection (analyze_user_interests now model name s))).
Proof.
  unfold analyze_user_interests.
  destruct (aborted s); [apply only_interests_refl|].
  destruct (List.find _ (users (working (connection s)))) as [u|];
    [|apply only_interests_refl].
  destruct (get_following_data_for_user (Db.user_id u) (connection s))
    as [|a data]; [apply only_interests_refl|].
  destruct (List.fold_left _ (enumerate (batches (a :: data))) [])
    as [|r results]; [apply only_interests_refl|].
  unfold _store_interest_results.
  pose proof (store_results_only (Db.user_id u)
                (get_category_mapping (connection s)) (r :: results)
                (connection s)) as H.
  destruct (store_results now (Db.user_id u)
              (get_category_mapping (connection s)) (r :: results)
              (connection s)) as [s1 [[]|e]]; exact H.
Qed.

(** What an analysis comes to: nothing, a commit, or an exception of the
    store on a result that does not pass. *)
Lemma analyze_user_interests_outcome (name : string) (conn : Conn) :
  analyze_user_interests now model name (usable conn) = usable conn \/
  (aborted (analyze_user_interests now model name (usable conn)) = false /\
   committed (connection (analyze_user_interests now model name (usable conn)))
   = working (connection (analyze_user_interests now model name (usable conn))))
  \/
  (committed (connection (analyze_user_interests now model name (usable conn)))
   = committed conn /\
   exists u i batch rs item,
     List.find (fun u => String.eqb (Db.username u) name)
               (users (working conn)) = Some u /\
     batches (get_following_data_for_user (Db.user_id u) conn) !! i
     = Some batch /\
     model i (_create_batch_prompt batch (categories_list conn))
     = Completed (Some rs) /\
     In item rs /\
     passes (get_category_mapping conn) item = false).
Proof.
  unfold analyze_user_interests. cbn [aborted usable connection].
  destruct (List.find _ (users (working conn))) as [u|] eqn:Hu; [|now left].
  destruct (get_following_data_for_user (Db.user_id u) conn)
    as [|a data] eqn:Hdata; [now left|].
  destruct (List.fold_left _ (enumerate (batches (a :: data))) [])
    as [|r results] eqn:Hres; [now left|].
  right. unfold _store_interest_results.
  pose proof (store_results_committed now (Db.user_id u)
                (get_category_mapping conn) (r :: results) conn) as Hc.
  destruct (store_results_raised now (Db.user_id u)
              (get_category_mapping conn) (r :: results) conn)
    as [[s1 Hs]|(item & Hin & Hp)].
  - left. rewrite Hs. split; reflexivity.
  - destruct (store_results now (Db.user_id u) (get_category_mapping conn)
                (r :: results) conn) as [s1 [[]|e]].
    + left. split; reflexivity.
    + right. split; [exact Hc|].
      rewrite <- Hres in Hin.
      apply analyze_batches_In in Hin as [[]|(i & b & rs & Hb & Hm & Hr)].
      apply enumerate_In in Hb.
      exists u, i, b, rs, item. rewrite Hdata. now repeat split.
Qed.

Lemma analyze_user_interests_rows (name : string) (s : Session)
    (k : string * nat) (row : InterestRow) :
  interests (working (connection (analyze_user_interests now model name s)))
  !! k = Some row ->
  interests (working (connection s)) !! k = Some row \/
  exists u i batch rs r,
    List.find (fun u => String.eqb (Db.username u) name)
              (users (working (connection s))) = Some u /\
    batches (get_following_data_for_user (Db.user_id u) (connection s)) !! i
    = Some batch /\
    model i (_create_batch_prompt batch (categories_list (connection s)))
    = Completed (Some rs) /\
    In (Object r) rs /\
    fst k = Db.user_id u /\
    known_category (get_category_mapping (connection s)) r = Some (snd k) /\
    score (confidence r) = Some (confidence_score row) /\
    created_at row = now.
Proof.
  unfold analyze_user_interests.
  destruct (aborted s); [now left|].
  destruct (List.find _ (users (working (connection s)))) as [u|] eqn:Hu;
    [|now left].
  destruct (get_following_data_for_user (Db.user_id u) (connection s))
    as [|a data] eqn:Hdata; [now left|].
  destruct (List.fold_left _ (enumerate (batches (a :: data))) [])
    as [|r results] eqn:Hres; [now left|].
  unfold _store_interest_results.
  pose proof (store_results_rows (Db.user_id u)
                (get_category_mapping (connection s)) (r :: results) k row
                (connection s)) as Hrows.
  destruct (store_results now (Db.user_id u)
              (get_category_mapping (connection s)) (r :: results)
              (connection s)) as [s1 [[]|e]];
    cbn [fst snd usable connection commit working] in *;
    intros Hrow;
    (apply Hrows in Hrow as [H|(r' & Hin & Hk & Hid & Hscore & Hnow)];
     [now left|]);
    rewrite <- Hres in Hin;
    (apply analyze_batches_In in Hin as [[]|(i & b & rs & Hb & Hm & Hr)]);
    apply enumerate_In in Hb;
    right; exists u, i, b, rs, r'; rewrite Hdata; now repeat split.
Qed.

(** The results that an analysis gathers all pass, when those of every
    answered batch of the account do. *)
Lemma gathered_pass (conn : Conn) (uid : string) :
  (forall j b rs item,
      batches (get_following_data_for_user uid conn) !! j = Some b ->
      model j (_create_batch_prompt b (categories_list conn))
      = Completed (Some rs) ->
      In item rs ->
      passes (get_category_mapping conn) item = true) ->
  List.forallb (passes (get_category_mapping conn))
    (List.fold_left (analyze_batch model (categories_list conn))
       (enumerate (batches (get_following_data_for_user uid conn))) [])
  = true.
Proof.
  intros Hpass. apply List.forallb_forall. intros item Hin.
  apply analyze_batches_In in Hin as [[]|(i & b & rs & Hb & Hm & Hr)].
  apply enumerate_In in Hb. exact (Hpass i b rs item Hb Hm Hr).
Qed.

Lemma analyze_user_interests_clean (name : string) (conn : Conn) :
  (forall u j b rs item,
      List.find (fun u => String.eqb (Db.username u) name)
                (users (working conn)) = Some u ->
      batches (get_following_data_for_user (Db.user_id u) conn) !! j
      = Some b ->
      model j (_create_batch_prompt b (categories_list conn))
      = Completed (Some rs) ->
      In item rs ->
      passes (get_category_mapping conn) item = true) ->
  aborted (analyze_user_interests now model name (usable conn)) = false.
Proof.
  intros Hpass. unfold analyze_user_interests.
  cbn [aborted usable connection].
  destruct (List.find _ (users (working conn))) as [u|] eqn:Hu;
    [|reflexivity].
  pose proof (gathered_pass conn (Db.user_id u)
                (fun j b rs item => Hpass u j b rs item eq_refl)) as Hall.
  destruct (get_following_data_for_user (Db.user_id u) conn) as [|a data];
    [reflexivity|].
  destruct (List.fold_left _ (enumerate (batches (a :: data))) [])
    as [|r results]; [reflexivity|].
  unfold _store_interest_results.
  destruct (store_results_returned now (Db.user_id u)
              (get_category_mapping conn) (r :: results) conn Hall)
    as [c ->].
  reflexivity.
Qed.

Lemma analyze_user_interests_stores
    (name : string) (conn : Conn) (u : UserRow) (i : nat)
    (batch : list Subject) (rs : list Item) (r : Result) (cid : nat) :
  List.find (fun u => String.eqb (Db.username u) name)
            (users (working conn)) = Some u ->
  batches (get_following_data_for_user (Db.user_id u) conn) !! i
  = Some batch ->
  model i (_create_batch_prompt batch (categories_list conn))
  = Completed (Some rs) ->
  In (Object r) rs ->
  known_category (get_category_mapping conn) r = Some cid ->
  (forall j b rs' item,
      batches (get_following_data_for_user (Db.user_id u) conn) !! j
      = Some b ->
      model j (_create_batch_prompt b (categories_list conn))
      = Completed (Some rs') ->
      In item rs' ->
      passes (get_category_mapping conn) item = true) ->
  aborted (analyze_user_interests now model name (usable conn)) = false /\
  committed (connection (analyze_user_interests now model name (usable conn)))
  = working (connection (analyze_user_interests now model name (usable conn)))
  /\
  exists row,
    interests
      (working
         (connection (analyze_user_interests now model name (usable conn))))
    !! (Db.user_id u, cid) = Some row /\
    created_at row = now.
Proof.
  intros Hu Hb Hm Hr Hk Hpass. unfold analyze_user_interests.
  cbn [aborted usable connection]. rewrite Hu.
  pose proof (gathered_pass conn (Db.user_id u) Hpass) as Hall.
  assert (Hin : In (Object r)
                   (List.fold_left
                      (analyze_batch model (categories_list conn))
                      (enumerate
                         (batches
                            (get_following_data_for_user
                               (Db.user_id u) conn))) [])).
  { apply analyze_batches_In. right. exists i, batch, rs.
    split; [now apply enumerate_In | now split]. }
  destruct (get_following_data_for_user (Db.user_id u) conn) as [|a data];
    [discriminate Hb|].
  destruct (List.fold_left _ (enumerate (batches (a :: data))) [])
    as [|r0 results] eqn:Hres; [destruct Hin|].
  unfold _store_interest_results.
  pose proof (store_results_has (Db.user_id u) (get_category_mapping conn)
                (r0 :: results) r cid conn Hall
                (or_introl (conj Hin Hk))) as Hrow.
  destruct (store_results_returned now (Db.user_id u)
              (get_category_mapping conn) (r0 :: results) conn Hall)
    as [c Hc].
  rewrite Hc in Hrow |- *.
  split; [reflexivity|]. split; [reflexivity|]. exact Hrow.
Qed.

(** X16.  An analysis changes no table but [interests], and removes no
    row of it.  It leaves the connection as it is, or it ends with a
    commit, or the store raises on a result of some answer that does not
    pass its loop, and then nothing is committed.  Every row of
    [interests] that is new or changed belongs to the account analysed,
    not to an account it follows: it comes from an object in the answer to
    one of the batches of that account, its category is the one the
    taxonomy gives for the category of the result, its score is what the
    confidence of the result gives, 0.5 when the result has none and NULL
    when it is [null], and its time is the time of the analysis. *)
Theorem X16_analysis_writes_rows_of_the_account
    (name : string) (conn : Conn) :
  let s' := analyze_user_interests now model name (usable conn) in
  let conn' := connection s' in
  only_interests (working conn) (working conn') /\
  (s' = usable conn \/
   (aborted s' = false /\ committed conn' = working conn') \/
   (committed conn' = committed conn /\
    exists u i batch rs item,
      List.find (fun u => String.eqb (Db.username u) name)
                (users (working conn)) = Some u /\
      batches (get_following_data_for_user (Db.user_id u) conn) !! i
      = Some batch /\
      model i (_create_batch_prompt batch (categories_list conn))
      = Completed (Some rs) /\
      In item rs /\
      passes (get_category_mapping conn) item = false)) /\
  (forall k row,
      interests (working conn') !! k = Some row ->
      interests (working conn) !! k = Some row \/
      exists u i batch rs r,
        List.find (fun u => String.eqb (Db.username u) name)
                  (users (working conn)) = Some u /\
        batches (get_following_data_for_user (Db.user_id u) conn) !! i
        = Some batch /\
        model i (_create_batch_prompt batch (categories_list conn))
        = Completed (Some rs) /\
        In (Object r) rs /\
        fst k = Db.user_id u /\
        known_category (get_category_mapping conn) r = Some (snd k) /\
        score (confidence r) = Some (confidence_score row) /\
        created_at row = now) /\
  score ConfidenceAbsent = Some (Some (Finite (1 # 2))) /\
  score ConfidenceNull = Some None /\
  (forall x, score (ConfidenceNumber x) = Some (Some x)).
Proof.
  cbv zeta.
  split; [exact (analyze_user_interests_only name (usable conn))|].
  split; [exact (analyze_user_interests_outcome name conn)|].
  split; [|repeat split].
  intros k row. exact (analyze_user_interests_rows name (usable conn) k row).
Qed.

(** X17.  When every result in the answers to the batches of an account
    passes the loop of the store, the results of a batch that the model
    answered are stored whatever becomes of the requests for the other
    batches: if the account is known, and for one of its batches the
    answer has a result whose category is in the taxonomy, then after the
    analysis a row of the account with that category exists, written at
    the time of the analysis, and it is committed. *)
Theorem X17_answered_batch_is_stored
    (name : string) (conn : Conn) (u : UserRow) (i : nat)
    (batch : list Subject) (rs : list Item) (r : Result) (cid : nat) :
  List.find (fun u => String.eqb (Db.username u) name)
            (users (working conn)) = Some u ->
  batches (get_following_data_for_user (Db.user_id u) conn) !! i
  = Some batch ->
  model i (_create_batch_prompt batch (categories_list conn))
  = Completed (Some rs) ->
  In (Object r) rs ->
  known_category (get_category_mapping conn) r = Some cid ->
  (forall j b rs' item,
      batches (get_following_data_for_user (Db.user_id u) conn) !! j
      = Some b ->
      model j (_create_batch_prompt b (categories_list conn))
      = Completed (Some rs') ->
      In item rs' ->
      passes (get_category_mapping conn) item = true) ->
  let s' := analyze_user_interests now model name (usable conn) in
  let conn' := connection s' in
  aborted s' = false /\
  committed conn' = working conn' /\
  exists row,
    interests (committed conn') !! (Db.user_id u, cid) = Some row /\
    created_at row = now.
Proof.
  intros Hu Hb Hm Hr Hk Hpass. cbv zeta.
  destruct (analyze_user_interests_stores name conn u i batch rs r cid
              Hu Hb Hm Hr Hk Hpass) as (Ha & Hc & Hrow).
  split; [exact Ha|]. split; [exact Hc|]. rewrite Hc. exact Hrow.
Qed.

(** An analysis with nothing to store. *)
Lemma analyze_user_interests_idle (name : string) (s : Session) :
  (forall u,
      List.find (fun u => String.eqb (Db.username u) name)
                (users (working (connection s))) = Some u ->
      get_following_data_for_user (Db.user_id u) (connection s) = [] \/
      forall i prompt,
        match model i prompt with
        | Completed (Some (_ :: _)) => False
        | _ => True
        end) ->
  analyze_user_interests now model name s = s.
Proof.
  intros Hidle. unfold analyze_user_interests.
  destruct (aborted s); [reflexivity|].
  destruct (List.find _ (users (working (connection s)))) as [u|];
    [|reflexivity].
  destruct (Hidle u eq_refl) as [-> | Hfail]; [reflexivity|].
  destruct (get_following_data_for_user (Db.user_id u) (connection s))
    as [|a data]; [reflexivity|].
  destruct (List.fold_left _ (enumerate (batches (a :: data))) [])
    as [|r results] eqn:Hres; [reflexivity|].
  exfalso.
  assert (Hin : In r (List.fold_left
                        (analyze_batch model
                                       (categories_list (connection s)))
                        (enumerate (batches (a :: data))) []))
    by (rewrite Hres; now left).
  apply analyze_batches_In in Hin as [[]|(i & b & rs & _ & Hm & Hr)].
  specialize (Hfail i (_create_batch_prompt b
                         (categories_list (connection s)))).
  rewrite Hm in Hfail. now destruct rs.
Qed.

(** X18.  When every request to the model raises, or comes back without
    the key "results", or with an empty list of results, an analysis
    leaves the connection as it is: nothing is written and nothing is
    committed. *)
Theorem X18_failed_requests_write_nothing (name : string) (conn : Conn) :
  (forall i prompt,
      match model i prompt with
      | Completed (Some (_ :: _)) => False
      | _ => True
      end) ->
  analyze_user_interests now model name (usable conn) = usable conn.
Proof.
  intros Hfail. apply analyze_user_interests_idle. intros u _. now right.
Qed.

(** X19.  The account that a result names is not stored and decides
    nothing: an analysis in which every result of the model is given
    another [username], or none, leaves the same connection. *)
Theorem X19_named_account_is_not_stored
    (relabel : Result -> option Json) (name : string) (conn : Conn) :
  let renamed item :=
    match item with
    | Object r =>
        Object {| username := relabel r; category := category r;
                  confidence := confidence r |}
    | NotObject => NotObject
    end in
  let model' i prompt :=
    match model i prompt with
    | Completed (Some rs) => Completed (Some (List.map renamed rs))
    | other => other
    end in
  analyze_user_interests now model' name (usable conn)
  = analyze_user_interests now model name (usable conn).
Proof.
  intros renamed model'. unfold analyze_user_interests. cbv zeta.
  cbn [aborted usable connection].
  destruct (List.find _ (users (working conn))) as [u|]; [|reflexivity].
  destruct (get_following_data_for_user (Db.user_id u) conn) as [|a data];
    [reflexivity|].
  assert (Hfold : forall indexed acc,
             List.fold_left (analyze_batch model' (categories_list conn))
                            indexed (List.map renamed acc)
             = List.map renamed
                 (List.fold_left (analyze_batch model (categories_list conn))
                                 indexed acc)).
  { induction indexed as [|[i b] l IH]; intros acc; [reflexivity|].
    cbn [List.fold_left]. rewrite <- IH. f_equal.
    unfold analyze_batch, model'.
    destruct (model i (_create_batch_prompt b (categories_list conn)))
      as [msg|[rs|]]; [reflexivity | now rewrite List.map_app | reflexivity]. }
  assert (Hstore : forall uid m results c,
             store_results now uid m (List.map renamed results) c
             = store_results now uid m results c).
  { induction results as [|item l IH]; intros c; [reflexivity|].
    cbn [List.map store_results].
    replace (store_result now uid m c (renamed item))
      with (store_result now uid m c item) by (now destruct item).
    destruct (store_result now uid m c item); [apply IH | reflexivity]. }
  assert (Hnil : List.fold_left
                   (analyze_batch model' (categories_list conn))
                   (enumerate (batches (a :: data))) []
                 = List.map renamed
                     (List.fold_left
                        (analyze_batch model (categories_list conn))
                        (enumerate (batches (a :: data))) []))
    by exact (Hfold _ []).
  rewrite Hnil. clear Hnil Hfold.
  destruct (List.fold_left (analyze_batch model (categories_list conn))
                           (enumerate (batches (a :: data))) [])
    as [|r results]; [reflexivity|].
  change (List.map renamed (r :: results))
    with (renamed r :: List.map renamed results).
  unfold _store_interest_results.
  change (renamed r :: List.map renamed results)
    with (List.map renamed (r :: results)).
  rewrite Hstore. reflexivity.
Qed.

End Analysis.

(** ** The accounts that wait for an analysis *)

Section PendingAccounts.
Import Datetime Db InterestAnalyzer.

Lemma has_interest_spec (uid : string) (db : DB) :
  has_interest uid db = true
  <-> exists cid, is_Some (interests db !! (uid, cid)).
Proof.
  unfold has_interest. rewrite List.existsb_exists. split.
  - intros ([[uid' cid] row] & Hin & Heq). cbn in Heq.
    apply String.eqb_eq in Heq as ->.
    apply list_elem_of_In, elem_of_map_to_list in Hin. cbn in Hin.
    exists cid. eauto.
  - intros (cid & row & Hrow). exists ((uid, cid), row). split.
    + now apply list_elem_of_In, elem_of_map_to_list.
    + apply String.eqb_refl.
Qed.

Lemma has_interest_kept (uid : string) (db db' : DB) :
  only_interests db db' ->
  has_interest uid db = true -> has_interest uid db' = true.
Proof.
  intros [_ Hkeep]. rewrite !has_interest_spec.
  intros (cid & H). exists cid. now apply Hkeep.
Qed.

Lemma pending_rows_In (db : DB) (name : string) :
  In name (pending_rows db)
  <-> exists u sj,
        In u (users db) /\ In sj (scrape_jobs db) /\
        Db.username u = name /\ target_username sj = name /\
        job_type sj = "following" /\ status sj = "completed" /\
        has_interest (Db.user_id u) db = false.
Proof.
  unfold pending_rows. rewrite List.in_flat_map. split.
  - intros (u & Hu & H). apply List.in_flat_map in H as (sj & Hsj & H).
    destruct (String.eqb_spec (Db.username u) (target_username sj));
      [|destruct H].
    destruct (String.eqb_spec (job_type sj) "following"); [|destruct H].
    destruct (String.eqb_spec (status sj) "completed"); [|destruct H].
    destruct (has_interest (Db.user_id u) db) eqn:E; [destruct H|].
    destruct H as [<-|[]]. exists u, sj. now repeat split.
  - intros (u & sj & Hu & Hsj & <- & Ht & Hj & Hs & Hi).
    exists u. split; [exact Hu|]. apply List.in_flat_map.
    exists sj. split; [exact Hsj|].
    rewrite Ht, Hj, Hs, Hi, String.eqb_refl. now left.
Qed.

Lemma pending_rows_kept (db db' : DB) (name : string) :
  only_interests db db' ->
  In name (pending_rows db') -> In name (pending_rows db).
Proof.
  intros Honly. rewrite !pending_rows_In.
  destruct (only_interests_tables db db' Honly) as (Hu & _ & _ & Hj).
  rewrite Hu, Hj.
  intros (u & sj & H1 & H2 & H3 & H4 & H5 & H6 & H7).
  exists u, sj. repeat (split; [assumption|]).
  destruct (has_interest (Db.user_id u) db) eqn:E; [|reflexivity].
  now rewrite (has_interest_kept _ db db' Honly E) in H7.
Qed.

(** What an analysis reads is in the tables that no analysis changes. *)
Lemma analysis_reads (c c' : Conn) :
  only_interests (working c) (working c') ->
  users (working c') = users (working c) /\
  (forall uid, get_following_data_for_user uid c'
               = get_following_data_for_user uid c) /\
  categories_list c' = categories_list c /\
  get_category_mapping c' = get_category_mapping c.
Proof.
  intros H. destruct (only_interests_tables _ _ H) as (Hu & Hf & Hc & _).
  unfold get_following_data_for_user, categories_list, get_category_mapping.
  now rewrite Hu, Hf, Hc.
Qed.

Variables (now : datetime) (model : nat -> nat -> string -> Completion).

Lemma process_only (indexed : list (nat * string)) :
  forall s,
    only_interests (working (connection s))
      (working
         (connection (List.fold_left (process_user now model) indexed s))).
Proof.
  induction indexed as [|[i name] l IH]; intros s;
    [apply only_interests_refl|].
  cbn [List.fold_left]. eapply only_interests_trans; [|apply IH].
  apply analyze_user_interests_only.
Qed.

Lemma process_rows (conn : Conn) (indexed : list (nat * string))
    (k : string * nat) (row : InterestRow) :
  forall s,
    only_interests (working conn) (working (connection s)) ->
    interests
      (working
         (connection (List.fold_left (process_user now model) indexed s)))
    !! k = Some row ->
    interests (working (connection s)) !! k = Some row \/
    exists i name u,
      In (i, name) indexed /\
      List.find (fun u => String.eqb (Db.username u) name)
                (users (working conn)) = Some u /\
      fst k = Db.user_id u /\ created_at row = now.
Proof.
  induction indexed as [|[i name] l IH]; intros s Hs; [now left|].
  cbn [List.fold_left]. intros Hrow.
  assert (Hs' : only_interests (working conn)
                  (working (connection (process_user now model s (i, name))))).
  { eapply only_interests_trans; [exact Hs|].
    apply analyze_user_interests_only. }
  apply (IH _ Hs') in Hrow as [H|(i' & name' & u & Hin & H)].
  - unfold process_user in H. cbn [fst snd] in H.
    apply analyze_user_interests_rows
      in H as [H|(u & _ & _ & _ & r & Hu & _ & _ & _ & Hk & _ & _ & Hnow)];
      [now left|].
    right. exists i, name, u. split; [now left|].
    destruct (analysis_reads conn (connection s) Hs) as (<- & _).
    now repeat split.
  - right. exists i', name', u. split; [now right | exact H].
Qed.

Lemma process_stores (conn : Conn) (u : UserRow) (cid p i : nat)
    (name : string) (batch : list Subject) (rs : list Item) (r : Result) :
  List.find (fun u => String.eqb (Db.username u) name)
            (users (working conn)) = Some u ->
  batches (get_following_data_for_user (Db.user_id u) conn) !! i
  = Some batch ->
  model p i (_create_batch_prompt batch (categories_list conn))
  = Completed (Some rs) ->
  In (Object r) rs ->
  known_category (get_category_mapping conn) r = Some cid ->
  forall indexed s,
    (forall q name' u' j b rs' item,
        In (q, name') indexed ->
        List.find (fun u => String.eqb (Db.username u) name')
                  (users (working conn)) = Some u' ->
        batches (get_following_data_for_user (Db.user_id u') conn) !! j
        = Some b ->
        model q j (_create_batch_prompt b (categories_list conn))
        = Completed (Some rs') ->
        In item rs' ->
        passes (get_category_mapping conn) item = true) ->
    only_interests (working conn) (working (connection s)) ->
    aborted s = false ->
    In (p, name) indexed \/
    is_Some (interests (working (connection s)) !! (Db.user_id u, cid)) ->
    aborted (List.fold_left (process_user now model) indexed s) = false /\
    is_Some
      (interests
         (working
            (connection (List.fold_left (process_user now model) indexed s)))
       !! (Db.user_id u, cid)).
Proof.
  intros Hu Hb Hm Hr Hk.
  induction indexed as [|[p' name'] l IH]; intros s Hpass Hs Ha H.
  - destruct H as [[]|H]. now split.
  - cbn [List.fold_left].
    pose proof (analyze_user_interests_only now (model p') name' s) as Hstep.
    destruct (analysis_reads conn (connection s) Hs)
      as (Hus & Hf & Hcs & Hmap).
    rewrite (usable_session s Ha) in Hstep |- *.
    cbn [usable connection] in Hstep.
    unfold process_user at 2 4. cbn [fst snd].
    apply IH.
    + intros q n u' j b rs' item Hin. apply Hpass. now right.
    + eapply only_interests_trans; [exact Hs | exact Hstep].
    + apply analyze_user_interests_clean.
      intros u' j b rs' item Hu' Hb' Hm' Hitem.
      rewrite Hmap. rewrite Hus in Hu'. rewrite Hf in Hb'.
      rewrite Hcs in Hm'.
      exact (Hpass p' name' u' j b rs' item (or_introl eq_refl)
               Hu' Hb' Hm' Hitem).
    + destruct H as [[[= -> ->]|Hin]|Hsome].
      * right.
        destruct (analyze_user_interests_stores now (model p) name
                    (connection s) u i batch rs r cid)
          as (_ & _ & row & Hrow & _).
        -- now rewrite Hus.
        -- now rewrite Hf.
        -- now rewrite Hcs.
        -- exact Hr.
        -- now rewrite Hmap.
        -- intros j b rs' item Hb' Hm' Hitem.
           rewrite Hmap. rewrite Hf in Hb'. rewrite Hcs in Hm'.
           exact (Hpass p name u j b rs' item (or_introl eq_refl)
                    Hu Hb' Hm' Hitem).
        -- eauto.
      * now left.
      * right. destruct Hstep as [_ Hkeep]. now apply Hkeep.
Qed.

(** X20.  [process_pending_users] analyses at most five accounts.  Each
    has a completed following job on its handle and had no row of
    [interests] for some account row with that handle.  No table but
    [interests] is changed and no row of it is removed; a row that is new
    or changed belongs to an account row that one of the selected handles
    finds, and carries the time of the run; and no handle waits
    afterwards that did not wait before. *)
Theorem X20_pending_users_are_analysed (conn : Conn) :
  let conn' := connection (process_pending_users now model (usable conn)) in
  length (pending_users (working conn)) <= 5 /\
  (forall name,
      In name (pending_users (working conn)) ->
      exists u sj,
        In u (users (working conn)) /\
        In sj (scrape_jobs (working conn)) /\
        Db.username u = name /\ target_username sj = name /\
        job_type sj = "following" /\ status sj = "completed" /\
        forall cid, interests (working conn) !! (Db.user_id u, cid) = None) /\
  only_interests (working conn) (working conn') /\
  (forall k row,
      interests (working conn') !! k = Some row ->
      interests (working conn) !! k = Some row \/
      exists name u,
        In name (pending_users (working conn)) /\
        List.find (fun u => String.eqb (Db.username u) name)
                  (users (working conn)) = Some u /\
        fst k = Db.user_id u /\ created_at row = now) /\
  (forall name,
      In name (pending_rows (working conn')) ->
      In name (pending_rows (working conn))).
Proof.
  cbv zeta. unfold process_pending_users. cbn [aborted usable connection].
  split; [apply List.firstn_le_length|]. split; [|split; [|split]].
  - intros name Hin. apply In_firstn, pending_rows_In in Hin
      as (u & sj & H1 & H2 & H3 & H4 & H5 & H6 & H7).
    exists u, sj. repeat (split; [assumption|]).
    intros cid. destruct (interests (working conn) !! (Db.user_id u, cid))
      as [row|] eqn:E; [|reflexivity].
    assert (has_interest (Db.user_id u) (working conn) = true)
      by (apply has_interest_spec; eauto).
    congruence.
  - exact (process_only _ (usable conn)).
  - intros k row Hrow.
    apply (process_rows conn _ k row (usable conn))
      in Hrow as [H|(i & name & u & Hin & H)];
      [now left | | apply only_interests_refl].
    right. exists name, u. split; [|exact H].
    apply enumerate_In in Hin.
    now apply list_elem_of_lookup_2, list_elem_of_In in Hin.
  - intros name. apply pending_rows_kept.
    exact (process_only _ (usable conn)).
Qed.

(** X21.  When handles are unique among the account rows and every
    result that the model gives for a batch of a selected account passes
    the loop of the store, a selected account for which the model
    answered a batch with a result whose category is in the taxonomy does
    not wait any more after the run, whatever the other requests of the
    run came to. *)
Theorem X21_analysed_account_waits_no_more
    (conn : Conn) (p : nat) (name : string) (u : UserRow) (i : nat)
    (batch : list Subject) (rs : list Item) (r : Result) (cid : nat) :
  List.NoDup (List.map Db.username (users (working conn))) ->
  pending_users (working conn) !! p = Some name ->
  List.find (fun u => String.eqb (Db.username u) name)
            (users (working conn)) = Some u ->
  batches (get_following_data_for_user (Db.user_id u) conn) !! i
  = Some batch ->
  model p i (_create_batch_prompt batch (categories_list conn))
  = Completed (Some rs) ->
  In (Object r) rs ->
  known_category (get_category_mapping conn) r = Some cid ->
  (forall q name' u' j b rs' item,
      pending_users (working conn) !! q = Some name' ->
      List.find (fun u => String.eqb (Db.username u) name')
                (users (working conn)) = Some u' ->
      batches (get_following_data_for_user (Db.user_id u') conn) !! j
      = Some b ->
      model q j (_create_batch_prompt b (categories_list conn))
      = Completed (Some rs') ->
      In item rs' ->
      passes (get_category_mapping conn) item = true) ->
  let s' := process_pending_users now model (usable conn) in
  let conn' := connection s' in
  aborted s' = false /\
  is_Some (interests (working conn') !! (Db.user_id u, cid)) /\
  ~ In name (pending_rows (working conn')) /\
  ~ In name (pending_users (working conn')).
Proof.
  intros Hnd Hp Hu Hb Hm Hr Hk Hpass. cbv zeta.
  assert (Honly : only_interests (working conn)
                    (working
                       (connection
                          (process_pending_users now model (usable conn))))).
  { unfold process_pending_users. cbn [aborted usable connection].
    exact (process_only _ (usable conn)). }
  assert (Hrow : aborted (process_pending_users now model (usable conn))
                 = false /\
                 is_Some
                   (interests
                      (working
                         (connection
                            (process_pending_users now model (usable conn))))
                    !! (Db.user_id u, cid))).
  { unfold process_pending_users. cbn [aborted usable connection].
    apply (process_stores conn u cid p i name batch rs r Hu Hb Hm Hr Hk).
    - intros q name' u' j b rs' item Hin. apply Hpass.
      now apply enumerate_In.
    - apply only_interests_refl.
    - reflexivity.
    - left. now apply enumerate_In. }
  destruct Hrow as [Ha Hrow].
  assert (Hout : ~ In name
                     (pending_rows
                        (working
                           (connection
                              (process_pending_users now model
                                                     (usable conn)))))).
  { intros Hin. apply pending_rows_In in Hin
      as (u' & sj & Hu' & _ & Hname & _ & _ & _ & Hno).
    destruct (only_interests_tables _ _ Honly) as (Hus & _).
    rewrite Hus in Hu'.
    apply List.find_some in Hu as [Hin Heq]. apply String.eqb_eq in Heq.
    assert (u' = u).
    { apply (NoDup_map_eq Db.username (users (working conn)));
        [exact Hnd | exact Hu' | exact Hin | congruence]. }
    subst u'.
    assert (has_interest (Db.user_id u)
              (working
                 (connection (process_pending_users now model (usable conn))))
            = true)
      by (apply has_interest_spec; eauto).
    congruence. }
  split; [exact Ha|]. split; [exact Hrow|]. split; [exact Hout|].
  intros Hin. apply Hout. now apply In_firstn in Hin.
Qed.

(** X27.  A run in which no selected account yields a result changes
    nothing, so that the next run selects the same accounts again: if
    each selected handle finds an account row that follows no account
    with a row, or gets from the model only exceptions, answers without
    results and empty lists of results, then [process_pending_users]
    leaves the connection as it is.  An account with a completed
    following job and no followed account thus waits for ever. *)
Theorem X27_idle_run_selects_the_same_accounts (conn : Conn) :
  (forall p name u,
      pending_users (working conn) !! p = Some name ->
      List.find (fun u => String.eqb (Db.username u) name)
                (users (working conn)) = Some u ->
      get_following_data_for_user (Db.user_id u) conn = [] \/
      forall i prompt,
        match model p i prompt with
        | Completed (Some (_ :: _)) => False
        | _ => True
        end) ->
  process_pending_users now model (usable conn) = usable conn /\
  pending_users
    (working (connection (process_pending_users now model (usable conn))))
  = pending_users (working conn).
Proof.
  intros Hidle.
  assert (H : process_pending_users now model (usable conn) = usable conn).
  { unfold process_pending_users. cbn [aborted usable connection].
    assert (Hfold : forall indexed,
               (forall p name, In (p, name) indexed ->
                               pending_users (working conn) !! p = Some name) ->
               List.fold_left (process_user now model) indexed (usable conn)
               = usable conn).
    { induction indexed as [|[p name] l IH]; intros Hl; [reflexivity|].
      cbn [List.fold_left]. unfold process_user at 2. cbn [fst snd].
      rewrite analyze_user_interests_idle.
      - apply IH. intros q m Hq. apply Hl. now right.
      - intros u Hu. apply (Hidle p name u); [|exact Hu].
        apply Hl. now left. }
    apply Hfold. intros p name Hin. now apply enumerate_In. }
  split; [exact H | now rewrite H].
Qed.

End PendingAccounts.

(** ** From the enrolment to the crawl *)

Section EnrolledTarget.
Import Datetime Db Instaloader JobScheduler.

Lemma filter_none {A : Type} (P : A -> bool) (l : list A) :
  (forall x, In x l -> P x = false) -> List.filter P l = [].
Proof.
  induction l as [|a l IH]; intros H; [reflexivity|].
  cbn [List.filter]. rewrite (H a) by now left.
  apply IH. intros x Hx. apply H. now right.
Qed.

(** X26.  A target that is enrolled while no job is pending, and that
    the check on recent jobs lets in, is next in the order profile,
    followers, following, if the quota of the day has room for three
    jobs: these three jobs, with the next three job ids, are the batch
    that the next tick selects, whenever it comes; and they are the jobs
    that this tick works through if the engine accepts the statements of
    their crawls, as it does when the profile crawl has stored the row of
    the account before the listings start. *)
Theorem X26_enrolled_target_is_crawled_in_order
    (now now' : datetime) (world : nat -> Response) (name : string) (s : t) :
  recent_jobs now name (working (db_conn s)) = [] ->
  (forall j, In j (scrape_jobs (working (db_conn s))) ->
             status j <> "pending") ->
  current_day_processed s + 3 <= daily_quota s ->
  let n := seq_of s in
  let s' := schedule_user_scraping now name s in
  let s1 := _reset_daily_counter now' s' in
  let jobs := [(n, name, "profile"); (S n, name, "followers");
               (S (S n), name, "following")] in
  batch s1 = jobs /\
  (crawls_accepted world jobs s1 ->
   List.map fst (snd (process_pending_jobs_trace now' world s')) = jobs).
Proof.
  intros Hrec Hnone Hq n s' s1 jobs.
  destruct (reset_daily_counter_spec now' s') as (Hc & _ & Hdq & Hconn & _).
  destruct (schedule_user_scraping_fields now name s) as (Fq & _ & Fc).
  fold s' in Fq, Fc. fold s1 in Hc, Hdq, Hconn.
  assert (Hrem : 3 <= daily_quota s1 - current_day_processed s1).
  { rewrite Hdq, Hc, Fq, Fc. destruct (day now' =? last_day s')%Z; lia. }
  assert (Hjobs : scrape_jobs (working (db_conn s'))
                  = (scrape_jobs (working (db_conn s))
                     ++ [ {| job_id := n; target_username := name;
                             job_type := "profile"; status := "pending";
                             started_at := None; completed_at := None;
                             last_cursor := None; total_items := None;
                             processed_items := 0; error_message := None |};
                          {| job_id := S n; target_username := name;
                             job_type := "followers"; status := "pending";
                             started_at := None; completed_at := None;
                             last_cursor := None; total_items := None;
                             processed_items := 0; error_message := None |};
                          {| job_id := S (S n); target_username := name;
                             job_type := "following"; status := "pending";
                             started_at := None; completed_at := None;
                             last_cursor := None; total_items := None;
                             processed_items := 0;
                             error_message := None |} ])%list).
  { subst s' n. unfold schedule_user_scraping, seq_of. rewrite Hrec.
    cbn [with_conn db_conn commit execute working insert_job scrape_jobs
         scrape_jobs_seq].
    now rewrite <- !List.app_assoc. }
  assert (Hbatch : batch s1 = jobs).
  { subst jobs. unfold batch, select_pending. rewrite Hconn.
    clearbody s1 s' n. rewrite Hjobs, List.filter_app.
    rewrite (filter_none _ (scrape_jobs (working (db_conn s)))).
    - cbn [List.filter status String.eqb Ascii.eqb Bool.eqb app
           order_by_job_id insert_by_job_id job_id].
      replace (S n <=? S (S n)) with true
        by (symmetry; apply Nat.leb_le; lia).
      cbn [insert_by_job_id job_id].
      replace (n <=? S n) with true by (symmetry; apply Nat.leb_le; lia).
      rewrite List.firstn_all2 by (cbn [length]; lia).
      reflexivity.
    - intros j Hj. apply String.eqb_neq. now apply Hnone. }
  split; [exact Hbatch|]. intros _.
  unfold process_pending_jobs_trace. fold s1.
  replace (daily_quota s1 <=? current_day_processed s1) with false
    by (symmetry; apply Nat.leb_gt; lia).
  destruct (process_jobs_fields world (batch s1) s1) as (Hm & _).
  now rewrite Hm.
Qed.

End EnrolledTarget.

(** ** From the crawler to the analysis *)

Section HandOver.
Import Datetime Db Instaloader JobScheduler.

(** A listing that returns leaves its own row, completed. *)
Lemma listing_returned_row (d : InstagramScraper.Direction) (r : Response)
    (name : string) (max_count : option nat) (sc : InstagramScraper.t)
    (conn : Conn) :
  snd (InstagramScraper.get_follow_list d r name max_count sc conn)
  = Returned tt ->
  exists row,
    In row
       (scrape_jobs
          (working
             (snd (fst (InstagramScraper.get_follow_list
                          d r name max_count sc conn))))) /\
    target_username row = name /\
    job_type row = InstagramScraper.direction_name d /\
    status row = "completed".
Proof.
  unfold InstagramScraper.get_follow_list.
  destruct (InstagramScraper._initialize_instaloader r sc) as [s1 [un|e]];
    [|discriminate].
  set (job := scrape_jobs_seq (working conn)).
  set (conn1 := commit (execute _ conn)).
  assert (Hnew : exists new,
             scrape_jobs (working conn1)
             = (scrape_jobs (working conn) ++ [new])%list /\
             job_id new = job /\ target_username new = name /\
             job_type new = InstagramScraper.direction_name d).
  { eexists. split; [reflexivity|]. now repeat split. }
  destruct Hnew as (new & Hjobs & Hid & Hname & Htype).
  destruct (from_username r) as [p|e]; [|discriminate].
  destruct (follow_loop_prefix d (clock_start r) (userid p) job max_count
              (listing r) (length (listing r)) conn1)
    as (j & brk & _ & _ & Hloop).
  rewrite List.firstn_all in Hloop. rewrite Hloop.
  destruct (follow_items_jobs d (clock_start r) (userid p) job
              (List.firstn j (listing r)) 0 conn1) as [_ Hj].
  destruct (InstagramScraper.follow_items d (clock_start r) (userid p) job
              (List.firstn j (listing r)) 0 conn1) as [conn2 count].
  cbn [fst] in Hj.
  destruct (if brk then None else listing_error r); [discriminate|].
  intros _.
  cbn [fst snd commit execute working update_job with_scrape_jobs
       scrape_jobs].
  destruct Hj as [Hj|[k Hj]]; rewrite Hj, Hjobs.
  - exists (set_completed (clock_end r) count new).
    split; [|now repeat split].
    apply List.in_map_iff. exists new. rewrite Hid, Nat.eqb_refl.
    split; [reflexivity|]. apply List.in_app_iff. right. now left.
  - exists (set_completed (clock_end r) count (set_processed k new)).
    split; [|now repeat split].
    apply List.in_map_iff. exists (set_processed k new).
    cbn [set_processed job_id]. rewrite Hid, Nat.eqb_refl.
    split; [reflexivity|]. unfold InstagramScraper.checkpoint.
    apply List.in_map_iff. exists new. rewrite Hid, Nat.eqb_refl.
    split; [reflexivity|]. apply List.in_app_iff. right. now left.
Qed.

Lemma calculate_mutual_followers_jobs (name : string) (conn : Conn) :
  scrape_jobs
    (working (fst (fst (InstagramScraper.calculate_mutual_followers
                          name conn))))
  = scrape_jobs (working conn).
Proof.
  unfold InstagramScraper.calculate_mutual_followers.
  destruct (List.find _ (users (working conn))) as [u|]; [|reflexivity].
  now destruct (InstagramScraper.insert_mutuals _ _) as [t' n].
Qed.

(** X25.  On a store that keeps the schema's guarantee on jobs, a
    following job that the scheduler has processed without an exception
    leaves a completed following row on its target, and no later
    enrolment or tick takes it away.  From then on the target waits for
    the analysis as long as an account row bears its handle and has no row
    of [interests]. *)
Theorem X25_crawled_target_waits_for_analysis
    (r : Response) (id : nat) (name : string) (s : t) (ops : list op) :
  jobs_wf (working (db_conn s)) ->
  snd (process_job r (id, name, "following") s) = Returned tt ->
  let db :=
    working (db_conn (run ops (fst (process_job r (id, name, "following")
                                      s)))) in
  (exists sj,
      In sj (scrape_jobs db) /\ target_username sj = name /\
      job_type sj = "following" /\ status sj = "completed") /\
  (forall u,
      In u (users db) -> Db.username u = name ->
      (forall cid, interests db !! (user_id u, cid) = None) ->
      In name (InterestAnalyzer.pending_rows db)).
Proof.
  intros Hwf Hret db.
  assert (Hrow : exists sj,
             In sj (scrape_jobs db) /\ target_username sj = name /\
             job_type sj = "following" /\ status sj = "completed").
  { destruct (process_job_rows r (id, name, "following") s) as (_ & Hwf' & _).
    specialize (Hwf' Hwf).
    assert (Hs1 : exists sj,
               In sj (scrape_jobs
                        (working (db_conn (fst (process_job
                                                  r (id, name, "following")
                                                  s))))) /\
               target_username sj = name /\
               job_type sj = "following" /\ status sj = "completed").
    { clear Hwf'. revert Hret. unfold process_job, run_job, crawl.
      cbn [String.eqb Ascii.eqb Bool.eqb orb].
      unfold InstagramScraper.get_following.
      pose proof (listing_returned_row InstagramScraper.Following r name None
                    (scraper s) (db_conn s)) as Hlist.
      destruct (InstagramScraper.get_follow_list InstagramScraper.Following
                  r name None (scraper s) (db_conn s)) as [[sc conn] [u|e]];
        [|discriminate].
      intros _. cbn [fst snd db_conn] in *.
      destruct (Hlist ltac:(now destruct u)) as (sj & Hin & H).
      exists sj. split; [|exact H].
      destruct (completed_count name (working conn) =? 2); [|exact Hin].
      now rewrite calculate_mutual_followers_jobs. }
    destruct Hs1 as (sj & Hin & Hn & Ht & Hst).
    exists sj. split; [|now repeat split].
    now apply run_keeps_completed. }
  split; [exact Hrow|].
  intros u Hu Hname Hno. apply pending_rows_In.
  destruct Hrow as (sj & Hin & Hn & Ht & Hst).
  exists u, sj. repeat (split; [assumption|]).
  destruct (InterestAnalyzer.has_interest (user_id u) db) eqn:E;
    [|reflexivity].
  apply has_interest_spec in E as (cid & row & Hrow).
  now rewrite Hno in Hrow.
Qed.

End HandOver.

(** ** The prompt of a batch *)

Section Prompt.
Import InterestAnalyzer.

Lemma append_assoc (x y z : string) :
  ((x ++ y) ++ z = x ++ (y ++ z))%string.
Proof.
  induction x as [|c x IH]; [reflexivity|].
  change (String c ((x ++ y) ++ z) = String c (x ++ y ++ z))%string.
  now f_equal.
Qed.

Lemma prefix_append (s t : string) : String.prefix s (s ++ t) = true.
Proof.
  induction s as [|c s IH]; [now destruct t|].
  change (match Ascii.ascii_dec c c with
          | left _ => String.prefix s (s ++ t)
          | right _ => false
          end = true).
  destruct (Ascii.ascii_dec c c); [exact IH | contradiction].
Qed.

Lemma occurs_prefix (s t : string) :
  String.prefix s t = true -> occurs s t = true.
Proof.
  intros H.
  destruct t as [|c t];
    [ change ((if String.prefix s EmptyString then true else false) = true)
    | change ((if String.prefix s (String c t)
               then true else occurs s t) = true) ];
    now rewrite H.
Qed.

Lemma occurs_middle (s : string) (a b : string) :
  occurs s (a ++ s ++ b) = true.
Proof.
  induction a as [|c a IH].
  - change (occurs s (s ++ b) = true). apply occurs_prefix, prefix_append.
  - change ((if String.prefix s (String c (a ++ s ++ b))
             then true else occurs s (a ++ s ++ b)) = true).
    rewrite IH. now destruct (String.prefix s _).
Qed.

(** The blocks of the accounts of a batch, one after the other. *)
Lemma prompt_blocks (batch : list Subject) :
  forall p : string,
    List.fold_left (fun p account => (p ++ prompt_account account)%string)
                   batch p
    = (p ++ List.fold_right
              (fun account s => (prompt_account account ++ s)%string)
              EmptyString batch)%string.
Proof.
  induction batch as [|a l IH]; intros p; cbn [List.fold_left List.fold_right].
  - clear. induction p as [|c p IH]; [reflexivity|].
    change (String c p = String c (p ++ EmptyString))%string. now f_equal.
  - rewrite IH. apply append_assoc.
Qed.

Lemma prompt_account_text (a : Subject) :
  prompt_account a
  = (nl ++ "---" ++ nl ++ "Username: " ++ subject_username a ++ nl
     ++ "Name: " ++ str_or_None (subject_full_name a) ++ nl
     ++ "Bio: " ++ subject_bio a ++ nl)%string.
Proof. reflexivity. Qed.

Lemma prompt_split (l1 l2 : list Subject) (a : Subject)
    (categories : list string) :
  exists before,
    _create_batch_prompt (l1 ++ a :: l2)%list categories
    = (before ++ prompt_account a
       ++ List.fold_right
            (fun account s => (prompt_account account ++ s)%string)
            EmptyString l2
       ++ prompt_format)%string.
Proof.
  unfold _create_batch_prompt. cbv zeta. rewrite List.fold_left_app.
  cbn [List.fold_left]. rewrite (prompt_blocks l2), !append_assoc.
  eexists. reflexivity.
Qed.

Lemma prompt_closed (batch : list Subject) (categories : list string) :
  _create_batch_prompt batch categories
  = (prompt_intro ++ String.concat ", " categories ++ prompt_task
     ++ List.fold_right
          (fun account s => (prompt_account account ++ s)%string)
          EmptyString batch
     ++ prompt_format)%string.
Proof.
  unfold _create_batch_prompt. cbv zeta.
  now rewrite prompt_blocks, !append_assoc.
Qed.

Lemma occurs_in (s t a b : string) :
  t = (a ++ s ++ b)%string -> occurs s t = true.
Proof. intros ->. apply occurs_middle. Qed.

(** X22.  The prompt shows every account of the batch: the handle and
    the bio of each occur in it, within a block of three lines that
    gives the handle, the name (the text [None] when the account has
    none) and the bio; and the names of the categories occur in it,
    separated by a comma and a space. *)
Theorem X22_prompt_shows_every_account
    (batch : list Subject) (categories : list string) (a : Subject) :
  In a batch ->
  let prompt := _create_batch_prompt batch categories in
  occurs (subject_username a) prompt = true /\
  occurs (subject_bio a) prompt = true /\
  occurs ("Username: " ++ subject_username a ++ nl
          ++ "Name: " ++ str_or_None (subject_full_name a) ++ nl
          ++ "Bio: " ++ subject_bio a ++ nl)%string prompt = true /\
  occurs (String.concat ", " categories) prompt = true.
Proof.
  intros Hin prompt. apply List.in_split in Hin as (l1 & l2 & ->).
  destruct (prompt_split l1 l2 a categories) as (before & Hprompt).
  fold prompt in Hprompt. rewrite prompt_account_text in Hprompt.
  split; [|split; [|split]].
  - eapply occurs_in. rewrite Hprompt.
    instantiate (2 := (before ++ nl ++ "---" ++ nl ++ "Username: ")%string).
    rewrite !append_assoc. reflexivity.
  - eapply occurs_in. rewrite Hprompt.
    instantiate
      (2 := (before ++ nl ++ "---" ++ nl ++ "Username: "
             ++ subject_username a ++ nl ++ "Name: "
             ++ str_or_None (subject_full_name a) ++ nl ++ "Bio: ")%string).
    rewrite !append_assoc. reflexivity.
  - eapply occurs_in. rewrite Hprompt.
    instantiate (2 := (before ++ nl ++ "---" ++ nl)%string).
    rewrite !append_assoc. reflexivity.
  - eapply occurs_in. subst prompt. rewrite prompt_closed.
    instantiate (2 := prompt_intro). reflexivity.
Qed.

(** X23.  The prompt does not delimit the text of a bio: an account
    whose bio goes on with the block of a second account gives the same
    prompt as the two accounts one after the other, so the model cannot
    tell a batch with the one from a batch with the two. *)
Theorem X23_bio_is_not_delimited
    (l1 l2 : list Subject) (a b : Subject) (categories : list string) :
  let merged :=
    {| subject_username := subject_username a;
       subject_full_name := subject_full_name a;
       subject_bio :=
         (subject_bio a ++ nl ++ nl ++ "---" ++ nl
          ++ "Username: " ++ subject_username b ++ nl
          ++ "Name: " ++ str_or_None (subject_full_name b) ++ nl
          ++ "Bio: " ++ subject_bio b)%string |} in
  _create_batch_prompt (l1 ++ merged :: l2)%list categories
  = _create_batch_prompt (l1 ++ a :: b :: l2)%list categories.
Proof.
  intros merged. rewrite !prompt_closed. do 3 f_equal.
  rewrite !List.fold_right_app. cbn [List.fold_right]. f_equal.
  rewrite !prompt_account_text. subst merged.
  cbn [subject_username subject_full_name subject_bio].
  rewrite !append_assoc. reflexivity.
Qed.

End Prompt.

(** * The further properties on concrete runs *)

Section FurtherRuns.
Import Datetime Db Instaloader InstagramScraper JobScheduler.

Ltac jobs_wf_by_computation :=
  split;
  [ vm_compute; repeat constructor; cbn; intuition lia
  | let j := fresh "j" in
    let Hj := fresh "Hj" in
    intros j Hj; apply Nat.ltb_lt; revert j Hj;
    apply List.forallb_forall; vm_compute; reflexivity ].

(** X4 on the store left by an enrolment and a tick whose crawls list two
    accounts. *)
Lemma X4_witness :
  let now := date 2024 3 1 in
  let world := fun _ : nat => answer now "acct1" ["a"; "b"] in
  let s0 := init now empty_conn in
  let ops := [Enroll now "acct1"; Tick now world] in
  store_inv (working (db_conn s0)) /\
  length (users (working (db_conn (run ops s0)))) = 3 /\
  store_inv (working (db_conn (run ops s0))).
Proof.
  intros now world s0 ops.
  assert (H0 : store_inv (working (db_conn s0))).
  { split; [constructor|]. split; [constructor|]. split; [constructor|].
    split; [constructor|]. split; [split; [constructor | intros j []]|].
    split; [intros e [] | intros e [[]|[]]]. }
  split; [exact H0|]. split; [reflexivity|].
  exact (proj2 (proj2 (proj2 X4_keys_stay_unique)) ops s0 H0).
Defined.

(** X9 on a lookup that raises, and on a listing of twelve accounts that
    raises at its end. *)
Lemma X9_witness :
  let now := date 2024 3 1 in
  let l := ["a"; "b"; "c"; "d"; "e"; "f"; "g"; "h"; "i"; "j"; "k"; "l"] in
  let broken :=
    {| login_error := None;
       from_username := Returned (account "acct1");
       listing := List.map account l;
       listing_error := Some "connection reset";
       clock_start := now; clock_end := now |} in
  let conn := graph_conn [] [] in
  jobs_wf (working conn) /\
  (exists conn',
      get_followers (refusal now "not found") "acct1" None
                    InstagramScraper.init conn
      = ({| insta_loader := true |}, conn', Raised "not found") /\
      List.map status (scrape_jobs (working conn')) = ["failed"]) /\
  (exists conn',
      get_followers broken "acct1" None InstagramScraper.init conn
      = ({| insta_loader := true |}, conn', Raised "connection reset") /\
      length (Db.followers (committed conn')) = 12 /\
      List.map processed_items (scrape_jobs (working conn')) = [10]).
Proof.
  intros now l broken conn.
  assert (Hwf : jobs_wf (working conn)).
  { split; [constructor | intros j []]. }
  split; [exact Hwf|]. split.
  - destruct (X9_failed_listing_keeps_what_was_written
                Followers (refusal now "not found") "acct1" None
                InstagramScraper.init conn Hwf (or_intror eq_refl))
      as [Hlookup _].
    destruct (Hlookup "not found" eq_refl)
      as (conn' & Hrun & _ & Hjobs & _).
    exists conn'. split; [exact Hrun|]. rewrite Hjobs. reflexivity.
  - destruct (X9_failed_listing_keeps_what_was_written
                Followers broken "acct1" None
                InstagramScraper.init conn Hwf (or_intror eq_refl))
      as [_ Hlisting].
    destruct (Hlisting (account "acct1") "connection reset"
                       eq_refl (or_introl eq_refl) eq_refl eq_refl)
      as (conn' & Hrun & Hcommit & Hedges & Hjobs).
    exists conn'. split; [exact Hrun|]. split.
    + rewrite Hcommit. change (Db.followers (working conn'))
        with (edge_table Followers (working conn')).
      rewrite Hedges. reflexivity.
    + rewrite Hjobs. reflexivity.
Defined.

(** X10 on the three jobs of an enrolment. *)
Lemma X10_witness :
  let now := date 2024 3 1 in
  let s := schedule_user_scraping now "acct1" (init now empty_conn) in
  jobs_wf (working (db_conn s)) /\
  List.map id_of (batch s) = [1; 2; 3] /\
  increasing (List.map id_of (batch s)).
Proof.
  intros now s.
  assert (Hwf : jobs_wf (working (db_conn s))) by jobs_wf_by_computation.
  split; [exact Hwf|]. split; [reflexivity|].
  exact (proj1 (X10_batch_is_first_in_first_out s Hwf)).
Defined.

(** X11 on a tick in which the second of three jobs is refused: the third
    job is pending afterwards, the second is not. *)
Lemma X11_witness :
  let now := date 2024 3 1 in
  let world := second_refused now ["a"; "b"] in
  let s := schedule_user_scraping now "acct1" (init now empty_conn) in
  let s' := process_pending_jobs now world s in
  jobs_wf (working (db_conn s)) /\
  crawls_accepted world (batch (_reset_daily_counter now s))
                  (_reset_daily_counter now s) /\
  (forall row,
      job_row 3 (working (db_conn s)) = Some row ->
      In row (scrape_jobs (working (db_conn s'))) /\ status row = "pending") /\
  (forall row,
      In row (scrape_jobs (working (db_conn s'))) ->
      status row = "pending" -> job_id row <> 2).
Proof.
  intros now world s s'.
  assert (Hwf : jobs_wf (working (db_conn s))) by jobs_wf_by_computation.
  assert (Hacc : crawls_accepted world (batch (_reset_daily_counter now s))
                                 (_reset_daily_counter now s)).
  { change (batch (_reset_daily_counter now s))
      with [(1, "acct1", "profile"); (2, "acct1", "followers");
            (3, "acct1", "following")].
    cbn [crawls_accepted].
    split; [intros Ht; discriminate Ht|].
    split; [intros _ p Hp; discriminate Hp|].
    split; [|exact I].
    intros _ p Hp. injection Hp as <-. vm_compute. left. reflexivity. }
  split; [exact Hwf|]. split; [exact Hacc|]. split.
  - intros row Hrow.
    apply (X11_pending_jobs_after_a_tick now world s row Hwf Hacc).
    vm_compute in Hrow. injection Hrow as <-.
    split; [vm_compute; tauto|]. split; reflexivity.
  - intros row Hin Hst.
    destruct (proj1 (X11_pending_jobs_after_a_tick now world s row Hwf Hacc)
                    (conj Hin Hst)) as (_ & _ & Hraised).
    intros Heq. rewrite Heq in Hraised. vm_compute in Hraised.
    discriminate.
Defined.

(** X12 on a target whose listings have been crawled twice in each
    direction. *)
Lemma X12_witness :
  let now := date 2024 3 1 in
  let world := fun _ : nat => answer now "acct1" ["a"; "b"] in
  let s := run [Enroll now "acct1"; Tick now world; Tick now world]
               (init now empty_conn) in
  jobs_wf (working (db_conn s)) /\
  completed_count "acct1" (working (db_conn s)) = 4 /\
  forall r id type,
    mutuals (working (db_conn (fst (process_job r (id, "acct1", type) s))))
    = mutuals (working (db_conn s)).
Proof.
  intros now world s.
  assert (Hwf : jobs_wf (working (db_conn s))) by jobs_wf_by_computation.
  assert (H4 : completed_count "acct1" (working (db_conn s)) = 4)
    by (vm_compute; reflexivity).
  split; [exact Hwf|]. split; [exact H4|].
  assert (H3 : 3 <= completed_count "acct1" (working (db_conn s)))
    by (rewrite H4; lia).
  assert (H : forall t,
             jobs_wf (working (db_conn t)) ->
             3 <= completed_count "acct1" (working (db_conn t)) ->
             forall r id type,
               mutuals (working (db_conn
                          (fst (process_job r (id, "acct1", type) t))))
               = mutuals (working (db_conn t))).
  { intros t Ht Ht3.
    exact (proj2 (X12_mutuals_are_not_recomputed t "acct1" [] Ht Ht3)). }
  exact (H s Hwf H3).
Defined.

(** X24 on a listing of two followers that is made a second time, a day
    later. *)
Lemma X24_witness :
  let r := answer (date 2024 3 1) "acct1" ["a"; "b"] in
  let again := answer (date 2024 3 2) "acct1" ["a"; "b"] in
  let first :=
    get_followers r "acct1" None InstagramScraper.init (graph_conn [] []) in
  let second :=
    get_followers again "acct1" None (fst (fst first)) (snd (fst first)) in
  length (users (working (snd (fst first)))) = 3 /\
  target_stored r (working (graph_conn [] [])) /\
  users (working (snd (fst second))) = users (working (snd (fst first))) /\
  Db.followers (working (snd (fst second)))
  = Db.followers (working (snd (fst first))) /\
  snd second = snd first.
Proof.
  intros r again first second.
  split; [reflexivity|].
  assert (Hrow : target_stored r (working (graph_conn [] []))).
  { intros p Hp. injection Hp as <-. left. reflexivity. }
  destruct (X24_repeated_listing_adds_nothing
              Followers r "acct1" None InstagramScraper.init
              (graph_conn [] []) None (date 2024 3 2) (date 2024 3 2)
              (or_intror eq_refl) Hrow) as (Hu & Hf & _ & _ & Hout).
  split; [exact Hrow|]. split; [exact Hu|]. split; [exact Hf | exact Hout].
Defined.

(** X25 on the following job of an enrolment, with a tick after it. *)
Lemma X25_witness :
  let now := date 2024 3 1 in
  let world := fun _ : nat => answer now "acct1" ["a"] in
  let s := schedule_user_scraping now "acct1"
             (init now (graph_conn [] [])) in
  let s' := fst (process_job (world 3) (3, "acct1", "following") s) in
  let db := working (db_conn (run [Tick now world] s')) in
  jobs_wf (working (db_conn s)) /\
  snd (process_job (world 3) (3, "acct1", "following") s) = Returned tt /\
  In "acct1" (InterestAnalyzer.pending_rows db).
Proof.
  intros now world s s' db.
  assert (Hwf : jobs_wf (working (db_conn s))) by jobs_wf_by_computation.
  assert (Hret : snd (process_job (world 3) (3, "acct1", "following") s)
                 = Returned tt) by (vm_compute; reflexivity).
  split; [exact Hwf|]. split; [exact Hret|].
  assert (H : forall t,
             jobs_wf (working (db_conn t)) ->
             snd (process_job (world 3) (3, "acct1", "following") t)
             = Returned tt ->
             forall u,
               In u (users (working (db_conn
                        (run [Tick now world]
                           (fst (process_job (world 3)
                                   (3, "acct1", "following") t)))))) ->
               Db.username u = "acct1" ->
               (forall cid,
                   interests
                     (working (db_conn
                        (run [Tick now world]
                           (fst (process_job (world 3)
                                   (3, "acct1", "following") t)))))
                   !! (user_id u, cid) = None) ->
               In "acct1"
                  (InterestAnalyzer.pending_rows
                     (working (db_conn
                        (run [Tick now world]
                           (fst (process_job (world 3)
                                   (3, "acct1", "following") t))))))).
  { intros t Ht Hr.
    exact (proj2 (X25_crawled_target_waits_for_analysis
                    (world 3) 3 "acct1" t [Tick now world] Ht Hr)). }
  apply (H s Hwf Hret (full_row now (account "acct1"))).
  - vm_compute. left. reflexivity.
  - reflexivity.
  - intros cid.
    assert (Hi : interests db = ∅) by (vm_compute; reflexivity).
    fold s' db. rewrite Hi. apply lookup_empty.
Defined.

(** X26 on a first enrolment, with the tick on the next day: the
    profile crawl stores the row that the listings need. *)
Lemma X26_witness :
  let now := date 2024 3 1 in
  let world := fun _ : nat => answer now "acct1" ["a"] in
  let s := schedule_user_scraping now "acct1" (init now empty_conn) in
  let jobs := [(1, "acct1", "profile"); (2, "acct1", "followers");
               (3, "acct1", "following")] in
  batch (_reset_daily_counter (date 2024 3 2) s) = jobs /\
  crawls_accepted world jobs (_reset_daily_counter (date 2024 3 2) s) /\
  List.map fst (snd (process_pending_jobs_trace (date 2024 3 2) world s))
  = jobs.
Proof.
  intros now world s jobs.
  assert (Hacc : crawls_accepted world jobs
                   (_reset_daily_counter (date 2024 3 2) s)).
  { subst jobs. cbn [crawls_accepted].
    split; [intros Ht; discriminate Ht|].
    split; [intros _ p Hp; injection Hp as <-; vm_compute; left; reflexivity|].
    split; [|exact I].
    intros _ p Hp. injection Hp as <-. vm_compute. left. reflexivity. }
  destruct (X26_enrolled_target_is_crawled_in_order
              now (date 2024 3 2) world "acct1" (init now empty_conn))
    as [Hbatch Htrace]; [reflexivity | intros j [] | cbn; lia |].
  split; [exact Hbatch|]. split; [exact Hacc | exact (Htrace Hacc)].
Defined.

(** X27 on a run in which every request raises. *)
Lemma X27_witness :
  let now := date 2024 3 2 in
  let model := fun (_ _ : nat) (_ : string) =>
                 InterestAnalyzer.CompletionRaises "timeout" in
  InterestAnalyzer.pending_users (working analysis_conn) = ["acct1"] /\
  InterestAnalyzer.process_pending_users now model
    (InterestAnalyzer.usable analysis_conn)
  = InterestAnalyzer.usable analysis_conn.
Proof.
  intros now model. split; [reflexivity|].
  exact (proj1 (X27_idle_run_selects_the_same_accounts now model
                  analysis_conn
                  (fun p name u _ _ => or_intror (fun _ _ => I)))).
Defined.

(** X15 on the taxonomy of two categories. *)
Lemma X15_witness :
  List.NoDup (List.map snd (interest_categories (working taxonomy_conn))) /\
  InterestAnalyzer.categories_list taxonomy_conn = ["Fashion"; "Food"] /\
  (InterestAnalyzer.get_category_mapping taxonomy_conn !! "Food" = Some 2
   <-> In (2, "Food") (interest_categories (working taxonomy_conn))).
Proof.
  assert (Hnd : List.NoDup
                  (List.map snd (interest_categories (working taxonomy_conn)))).
  { repeat constructor; cbn; intuition discriminate. }
  split; [exact Hnd|].
  destruct (X15_mapping_of_a_keyed_taxonomy taxonomy_conn Hnd) as [Hl Hm].
  split; [exact Hl | exact (Hm "Food" 2)].
Defined.

(** X17 on an analysis in which the model puts every batch under
    "Fashion". *)
Lemma X17_witness :
  let now := date 2024 3 2 in
  let r := {| InterestAnalyzer.username :=
                Some (InterestAnalyzer.JString "a");
              InterestAnalyzer.category :=
                Some (InterestAnalyzer.JString "Fashion");
              InterestAnalyzer.confidence :=
                InterestAnalyzer.ConfidenceNumber (Finite (9 # 10)) |} in
  let model := fun (_ : nat) (_ : string) =>
                 InterestAnalyzer.Completed
                   (Some [InterestAnalyzer.Object r]) in
  let s' :=
    InterestAnalyzer.analyze_user_interests now model "acct1"
      (InterestAnalyzer.usable analysis_conn) in
  let conn' := InterestAnalyzer.connection s' in
  List.length
    (InterestAnalyzer.get_following_data_for_user "acct1" analysis_conn) = 2 /\
  InterestAnalyzer.passes
    (InterestAnalyzer.get_category_mapping analysis_conn)
    (InterestAnalyzer.Object r) = true /\
  InterestAnalyzer.aborted s' = false /\
  committed conn' = working conn' /\
  exists row,
    interests (committed conn') !! ("acct1", 1) = Some row /\
    created_at row = now.
Proof.
  intros now r model s' conn'.
  split; [reflexivity|]. split; [reflexivity|].
  apply (X17_answered_batch_is_stored now model "acct1" analysis_conn
           (listed_user "acct1") 0
           (InterestAnalyzer.get_following_data_for_user "acct1"
              analysis_conn)
           [InterestAnalyzer.Object r] r 1
           eq_refl eq_refl eq_refl (or_introl eq_refl) eq_refl).
  intros j b rs' item _ Hm Hin. injection Hm as <-.
  destruct Hin as [<-|[]]. reflexivity.
Defined.

(** X18 on an analysis in which every request raises. *)
Lemma X18_witness :
  let now := date 2024 3 2 in
  let model := fun (_ : nat) (_ : string) =>
                 InterestAnalyzer.CompletionRaises "timeout" in
  InterestAnalyzer.analyze_user_interests now model "acct1"
    (InterestAnalyzer.usable analysis_conn)
  = InterestAnalyzer.usable analysis_conn.
Proof.
  intros now model.
  exact (X18_failed_requests_write_nothing now model "acct1" analysis_conn
           (fun _ _ => I)).
Defined.

(** X21 on a run in which the model puts every batch under "Food". *)
Lemma X21_witness :
  let now := date 2024 3 2 in
  let r := {| InterestAnalyzer.username := None;
              InterestAnalyzer.category :=
                Some (InterestAnalyzer.JString "Food");
              InterestAnalyzer.confidence :=
                InterestAnalyzer.ConfidenceAbsent |} in
  let model := fun (_ _ : nat) (_ : string) =>
                 InterestAnalyzer.Completed
                   (Some [InterestAnalyzer.Object r]) in
  let s' := InterestAnalyzer.process_pending_users now model
              (InterestAnalyzer.usable analysis_conn) in
  let conn' := InterestAnalyzer.connection s' in
  InterestAnalyzer.pending_users (working analysis_conn) = ["acct1"] /\
  InterestAnalyzer.passes
    (InterestAnalyzer.get_category_mapping analysis_conn)
    (InterestAnalyzer.Object r) = true /\
  InterestAnalyzer.aborted s' = false /\
  is_Some (interests (working conn') !! ("acct1", 2)) /\
  ~ In "acct1" (InterestAnalyzer.pending_rows (working conn')) /\
  ~ In "acct1" (InterestAnalyzer.pending_users (working conn')).
Proof.
  intros now r model s' conn'.
  split; [reflexivity|]. split; [reflexivity|].
  assert (Hnd : List.NoDup
                  (List.map Db.username (users (working analysis_conn)))).
  { vm_compute. repeat constructor; cbn; intuition discriminate. }
  apply (X21_analysed_account_waits_no_more now model analysis_conn
           0 "acct1" (listed_user "acct1") 0
           (InterestAnalyzer.get_following_data_for_user "acct1"
              analysis_conn)
           [InterestAnalyzer.Object r] r 2
           Hnd eq_refl eq_refl eq_refl eq_refl (or_introl eq_refl) eq_refl).
  intros q name' u' j b rs' item _ _ _ Hm Hin. injection Hm as <-.
  destruct Hin as [<-|[]]. reflexivity.
Defined.

(** X22 on a batch of two accounts, one without a name. *)
Lemma X22_witness :
  let a := {| InterestAnalyzer.subject_username := "fashionista";
              InterestAnalyzer.subject_full_name := None;
              InterestAnalyzer.subject_bio := "Style and trends" |} in
  let b := {| InterestAnalyzer.subject_username := "chef";
              InterestAnalyzer.subject_full_name := Some "A Chef";
              InterestAnalyzer.subject_bio := "" |} in
  let prompt :=
    InterestAnalyzer._create_batch_prompt [a; b] ["Fashion"; "Food"] in
  InterestAnalyzer.occurs "fashionista" prompt = true /\
  InterestAnalyzer.occurs "Style and trends" prompt = true /\
  InterestAnalyzer.occurs
    ("Username: " ++ "fashionista" ++ InterestAnalyzer.nl
     ++ "Name: " ++ "None" ++ InterestAnalyzer.nl
     ++ "Bio: " ++ "Style and trends" ++ InterestAnalyzer.nl)%string
    prompt = true /\
  InterestAnalyzer.occurs "Fashion, Food" prompt = true.
Proof.
  intros a b prompt.
  exact (X22_prompt_shows_every_account [a; b] ["Fashion"; "Food"] a
           (or_introl eq_refl)).
Defined.

End FurtherRuns.
